(** * Slow-query synchronisation and the task DAG store

    A shallow embedding of two Go files of the repository:

    - the slow-query syncer (package [slowquerysync]): [pgMergeSlowQueryLog],
      [getLatestLogTime], [syncInstanceSlowQuery], [syncMySQLSlowQuery] and
      [syncPostgreSQLSlowQuery];
    - the task DAG store ([backend/store/task_dag.go]): [RebuildTaskDAG],
      [CreateTaskDAGV2] and [ListTaskDags].

    Go integers are integers of [Z] with the wrap-around of their width
    written out; a Go map that is only built and read by key is a [gmap];
    a Go map that the code ranges over is the list of its entries in the
    order in which the runtime visits them, so that a statement quantified
    over that list holds for every order. *)

From Stdlib Require Import ZArith Lia Sorted.
From stdpp Require Import gmap strings list fin_maps.

Local Open Scope Z_scope.

(** ** Go machine integers *)

Module GoInt.

Definition MinInt64 : Z := - 2 ^ 63.
Definition MaxInt64 : Z := 2 ^ 63 - 1.
Definition MaxUint64 : Z := 2 ^ 64 - 1.

(** The value of a [uint64] expression whose mathematical value is [z]. *)
Definition wrapU64 (z : Z) : Z := z mod 2 ^ 64.

(** The value of an [int64] expression whose mathematical value is [z]. *)
Definition wrapS64 (z : Z) : Z := (z + 2 ^ 63) mod 2 ^ 64 - 2 ^ 63.

(** The value of an [int32] conversion. *)
Definition wrapS32 (z : Z) : Z := (z + 2 ^ 31) mod 2 ^ 32 - 2 ^ 31.

Definition isUint64 (z : Z) : Prop := 0 <= z <= MaxUint64.
Definition isInt64 (z : Z) : Prop := MinInt64 <= z <= MaxInt64.

End GoInt.

(** ** [durationpb.Duration] and [time.Duration]

    A [time.Duration] is an [int64] count of nanoseconds.  The protobuf
    message keeps seconds and nanoseconds apart; the two conversions are
    those of [google.golang.org/protobuf/types/known/durationpb]. *)

Module durationpb.
Import GoInt.

Record Duration : Type := { Seconds : Z; Nanos : Z }.

#[global] Instance Duration_eq_dec : EqDecision Duration.
Proof. solve_decision. Defined.

(** [durationpb.New(d)]: [secs := nanos / 1e9; nanos -= secs * 1e9]
    with Go's division, which truncates toward zero. *)
Definition New (d : Z) : Duration :=
  let nanos := d in
  let secs := Z.quot nanos 1000000000 in
  let nanos := wrapS64 (nanos - wrapS64 (secs * 1000000000)) in
  {| Seconds := secs; Nanos := wrapS32 nanos |}.

(** The method [AsDuration] of the message; the getters of a nil message
    return 0, and a message out of the range of [time.Duration] converts
    to the closest duration. *)
Definition AsDuration (x : option Duration) : Z :=
  let secs := from_option Seconds 0 x in
  let nanos := from_option Nanos 0 x in
  let d := wrapS64 (secs * 1000000000) in
  let overflow := negb (Z.quot d 1000000000 =? secs) in
  let d := wrapS64 (d + nanos) in
  let overflow := overflow || ((secs <? 0) && (nanos <? 0) && (0 <? d)) in
  let overflow := overflow || ((0 <? secs) && (0 <? nanos) && (d <? 0)) in
  if overflow then
    if secs <? 0 then MinInt64
    else if 0 <? secs then MaxInt64
    else d
  else d.

End durationpb.

(** ** [time.Time] and [timestamppb.Timestamp]

    The instant of a [time.Time] is counted in nanoseconds since the
    zero time (January 1, year 1, 00:00:00 UTC), which is how [Truncate]
    and [IsZero] look at it.  The times that the syncer makes itself are
    in UTC, where [AddDate(0, 0, n)] moves the instant by [n] days of 24
    hours; the date that the store hands back keeps the Location of the
    store, in which [AddDate] moves it by calendar days. *)

Module gotime.

Definition Time : Type := Z.

Definition Nanosecond : Z := 1.
Definition Second : Z := 1000000000 * Nanosecond.
Definition Hour : Z := 3600 * Second.

(** Seconds from the zero time to the Unix epoch. *)
Definition unixToInternal : Z := 62135596800.

(** The zero value [time.Time{}]. *)
Definition zeroTime : Time := 0.

Definition IsZero (t : Time) : bool := t =? 0.

(** [t.Truncate(d)]: [t] rounded down to a multiple of [d] since the
    zero time; [t] itself when [d <= 0]. *)
Definition Truncate (t : Time) (d : Z) : Time :=
  if d <=? 0 then t else t - t mod d.

(** [t.AddDate(0, 0, days)] for a time in UTC. *)
Definition AddDate (t : Time) (days : Z) : Time := t + days * (24 * Hour).

Definition Before (t u : Time) : bool := t <? u.
Definition After (t u : Time) : bool := u <? t.

(** [time.Unix(sec, nsec)]: the nanoseconds beyond a second are carried
    into the seconds, which are [int64]. *)
Definition Unix (sec nsec : Z) : Time :=
  GoInt.wrapS64 (GoInt.wrapS64 (sec + nsec / Second) + unixToInternal) * Second
  + nsec mod Second.

(** *** Locations

    A [time.Time] is an instant and a [*time.Location].  The times that
    the syncer makes itself are in UTC ([time.Now().UTC()], [AsTime()],
    and what [Truncate] and [AddDate] make of these): for them the model
    keeps the instant alone, [Time].  The time that the store hands back
    comes with the Location that the store gave it, [Located]: [Truncate],
    [Before] and [After] look at its instant only, [AddDate] moves it by
    calendar days of its Location. *)

(** What [l.lookup(sec)] tells of the zone in use at the Unix time
    [sec]: its offset in seconds east of UTC and the Unix times at which
    it starts and ends. *)
Record Zone : Type := { offset : Z; zoneStart : Z; zoneEnd : Z }.

(** [Date(year, month, day, hour, min, sec, nsec, loc)] as a Unix time,
    for the civil time that is [civil] seconds after midnight of
    1970-01-01: the zone is looked up at the civil time taken for a Unix
    time and, when the Unix time this gives is outside that zone, once
    more at that Unix time. *)
Definition unixOfCivil (lookup : Z -> Zone) (civil : Z) : Z :=
  let zone := lookup civil in
  if offset zone =? 0 then civil
  else
    let utc := civil - offset zone in
    if (utc <? zoneStart zone) || (zoneEnd zone <=? utc)
    then civil - offset (lookup utc)
    else civil - offset zone.

(** [t.AddDate(0, 0, days)] on Unix times: [Date] of the date and the
    clock that [t] has in its Location, the day moved by [days].  A day
    out of range is normalised to the date that many days later, so the
    civil time moves by [days] times 86400 seconds. *)
Definition addDays (lookup : Z -> Zone) (unix days : Z) : Z :=
  unixOfCivil lookup (unix + offset (lookup unix) + days * 86400).

(** A Location: its zones, and the fact that the same clock time of the
    next calendar day is a later instant, as it is in every zone of a
    fixed offset and in the zones of the time zone database. *)
Record Location : Type := {
  lookup : Z -> Zone;
  next_day_later : forall unix, unix < addDays lookup unix 1
}.

(** The zone of [time.UTC], which lasts from [alpha] to [omega]. *)
Definition utcZone : Zone :=
  {| offset := 0; zoneStart := - 2 ^ 63; zoneEnd := 2 ^ 63 - 1 |}.

Definition UTC : Location.
Proof.
  refine {| lookup := fun _ => utcZone |}.
  abstract (intros unix; unfold addDays, unixOfCivil; cbn; lia).
Defined.

(** A Location whose offset never changes, as [time.UTC] and the
    Locations that [time.FixedZone] makes. *)
Definition fixedOffset (loc : Location) : Prop :=
  exists seconds, forall unix, offset (lookup loc unix) = seconds.

Record Located : Type := { instant : Time; location : Location }.

Definition inUTC (t : Time) : Located := {| instant := t; location := UTC |}.

(** [t.AddDate(0, 0, days)] for a time in the Location [loc]: the second
    of [t] moves by calendar days of [loc], the nanoseconds within the
    second stay. *)
Definition AddDateIn (loc : Location) (t : Time) (days : Z) : Time :=
  (addDays (lookup loc) (t / Second - unixToInternal) days + unixToInternal)
  * Second
  + t mod Second.

End gotime.

Module timestamppb.

Record Timestamp : Type := { Seconds : Z; Nanos : Z }.

#[global] Instance Timestamp_eq_dec : EqDecision Timestamp.
Proof. solve_decision. Defined.

(** [x.AsTime()] is [time.Unix(x.GetSeconds(), x.GetNanos()).UTC()];
    the getters of a nil message return 0. *)
Definition AsTime (x : option Timestamp) : gotime.Time :=
  gotime.Unix (from_option Seconds 0 x) (from_option Nanos 0 x).

End timestamppb.

(** ** The protobuf messages the syncer handles *)

Module storepb.

(** Modelled from the spec: the generated Go declarations of the
    messages are not among the sources.  The fields are the ones the
    syncer reads and writes; section 3 of the specification gives
    [count] and [totalRowsSent] as [uint64]. *)
Record SlowQueryStatisticsItem : Type := {
  SqlFingerprint : string;
  Count : Z;
  LatestLogTime : option timestamppb.Timestamp;
  TotalQueryTime : option durationpb.Duration;
  MaximumQueryTime : option durationpb.Duration;
  TotalRowsSent : Z
}.

Record SlowQueryStatistics : Type := {
  Items : list SlowQueryStatisticsItem
}.

#[global] Instance SlowQueryStatisticsItem_eq_dec :
  EqDecision SlowQueryStatisticsItem.
Proof. solve_decision. Defined.

#[global] Instance SlowQueryStatistics_eq_dec : EqDecision SlowQueryStatistics.
Proof. solve_decision. Defined.

(** The engines of [storepb.Engine]; the syncer tells [MYSQL] and
    [POSTGRES] from all the others. *)
Inductive Engine : Type :=
| ENGINE_UNSPECIFIED | CLICKHOUSE | MYSQL | POSTGRES | SNOWFLAKE | SQLITE
| TIDB | MONGODB | REDIS | ORACLE | SPANNER | MSSQL | REDSHIFT | MARIADB
| OCEANBASE | DM | RISINGWAVE | OCEANBASE_ORACLE | STARROCKS | DORIS | HIVE
| ELASTICSEARCH | BIGQUERY | DYNAMODB | DATABRICKS | COCKROACHDB | COSMOSDB.

End storepb.

Module v1pb.

(** Modelled from the spec: as for [storepb], the declarations are not
    among the sources; the integer fields are [uint64] like the ones
    they are added to. *)
Record SlowQueryStatistics : Type := {
  SqlFingerprint : string;
  Count : Z;
  LatestLogTime : option timestamppb.Timestamp;
  AverageQueryTime : option durationpb.Duration;
  MaximumQueryTime : option durationpb.Duration;
  AverageRowsSent : Z
}.

Record SlowQueryLog : Type := {
  Statistics : SlowQueryStatistics
}.

End v1pb.

(** ** The messages of the persistence layer *)

Module api.

Inductive SyncStatus : Type := OK | NOT_FOUND.

#[global] Instance SyncStatus_eq_dec : EqDecision SyncStatus.
Proof. solve_decision. Defined.

End api.

Module InstanceMessage.

Record t : Type := {
  ResourceID : string;
  Engine : storepb.Engine;
  Deleted : bool
}.

End InstanceMessage.

Module DatabaseMessage.

Record t : Type := {
  InstanceID : string;
  DatabaseName : string;
  SyncState : api.SyncStatus
}.

End DatabaseMessage.

Module SlowQueryPolicy.

Record t : Type := { Active : bool }.

End SlowQueryPolicy.

Module ListSlowQueryMessage.

Record t : Type := {
  InstanceID : string;
  DatabaseName : string;
  StartLogDate : gotime.Time;
  EndLogDate : gotime.Time
}.

End ListSlowQueryMessage.

Module UpsertSlowLogMessage.

Record t : Type := {
  InstanceID : string;
  DatabaseName : string;
  LogDate : gotime.Time;
  SlowLog : storepb.SlowQueryStatistics
}.

End UpsertSlowLogMessage.

(** ** The world the syncer runs in

    The syncer talks to the store and to the engine drivers.  Every call
    it makes is recorded in a trace; the slow-log table is kept as a map
    from (instance, database, log date) to the statistics of that day.
    What the calls answer, and whether they fail (with an error code), is
    left to an environment that may look at the whole world, so that
    every statement below holds whatever the store and the drivers do. *)

Module world.

(** A driver is known by the database it was opened for ([None] for the
    instance-wide driver of the MySQL routine). *)
Inductive Event : Type :=
| GetSlowQueryPolicy (instance : string)
| DeleteOutdatedSlowLog (instance : string) (earliestDate : gotime.Time)
| ListDatabases (instance : string)
| GetLatestSlowLogDate (instance : string)
| GetAdminDatabaseDriver (instance : string) (database : option string)
| CheckSlowQueryLogEnabled (database : option string)
| Close (database : option string)
| SyncSlowQuery (database : option string) (date : gotime.Time)
| ListSlowQuery (find : ListSlowQueryMessage.t)
| UpsertSlowLog (upsert : UpsertSlowLogMessage.t).

(** The errors a routine returns: one handed over by the store or a
    driver, one of the two the syncer makes itself, and the marker of a
    loop cut short by the bound the model puts on its iterations. *)
Inductive error : Type :=
| External (code : nat)
| UnsupportedEngine (engine : storepb.Engine)
| NoDatabaseAvailable (instance : string)
| OutOfFuel.

Abbreviation SlowLogTable :=
  (gmap (string * string * Z) storepb.SlowQueryStatistics).

Record World : Type := {
  slowLog : SlowLogTable;
  trace : list Event
}.

Record Env : Type := {
  Now : World -> gotime.Time;
  IsSystemDatabase : string -> bool;
  getSlowQueryPolicy : World -> string -> nat + option SlowQueryPolicy.t;
  deleteOutdatedSlowLog : World -> string -> gotime.Time -> option nat;
  listDatabases : World -> string -> nat + list DatabaseMessage.t;
  getLatestSlowLogDate : World -> string -> nat + option gotime.Located;
  getAdminDatabaseDriver : World -> string -> option string -> option nat;
  checkSlowQueryLogEnabled : World -> option string -> option nat;
  syncSlowQuery :
    World -> option string -> gotime.Time ->
    nat + list (string * storepb.SlowQueryStatistics);
  listSlowQuery :
    World -> ListSlowQueryMessage.t -> nat + list v1pb.SlowQueryLog;
  upsertSlowLog : World -> UpsertSlowLogMessage.t -> option nat
}.

(** A computation of the syncer: it changes the world and returns an
    error or a value. *)
Definition M (A : Type) : Type := World -> World * (error + A).

Definition ret {A : Type} (a : A) : M A := fun w => (w, inr a).

Definition fail {A : Type} (e : error) : M A := fun w => (w, inl e).

Definition bind {A B : Type} (m : M A) (k : A -> M B) : M B :=
  fun w =>
    match m w with
    | (w', inl e) => (w', inl e)
    | (w', inr a) => k a w'
    end.

(** An error that the caller looks at instead of returning it. *)
Definition attempt {A : Type} (m : M A) : M (error + A) :=
  fun w => let '(w', r) := m w in (w', inr r).

Definition record (ev : Event) (w : World) : World :=
  {| slowLog := slowLog w; trace := trace w ++ [ev] |}.

(** A call that reads: the event, then the answer of the environment. *)
Definition query {A : Type} (ev : Event) (answer : World -> nat + A) : M A :=
  fun w =>
    (record ev w,
     match answer w with
     | inl code => inl (External code)
     | inr a => inr a
     end).

(** A call that writes: the event, then either the error of the
    environment or the change of the table. *)
Definition command (ev : Event) (failure : World -> option nat)
    (change : SlowLogTable -> SlowLogTable) : M unit :=
  fun w =>
    match failure w with
    | Some code => (record ev w, inl (External code))
    | None =>
        ({| slowLog := change (slowLog w); trace := trace w ++ [ev] |}, inr tt)
    end.

(** [defer driver.Close(ctx)]: the driver is closed when the rest of the
    function is over, whatever it returns. *)
Definition deferClose {A : Type} (database : option string) (m : M A) : M A :=
  fun w => let '(w', r) := m w in (record (Close database) w', r).

End world.

Declare Scope syncer_scope.
Delimit Scope syncer_scope with syncer.
Notation "x <- m ;; k" := (world.bind m (fun x => k))
  (at level 100, m at next level, right associativity) : syncer_scope.
Notation "m ;;; k" := (world.bind m (fun _ => k))
  (at level 100, right associativity) : syncer_scope.

(** ** The persistence layer, as far as the syncer uses it *)

Module store.
Import world.

Section Store.
Variable env : Env.

Definition GetSlowQueryPolicy (instanceID : string)
  : M (option SlowQueryPolicy.t) :=
  query (world.GetSlowQueryPolicy instanceID)
        (fun w => getSlowQueryPolicy env w instanceID).

(** Modelled from the spec: the store's own code is not among the
    sources.  Records are "deleted in bulk by the retention sweep when
    [logDate < today - retentionWindow]" (section 3), for the instance the
    sweep is called for. *)
Definition DeleteOutdatedSlowLog (instanceID : string)
    (earliestDate : gotime.Time) : M unit :=
  command (world.DeleteOutdatedSlowLog instanceID earliestDate)
          (fun w => deleteOutdatedSlowLog env w instanceID earliestDate)
          (filter (fun kv : string * string * Z * storepb.SlowQueryStatistics =>
                     ~ (kv.1.1.1 = instanceID /\ kv.1.2 < earliestDate))).

Definition ListDatabases (instanceID : string) : M (list DatabaseMessage.t) :=
  query (world.ListDatabases instanceID)
        (fun w => listDatabases env w instanceID).

Definition GetLatestSlowLogDate (instanceID : string)
  : M (option gotime.Located) :=
  query (world.GetLatestSlowLogDate instanceID)
        (fun w => getLatestSlowLogDate env w instanceID).

Definition ListSlowQuery (find : ListSlowQueryMessage.t)
  : M (list v1pb.SlowQueryLog) :=
  query (world.ListSlowQuery find) (fun w => listSlowQuery env w find).

(** Modelled from the spec: the store's own code is not among the
    sources.  A record is "keyed uniquely by (instanceID, databaseName,
    logDate)" (section 3) and an upsert overwrites it (section 5). *)
Definition UpsertSlowLog (upsert : UpsertSlowLogMessage.t) : M unit :=
  command (world.UpsertSlowLog upsert)
          (fun w => upsertSlowLog env w upsert)
          (fun table =>
             <[(UpsertSlowLogMessage.InstanceID upsert,
                UpsertSlowLogMessage.DatabaseName upsert,
                UpsertSlowLogMessage.LogDate upsert)
               := UpsertSlowLogMessage.SlowLog upsert]> table).

End Store.
End store.

(** ** The engine drivers, as far as the syncer uses them *)

Module driver.
Import world.

Section Driver.
Variable env : Env.

Definition GetAdminDatabaseDriver (instance : InstanceMessage.t)
    (database : option DatabaseMessage.t) : M unit :=
  let name := DatabaseMessage.DatabaseName <$> database in
  query (world.GetAdminDatabaseDriver (InstanceMessage.ResourceID instance) name)
        (fun w =>
           match getAdminDatabaseDriver env w
                   (InstanceMessage.ResourceID instance) name with
           | Some code => inl code
           | None => inr tt
           end).

Definition CheckSlowQueryLogEnabled (database : option string) : M unit :=
  query (world.CheckSlowQueryLogEnabled database)
        (fun w =>
           match checkSlowQueryLogEnabled env w database with
           | Some code => inl code
           | None => inr tt
           end).

Definition SyncSlowQuery (database : option string) (date : gotime.Time)
  : M (list (string * storepb.SlowQueryStatistics)) :=
  query (world.SyncSlowQuery database date)
        (fun w => syncSlowQuery env w database date).

End Driver.
End driver.

(** ** A Go map that the code ranges over

    The entries in the order of the range; a read by key finds the entry
    of that key.  [update] stands for a change made through the pointer
    that the entry holds: the entry stays where it is. *)

Module gomap.

Fixpoint get {V : Type} (k : string) (m : list (string * V)) : option V :=
  match m with
  | [] => None
  | (k', v) :: m' => if decide (k' = k) then Some v else get k m'
  end.

Fixpoint update {V : Type} (k : string) (v : V) (m : list (string * V))
  : list (string * V) :=
  match m with
  | [] => []
  | (k', v') :: m' =>
      if decide (k' = k) then (k', v) :: m' else (k', v') :: update k v m'
  end.

End gomap.

(** ** Package [slowquerysync] *)

Module slowquerysync.
Import GoInt world.
Local Open Scope syncer_scope.

Abbreviation Item := storepb.SlowQueryStatisticsItem.
Abbreviation Log := v1pb.SlowQueryLog.

(** [retentionCycle] is the number of days to keep slow query logs. *)
Definition retentionCycle : Z := 30.

(** *** [pgMergeSlowQueryLog] *)

Definition fingerprintOf (log : Log) : string :=
  v1pb.SqlFingerprint (v1pb.Statistics log).

(** [AverageQueryTime.AsDuration() * time.Duration(Count)]. *)
Definition logTotalQueryTime (log : Log) : Z :=
  let st := v1pb.Statistics log in
  wrapS64 (durationpb.AsDuration (v1pb.AverageQueryTime st)
           * wrapS64 (v1pb.Count st)).

(** [AverageRowsSent * Count]. *)
Definition logTotalRowsSent (log : Log) : Z :=
  let st := v1pb.Statistics log in
  wrapU64 (v1pb.AverageRowsSent st * v1pb.Count st).

(** The item stored for a fingerprint that the map does not have yet. *)
Definition newItem (log : Log) : Item :=
  let st := v1pb.Statistics log in
  {| storepb.SqlFingerprint := v1pb.SqlFingerprint st;
     storepb.Count := v1pb.Count st;
     storepb.LatestLogTime := v1pb.LatestLogTime st;
     storepb.TotalQueryTime := Some (durationpb.New (logTotalQueryTime log));
     storepb.MaximumQueryTime := v1pb.MaximumQueryTime st;
     storepb.TotalRowsSent := logTotalRowsSent log |}.

(** The updates made to the item [value] that the map already has. *)
Definition accumulate (value : Item) (log : Log) : Item :=
  let st := v1pb.Statistics log in
  let totalQueryTime := logTotalQueryTime log in
  {| storepb.SqlFingerprint := storepb.SqlFingerprint value;
     storepb.Count := wrapU64 (storepb.Count value + v1pb.Count st);
     storepb.LatestLogTime := storepb.LatestLogTime value;
     storepb.TotalQueryTime :=
       Some (durationpb.New
               (wrapS64 (durationpb.AsDuration (storepb.TotalQueryTime value)
                         + totalQueryTime)));
     storepb.MaximumQueryTime :=
       if durationpb.AsDuration (storepb.MaximumQueryTime value)
          <? durationpb.AsDuration (v1pb.MaximumQueryTime st)
       then v1pb.MaximumQueryTime st
       else storepb.MaximumQueryTime value;
     storepb.TotalRowsSent :=
       wrapU64 (storepb.TotalRowsSent value + logTotalRowsSent log) |}.

(** The body of the first loop: [status[item.SqlFingerprint] = item]. *)
Definition seedItem (status : gmap string Item) (item : Item)
  : gmap string Item :=
  <[storepb.SqlFingerprint item := item]> status.

(** The body of the second loop.  The map holds pointers, so the update
    of [value] in place is an update of the entry. *)
Definition mergeLog (status : gmap string Item) (log : Log)
  : gmap string Item :=
  match status !! fingerprintOf log with
  | None => <[fingerprintOf log := newItem log]> status
  | Some value => <[fingerprintOf log := accumulate value log]> status
  end.

(** The map [status] after the two loops. *)
Definition mergeStatus (statistics : storepb.SlowQueryStatistics)
    (logs : list Log) : gmap string Item :=
  foldl mergeLog (foldl seedItem ∅ (storepb.Items statistics)) logs.

(** The result: the values of the map, in an order that Go leaves open
    and that no statement below depends on. *)
Definition pgMergeSlowQueryLog (statistics : storepb.SlowQueryStatistics)
    (logs : list Log) : storepb.SlowQueryStatistics :=
  {| storepb.Items := (map_to_list (mergeStatus statistics logs)).*2 |}.

(** The items of the first argument after the call: the map shares the
    last item of each fingerprint with [statistics.Items], and these are
    the items updated in place. *)
Fixpoint writeBack (status : gmap string Item) (items : list Item)
  : list Item :=
  match items with
  | [] => []
  | item :: rest =>
      (if bool_decide (storepb.SqlFingerprint item
                         ∈ storepb.SqlFingerprint <$> rest)
       then item
       else default item (status !! storepb.SqlFingerprint item))
        :: writeBack status rest
  end.

Definition pgMergeSlowQueryLog_arg (statistics : storepb.SlowQueryStatistics)
    (logs : list Log) : storepb.SlowQueryStatistics :=
  {| storepb.Items :=
       writeBack (mergeStatus statistics logs) (storepb.Items statistics) |}.

(** *** [getLatestLogTime]

    The two nested loops return at the first item they meet. *)
Fixpoint getLatestLogTime
    (logMap : list (string * storepb.SlowQueryStatistics)) : gotime.Time :=
  match logMap with
  | [] => gotime.zeroTime
  | (_, log) :: rest =>
      match storepb.Items log with
      | item :: _ => timestamppb.AsTime (storepb.LatestLogTime item)
      | [] => getLatestLogTime rest
      end
  end.

Section Syncer.
Variable env : Env.

(** *** [syncMySQLSlowQuery] *)

(** The inner loop: one upsert for each database of the day's logs. *)
Fixpoint upsertDay (instance : InstanceMessage.t) (date : gotime.Time)
    (logs : list (string * storepb.SlowQueryStatistics)) : M unit :=
  match logs with
  | [] => ret tt
  | (dbName, slowLog) :: rest =>
      store.UpsertSlowLog env
        {| UpsertSlowLogMessage.InstanceID := InstanceMessage.ResourceID instance;
           UpsertSlowLogMessage.DatabaseName := dbName;
           UpsertSlowLogMessage.LogDate := date;
           UpsertSlowLogMessage.SlowLog := slowLog |} ;;;
      upsertDay instance date rest
  end.

(** The loop over the days, [for date := ...; !date.After(today);
    date = date.AddDate(0, 0, 1)], with a bound on its iterations.  The
    date keeps the Location [loc] it starts with; the driver and the
    store are handed its instant. *)
Fixpoint syncDays (fuel : nat) (instance : InstanceMessage.t)
    (loc : gotime.Location) (date today : gotime.Time) : M unit :=
  match fuel with
  | O => fail OutOfFuel
  | S fuel =>
      if gotime.After date today then ret tt
      else
        logs <- driver.SyncSlowQuery env None date ;;
        upsertDay instance date logs ;;;
        syncDays fuel instance loc (gotime.AddDateIn loc date 1) today
  end.

(** Iterations enough for the loop from [date] to [today]: a date moves
    by whole seconds. *)
Definition daysFuel (date today : gotime.Time) : nat :=
  S (Z.to_nat ((today - date) / gotime.Second + 1)).

(** The date the loop starts from, before it is truncated to the day:
    the date of the store, in its Location, or [earliestDate]. *)
Definition resumeDate (latestSlowLogDate : option gotime.Located)
    (today earliestDate : gotime.Time) : gotime.Located :=
  match latestSlowLogDate with
  | None => gotime.inUTC earliestDate
  | Some latest =>
      if gotime.Before
           (gotime.AddDateIn (gotime.location latest) (gotime.instant latest)
              retentionCycle) today
      then gotime.inUTC earliestDate
      else latest
  end.

Definition syncMySQLSlowQuery (instance : InstanceMessage.t) : M unit :=
  fun w0 =>
    let today := gotime.Truncate (Now env w0) (24 * gotime.Hour) in
    let earliestDate := gotime.AddDate today (- retentionCycle) in
    (store.DeleteOutdatedSlowLog env (InstanceMessage.ResourceID instance)
       earliestDate ;;;
     latestSlowLogDate <-
       store.GetLatestSlowLogDate env (InstanceMessage.ResourceID instance) ;;
     let latestSlowLogDate :=
       resumeDate latestSlowLogDate today earliestDate in
     driver.GetAdminDatabaseDriver env instance None ;;;
     deferClose None
       (driver.CheckSlowQueryLogEnabled env None ;;;
        let date :=
          gotime.Truncate (gotime.instant latestSlowLogDate)
            (24 * gotime.Hour) in
        syncDays (daysFuel date today) instance
          (gotime.location latestSlowLogDate) date today)) w0.

(** *** [syncPostgreSQLSlowQuery] *)

(** The first loop: the first database in sync, not a system database,
    whose driver opens and reports the slow query log enabled. *)
Fixpoint findEnabledDatabase (instance : InstanceMessage.t)
    (databases : list DatabaseMessage.t) : M (option DatabaseMessage.t) :=
  match databases with
  | [] => ret None
  | database :: rest =>
      if negb (bool_decide (DatabaseMessage.SyncState database = api.OK))
      then findEnabledDatabase instance rest
      else if IsSystemDatabase env (DatabaseMessage.DatabaseName database)
      then findEnabledDatabase instance rest
      else
        checked <-
          attempt
            (driver.GetAdminDatabaseDriver env instance (Some database) ;;;
             deferClose (Some (DatabaseMessage.DatabaseName database))
               (driver.CheckSlowQueryLogEnabled env
                  (Some (DatabaseMessage.DatabaseName database)))) ;;
        match checked with
        | inl _ => findEnabledDatabase instance rest
        | inr _ => ret (Some database)
        end
  end.

(** The second loop.  [logMap] is threaded through it because
    [pgMergeSlowQueryLog] updates the items of its argument in place. *)
Fixpoint upsertDatabases (instance : InstanceMessage.t)
    (latestLogDate nextLogDate : gotime.Time)
    (databases : list DatabaseMessage.t)
    (logMap : list (string * storepb.SlowQueryStatistics)) : M unit :=
  match databases with
  | [] => ret tt
  | database :: rest =>
      match gomap.get (DatabaseMessage.DatabaseName database) logMap with
      | None => upsertDatabases instance latestLogDate nextLogDate rest logMap
      | Some statistics =>
          listed <-
            attempt
              (store.ListSlowQuery env
                 {| ListSlowQueryMessage.InstanceID :=
                      DatabaseMessage.InstanceID database;
                    ListSlowQueryMessage.DatabaseName :=
                      DatabaseMessage.DatabaseName database;
                    ListSlowQueryMessage.StartLogDate := latestLogDate;
                    ListSlowQueryMessage.EndLogDate := nextLogDate |}) ;;
          let logs := match listed with inl _ => [] | inr logs => logs end in
          let merged :=
            if negb (length logs =? 0)%nat
            then pgMergeSlowQueryLog statistics logs
            else statistics in
          let logMap :=
            if negb (length logs =? 0)%nat
            then gomap.update (DatabaseMessage.DatabaseName database)
                   (pgMergeSlowQueryLog_arg statistics logs) logMap
            else logMap in
          _ <- attempt
                 (store.UpsertSlowLog env
                    {| UpsertSlowLogMessage.InstanceID :=
                         InstanceMessage.ResourceID instance;
                       UpsertSlowLogMessage.DatabaseName :=
                         DatabaseMessage.DatabaseName database;
                       UpsertSlowLogMessage.LogDate := latestLogDate;
                       UpsertSlowLogMessage.SlowLog := merged |}) ;;
          upsertDatabases instance latestLogDate nextLogDate rest logMap
      end
  end.

(** What follows the fetch of the snapshot [logMap]. *)
Definition syncSnapshot (instance : InstanceMessage.t)
    (databases : list DatabaseMessage.t)
    (logMap : list (string * storepb.SlowQueryStatistics)) : M unit :=
  let latestLogDate := getLatestLogTime logMap in
  if gotime.IsZero latestLogDate then ret tt
  else
    let latestLogDate := gotime.Truncate latestLogDate (24 * gotime.Hour) in
    let nextLogDate := gotime.AddDate latestLogDate 1 in
    upsertDatabases instance latestLogDate nextLogDate databases logMap.

Definition syncPostgreSQLSlowQuery (instance : InstanceMessage.t) : M unit :=
  fun w0 =>
    let today := gotime.Truncate (Now env w0) (24 * gotime.Hour) in
    let earliestDate := gotime.AddDate today (- retentionCycle) in
    (store.DeleteOutdatedSlowLog env (InstanceMessage.ResourceID instance)
       earliestDate ;;;
     databases <-
       store.ListDatabases env (InstanceMessage.ResourceID instance) ;;
     enabledDatabase <- findEnabledDatabase instance databases ;;
     match enabledDatabase with
     | None => fail (NoDatabaseAvailable (InstanceMessage.ResourceID instance))
     | Some enabled =>
         driver.GetAdminDatabaseDriver env instance (Some enabled) ;;;
         deferClose (Some (DatabaseMessage.DatabaseName enabled))
           (fun w1 =>
              (logMap <-
                 driver.SyncSlowQuery env
                   (Some (DatabaseMessage.DatabaseName enabled)) (Now env w1) ;;
               syncSnapshot instance databases logMap) w1)
     end) w0.

(** *** [syncInstanceSlowQuery] *)

Definition syncInstanceSlowQuery (instance : InstanceMessage.t) : M unit :=
  slowQueryPolicy <-
    store.GetSlowQueryPolicy env (InstanceMessage.ResourceID instance) ;;
  match slowQueryPolicy with
  | None => ret tt
  | Some policy =>
      if negb (SlowQueryPolicy.Active policy) then ret tt
      else
        match InstanceMessage.Engine instance with
        | storepb.MYSQL => syncMySQLSlowQuery instance
        | storepb.POSTGRES => syncPostgreSQLSlowQuery instance
        | engine => fail (UnsupportedEngine engine)
        end
  end.

End Syncer.
End slowquerysync.

(** ** The task DAG store ([backend/store/task_dag.go])

    The two tables the queries touch are lists of rows.  A transaction
    works on its own copy of the table, which replaces the stored table
    when the commit succeeds and is dropped by a rollback.  Which of the
    database calls fail is an input. *)

Module taskdag.

(** [TaskDAGMessage] is the message for task dags. *)
Record TaskDAGMessage : Type := {
  FromTaskID : Z;
  ToTaskID : Z
}.

#[global] Instance TaskDAGMessage_eq_dec : EqDecision TaskDAGMessage.
Proof. solve_decision. Defined.

(** [TaskDAGFind] is the API message to find TaskDAG. *)
Record TaskDAGFind : Type := {
  StageID : option Z;
  PipelineID : option Z
}.

(** The columns of table [task] that the join and the filter read. *)
Record TaskRow : Type := {
  id : Z;
  pipeline_id : Z;
  stage_id : Z
}.

Record Database : Type := {
  task_dag : list TaskDAGMessage;
  task : list TaskRow
}.

Inductive error : Type :=
| BeginTxError | ExecError | QueryError | ScanError | RowsError | CommitError
| Wrapf (e : error) (message : string).

(** The calls of one run that fail. *)
Record Faults : Type := {
  beginTxFails : bool;
  deleteFails : bool;
  insertFails : bool;
  queryFails : bool;
  scanFails : bool;
  rowsErrFails : bool;
  commitFails : bool
}.

Definition noFaults : Faults :=
  {| beginTxFails := false; deleteFails := false; insertFails := false;
     queryFails := false; scanFails := false; rowsErrFails := false;
     commitFails := false |}.

(** An open transaction: the table as the transaction sees it. *)
Record Tx : Type := { working : list TaskDAGMessage }.

Definition BeginTx (faults : Faults) (db : Database) : error + Tx :=
  if beginTxFails faults then inl BeginTxError
  else inr {| working := task_dag db |}.

(** [DELETE FROM task_dag WHERE to_task_id = $1]. *)
Definition execDelete (faults : Faults) (toTaskID : Z) (tx : Tx) : error + Tx :=
  if deleteFails faults then inl ExecError
  else inr {| working := filter (fun row => ToTaskID row <> toTaskID) (working tx) |}.

(** [INSERT INTO task_dag (from_task_id, to_task_id)
     SELECT unnest(CAST($1 AS INTEGER[])), $2]. *)
Definition execInsert (faults : Faults) (fromTaskIDs : list Z) (toTaskID : Z)
    (tx : Tx) : error + Tx :=
  if insertFails faults then inl ExecError
  else
    inr {| working :=
             working tx
             ++ map (fun fromTaskID =>
                       {| FromTaskID := fromTaskID; ToTaskID := toTaskID |})
                  fromTaskIDs |}.

(** [tx.Commit()]: the table of the transaction becomes the stored one. *)
Definition Commit (faults : Faults) (db : Database) (tx : Tx)
  : Database * option error :=
  if commitFails faults then (db, Some CommitError)
  else ({| task_dag := working tx; task := task db |}, None).

(** [tx.Rollback()], deferred: the table of the transaction is dropped. *)
Definition Rollback (db : Database) (tx : Tx) : Database := db.

Definition RebuildTaskDAG (faults : Faults) (fromTaskIDs : list Z)
    (toTaskID : Z) (db : Database) : Database * option error :=
  match BeginTx faults db with
  | inl err => (db, Some err)
  | inr tx =>
      match execDelete faults toTaskID tx with
      | inl err =>
          (Rollback db tx, Some (Wrapf err "failed to delete old task dags"))
      | inr tx =>
          match execInsert faults fromTaskIDs toTaskID tx with
          | inl err => (Rollback db tx, Some err)
          | inr tx => Commit faults db tx
          end
      end
  end.

(** The conditions joined by [AND] in the [WHERE] clause, as predicates
    on the row of [task] that the join brings. *)
Definition whereClauses (find : TaskDAGFind) : list (TaskRow -> bool) :=
  [fun _ => true]
  ++ match StageID find with
     | Some v => [fun row => stage_id row =? v]
     | None => []
     end
  ++ match PipelineID find with
     | Some v => [fun row => pipeline_id row =? v]
     | None => []
     end.

(** The rows of [SELECT task_dag.from_task_id, task_dag.to_task_id FROM
    task_dag <join> WHERE <where>]; the join, when there is one, is
    [JOIN task ON task.id = task_dag.from_task_id].  The query has no
    [ORDER BY]: the rows come in an order that the database chooses, here
    the order of the table, and a statement about a listing is a
    statement about its rows up to their order. *)
Definition selectTaskDags (find : TaskDAGFind) (db : Database)
  : list TaskDAGMessage :=
  let where_ := whereClauses find in
  if bool_decide (StageID find <> None) || bool_decide (PipelineID find <> None)
  then
    flat_map
      (fun dag =>
         map (fun _ => dag)
           (filter (fun row => id row = FromTaskID dag
                               /\ forallb (fun clause => clause row) where_ = true)
              (task db)))
      (task_dag db)
  else task_dag db.

(** [ListTaskDags] lists task dags. *)
Definition ListTaskDags (faults : Faults) (find : TaskDAGFind) (db : Database)
  : error + list TaskDAGMessage :=
  if beginTxFails faults then inl BeginTxError
  else if queryFails faults then inl QueryError
  else
    let taskDAGs := selectTaskDags find db in
    if scanFails faults && negb (length taskDAGs =? 0)%nat then inl ScanError
    else if rowsErrFails faults then inl RowsError
    else if commitFails faults then inl CommitError
    else inr taskDAGs.

(** [createTaskDAG]: [INSERT INTO task_dag (from_task_id, to_task_id)
    VALUES ($1, $2) RETURNING from_task_id, to_task_id], run in the
    transaction [tx]; the error of the query comes out of [Scan]. *)
Definition createTaskDAG (faults : Faults) (tx : Tx) (create : TaskDAGMessage)
  : error + Tx :=
  if scanFails faults then inl (Wrapf ScanError "failed to scan")
  else
    inr {| working :=
             working tx
             ++ [{| FromTaskID := FromTaskID create;
                    ToTaskID := ToTaskID create |}] |}.

(** [CreateTaskDAGV2] creates a task DAG. *)
Definition CreateTaskDAGV2 (faults : Faults) (create : TaskDAGMessage)
    (db : Database) : Database * option error :=
  match BeginTx faults db with
  | inl err => (db, Some (Wrapf err "failed to begin tx"))
  | inr tx =>
      match createTaskDAG faults tx create with
      | inl err => (Rollback db tx, Some (Wrapf err "failed to create task dag"))
      | inr tx =>
          match Commit faults db tx with
          | (db', Some err) => (db', Some (Wrapf err "failed to commit tx"))
          | (db', None) => (db', None)
          end
      end
  end.

End taskdag.

(** ** Vocabulary of the statements about the merge *)

Module aggregate.
Import GoInt slowquerysync.

(** The persisted records that carry a fingerprint, in the order of the
    list. *)
Definition recordsOf (fp : string) (logs : list Log) : list Log :=
  filter (fun log => fingerprintOf log = fp) logs.

(** The items of a statistics value that carry a fingerprint. *)
Definition itemsOf (fp : string) (statistics : storepb.SlowQueryStatistics)
  : list Item :=
  filter (fun item => storepb.SqlFingerprint item = fp)
    (storepb.Items statistics).

(** The item of the existing statistics that stands for a fingerprint:
    the last one, should the fingerprint occur more than once. *)
Definition existingItem (fp : string)
    (statistics : storepb.SlowQueryStatistics) : option Item :=
  last (itemsOf fp statistics).

Definition sumCount (logs : list Log) : Z :=
  foldr (fun log acc => v1pb.Count (v1pb.Statistics log) + acc) 0 logs.

(** The sum of [averageQueryTime * count], in nanoseconds. *)
Definition sumQueryTime (logs : list Log) : Z :=
  foldr (fun log acc =>
           durationpb.AsDuration (v1pb.AverageQueryTime (v1pb.Statistics log))
           * v1pb.Count (v1pb.Statistics log) + acc) 0 logs.

(** The sum of [averageRowsSent * count]. *)
Definition sumRowsSent (logs : list Log) : Z :=
  foldr (fun log acc =>
           v1pb.AverageRowsSent (v1pb.Statistics log)
           * v1pb.Count (v1pb.Statistics log) + acc) 0 logs.

(** The maximum of [start] and the maximum query times of the records,
    in nanoseconds. *)
Definition maxQueryTime (start : Z) (logs : list Log) : Z :=
  foldl (fun acc log =>
           Z.max acc
             (durationpb.AsDuration
                (v1pb.MaximumQueryTime (v1pb.Statistics log)))) start logs.

(** The integer fields are within the range of their Go type. *)
Definition wellFormedItem (item : Item) : Prop :=
  isUint64 (storepb.Count item) /\ isUint64 (storepb.TotalRowsSent item).

Definition wellFormedLog (log : Log) : Prop :=
  isUint64 (v1pb.Count (v1pb.Statistics log))
  /\ isUint64 (v1pb.AverageRowsSent (v1pb.Statistics log)).

(** The aggregate of an item: its count and its total query time in
    nanoseconds. *)
Definition aggregateOf (item : Item) : Z * Z :=
  (storepb.Count item, durationpb.AsDuration (storepb.TotalQueryTime item)).

(** What a statistics value holds for a fingerprint. *)
Definition heldAggregate (fp : string)
    (statistics : storepb.SlowQueryStatistics) : option (Z * Z) :=
  aggregateOf <$> existingItem fp statistics.

(** What a list of persisted records holds for a fingerprint. *)
Definition persistedAggregate (fp : string) (logs : list Log)
  : option (Z * Z) :=
  match recordsOf fp logs with
  | [] => None
  | records =>
      Some (wrapU64 (sumCount records), wrapS64 (sumQueryTime records))
  end.

(** What the result of a merge holds for a fingerprint. *)
Definition mergedAggregate (fp : string)
    (statistics : storepb.SlowQueryStatistics) (logs : list Log)
  : option (Z * Z) :=
  aggregateOf <$> head (itemsOf fp (pgMergeSlowQueryLog statistics logs)).

(** Modelled from the spec: the code that persists an item as a record is
    not among the sources.  A record has "average-based fields", from
    which the merge takes [totalQueryTime = averageQueryTime * count]
    (section 5), and a stored average is a lossy aggregate (section 9):
    the quotient of the total by the count, without its remainder. *)
Definition recordOf (item : Item) : Log :=
  {| v1pb.Statistics :=
       {| v1pb.SqlFingerprint := storepb.SqlFingerprint item;
          v1pb.Count := storepb.Count item;
          v1pb.LatestLogTime := storepb.LatestLogTime item;
          v1pb.AverageQueryTime :=
            Some (durationpb.New
                    (Z.quot (durationpb.AsDuration (storepb.TotalQueryTime item))
                       (storepb.Count item)));
          v1pb.MaximumQueryTime := storepb.MaximumQueryTime item;
          v1pb.AverageRowsSent :=
            Z.quot (storepb.TotalRowsSent item) (storepb.Count item) |} |}.

(** A statistics value as persisted records. *)
Definition persistedForm (statistics : storepb.SlowQueryStatistics)
  : list Log :=
  recordOf <$> storepb.Items statistics.

(** Every item of the map sits under its own fingerprint. *)
Definition keyed (status : gmap string Item) : Prop :=
  forall k v, status !! k = Some v -> storepb.SqlFingerprint v = k.

(** One step of the second loop, seen from one fingerprint. *)
Definition stepLog (held : option Item) (log : Log) : option Item :=
  Some match held with
       | None => newItem log
       | Some value => accumulate value log
       end.

(** How the two sides combine, fingerprint by fingerprint. *)
Definition combine (a b : option (Z * Z)) : option (Z * Z) :=
  match a, b with
  | None, _ => b
  | _, None => a
  | Some (c, t), Some (c', t') => Some (wrapU64 (c + c'), wrapS64 (t + t'))
  end.

End aggregate.


(** ** Vocabulary of the statements about the syncer *)

Module run.
Import world slowquerysync.

Definition day : Z := 24 * gotime.Hour.

(** The days from [start] through [today]: [start], [start] plus one
    day, and so on, as long as [today] is not passed. *)
Definition daysThrough (start today : gotime.Time) : list gotime.Time :=
  map (fun k : nat => gotime.AddDate start (Z.of_nat k))
    (seq 0 (Z.to_nat ((today - start) / day + 1))).

(** The upserts of one day of the MySQL routine, one for each database of
    the logs fetched for that day. *)
Definition upsertMessages (instance : InstanceMessage.t) (date : gotime.Time)
    (logs : list (string * storepb.SlowQueryStatistics))
  : list UpsertSlowLogMessage.t :=
  map (fun entry =>
         {| UpsertSlowLogMessage.InstanceID := InstanceMessage.ResourceID instance;
            UpsertSlowLogMessage.DatabaseName := entry.1;
            UpsertSlowLogMessage.LogDate := date;
            UpsertSlowLogMessage.SlowLog := entry.2 |}) logs.

(** The calls of one day of the MySQL routine: the fetch, then the
    upserts. *)
Definition dayEvents (instance : InstanceMessage.t) (date : gotime.Time)
    (logs : list (string * storepb.SlowQueryStatistics)) : list Event :=
  SyncSlowQuery None date :: map UpsertSlowLog (upsertMessages instance date logs).

(** The logs [fetched], day by day, are answers of the driver for the
    days [days]. *)
Definition answered (env : Env) (days : list gotime.Time)
    (fetched : list (list (string * storepb.SlowQueryStatistics))) : Prop :=
  Forall2 (fun date logs => exists w, syncSlowQuery env w None date = inr logs)
    days fetched.

(** The calls of the MySQL routine before its loop. *)
Definition preludeEvents (instance : InstanceMessage.t)
    (earliestDate : gotime.Time) : list Event :=
  [DeleteOutdatedSlowLog (InstanceMessage.ResourceID instance) earliestDate;
   GetLatestSlowLogDate (InstanceMessage.ResourceID instance);
   GetAdminDatabaseDriver (InstanceMessage.ResourceID instance) None;
   CheckSlowQueryLogEnabled None].

(** The table after an upsert that succeeded. *)
Definition applyUpsert (table : SlowLogTable) (upsert : UpsertSlowLogMessage.t)
  : SlowLogTable :=
  <[(UpsertSlowLogMessage.InstanceID upsert,
     UpsertSlowLogMessage.DatabaseName upsert,
     UpsertSlowLogMessage.LogDate upsert)
    := UpsertSlowLogMessage.SlowLog upsert]> table.

(** The table after a retention sweep that succeeded. *)
Definition sweep (instanceID : string) (earliestDate : gotime.Time)
    (table : SlowLogTable) : SlowLogTable :=
  filter (fun kv : string * string * Z * storepb.SlowQueryStatistics =>
            ~ (kv.1.1.1 = instanceID /\ kv.1.2 < earliestDate)) table.

(** The world after a retention sweep that succeeded. *)
Definition swept (instanceID : string) (earliestDate : gotime.Time)
    (w : World) : World :=
  {| slowLog := sweep instanceID earliestDate (slowLog w);
     trace := trace w ++ [DeleteOutdatedSlowLog instanceID earliestDate] |}.

(** The upserts among the calls of a trace. *)
Definition upsertsOf (events : list Event) : list UpsertSlowLogMessage.t :=
  omap (fun ev => match ev with UpsertSlowLog upsert => Some upsert | _ => None end)
    events.

(** The dates of the fetches among the calls of a trace. *)
Definition fetchesOf (events : list Event) : list gotime.Time :=
  omap (fun ev => match ev with SyncSlowQuery _ date => Some date | _ => None end)
    events.

(** The read of the persisted records of a database for the day that
    starts at [latestLogDate]. *)
Definition findOf (database : DatabaseMessage.t)
    (latestLogDate nextLogDate : gotime.Time) : ListSlowQueryMessage.t :=
  {| ListSlowQueryMessage.InstanceID := DatabaseMessage.InstanceID database;
     ListSlowQueryMessage.DatabaseName := DatabaseMessage.DatabaseName database;
     ListSlowQueryMessage.StartLogDate := latestLogDate;
     ListSlowQueryMessage.EndLogDate := nextLogDate |}.

(** The statistics that the PostgreSQL loop upserts for a database whose
    fetched statistics are [statistics], as it depends on the answer of
    the read of the persisted records. *)
Definition upserted (statistics : storepb.SlowQueryStatistics)
    (listed : nat + list v1pb.SlowQueryLog) : storepb.SlowQueryStatistics :=
  match listed with
  | inr (log :: logs) => pgMergeSlowQueryLog statistics (log :: logs)
  | _ => statistics
  end.

(** The upsert of the PostgreSQL loop for a database. *)
Definition upsertOf (instance : InstanceMessage.t) (latestLogDate : gotime.Time)
    (database : DatabaseMessage.t) (slowLog : storepb.SlowQueryStatistics)
  : UpsertSlowLogMessage.t :=
  {| UpsertSlowLogMessage.InstanceID := InstanceMessage.ResourceID instance;
     UpsertSlowLogMessage.DatabaseName := DatabaseMessage.DatabaseName database;
     UpsertSlowLogMessage.LogDate := latestLogDate;
     UpsertSlowLogMessage.SlowLog := slowLog |}.

(** The names of the databases of a list that a snapshot has. *)
Definition presentIn (logMap : list (string * storepb.SlowQueryStatistics))
    (databases : list DatabaseMessage.t) : list string :=
  filter (fun name => is_Some (gomap.get name logMap))
    (DatabaseMessage.DatabaseName <$> databases).

(** All the items of a snapshot, in the order of the range. *)
Definition snapshotItems (logMap : list (string * storepb.SlowQueryStatistics))
  : list Item :=
  flat_map storepb.Items logMap.*2.

Definition timeOf (item : Item) : gotime.Time :=
  timestamppb.AsTime (storepb.LatestLogTime item).

(** The latest timestamp among the items of a snapshot (the zero time
    when the snapshot has no item). *)
Definition latestTimestamp (logMap : list (string * storepb.SlowQueryStatistics))
  : gotime.Time :=
  match snapshotItems logMap with
  | [] => gotime.zeroTime
  | item :: rest => foldl (fun acc other => Z.max acc (timeOf other)) (timeOf item) rest
  end.

End run.
(** ** Sample inputs of the merge *)

Module examples.
Import slowquerysync.

Definition nanos (n : Z) : option durationpb.Duration := Some (durationpb.New n).

Definition item (fp : string) (count total maximum rows : Z) : Item :=
  {| storepb.SqlFingerprint := fp;
     storepb.Count := count;
     storepb.LatestLogTime := None;
     storepb.TotalQueryTime := nanos total;
     storepb.MaximumQueryTime := nanos maximum;
     storepb.TotalRowsSent := rows |}.

Definition record (fp : string) (count average maximum rows : Z) : Log :=
  {| v1pb.Statistics :=
       {| v1pb.SqlFingerprint := fp;
          v1pb.Count := count;
          v1pb.LatestLogTime := None;
          v1pb.AverageQueryTime := nanos average;
          v1pb.MaximumQueryTime := nanos maximum;
          v1pb.AverageRowsSent := rows |} |}.

Definition fetched : storepb.SlowQueryStatistics :=
  {| storepb.Items := [item "select" 2 10 7 4; item "update" 1 5 5 1] |}.

Definition persisted : list Log :=
  [record "select" 3 4 9 2; record "delete" 2 1500000000 3 1].

(** Two inputs, each as a statistics value and as persisted records
    holding the same counts and total query times. *)
Definition first : storepb.SlowQueryStatistics :=
  {| storepb.Items := [item "select" 2 10 7 4] |}.

Definition firstPersisted : list Log := [record "select" 2 5 7 2].

Definition second : storepb.SlowQueryStatistics :=
  {| storepb.Items := [item "select" 3 12 9 6; item "update" 1 7 7 0] |}.

Definition secondPersisted : list Log :=
  [record "select" 3 4 9 2; record "update" 1 7 7 0].

(** Two inputs whose persisted forms differ in what they lose: 11ns over
    2 queries are stored as 5ns on average, 12ns over 3 queries as 4ns. *)
Definition oddTotal : storepb.SlowQueryStatistics :=
  {| storepb.Items := [item "select" 2 11 7 4] |}.

Definition evenTotal : storepb.SlowQueryStatistics :=
  {| storepb.Items := [item "select" 3 12 9 6] |}.

End examples.


(** ** Sample runs of the syncer *)

Module scenario.
Import world slowquerysync run.

(** Midnight UTC of some day, and noon of that day. *)
Definition today : gotime.Time := 739000 * day.
Definition noon : gotime.Time := today + 12 * gotime.Hour.

Definition daysAgo (n : Z) : gotime.Time := gotime.AddDate today (- n).

Definition start : World := {| slowLog := ∅; trace := [] |}.

Definition mysql : InstanceMessage.t :=
  {| InstanceMessage.ResourceID := "mysql-prod";
     InstanceMessage.Engine := storepb.MYSQL;
     InstanceMessage.Deleted := false |}.

Definition postgres : InstanceMessage.t :=
  {| InstanceMessage.ResourceID := "pg-prod";
     InstanceMessage.Engine := storepb.POSTGRES;
     InstanceMessage.Deleted := false |}.

(** A timestamp [hours] hours after midnight, [n] days before today. *)
Definition stamp (n hours : Z) : option timestamppb.Timestamp :=
  Some {| timestamppb.Seconds :=
            (739000 - n) * 86400 + hours * 3600 - gotime.unixToInternal;
          timestamppb.Nanos := 0 |}.

Definition stamped (fp : string) (latest : option timestamppb.Timestamp)
  : storepb.SlowQueryStatisticsItem :=
  {| storepb.SqlFingerprint := fp;
     storepb.Count := 1;
     storepb.LatestLogTime := latest;
     storepb.TotalQueryTime := examples.nanos 5;
     storepb.MaximumQueryTime := examples.nanos 5;
     storepb.TotalRowsSent := 1 |}.

Definition oneItem (latest : option timestamppb.Timestamp)
  : storepb.SlowQueryStatistics :=
  {| storepb.Items := [stamped "select" latest] |}.

(** An environment in which every call succeeds, but the fetch of the
    day [failing], if any.  The store last saw the day five days ago and
    hands it back in UTC, and
    every day has one slow query in database [app]. *)
Definition mysqlEnv (failing : option gotime.Time) : Env :=
  {| Now := fun _ => noon;
     IsSystemDatabase := fun _ => false;
     getSlowQueryPolicy := fun _ _ => inr (Some {| SlowQueryPolicy.Active := true |});
     deleteOutdatedSlowLog := fun _ _ _ => None;
     listDatabases := fun _ _ => inr [];
     getLatestSlowLogDate := fun _ _ => inr (Some (gotime.inUTC (daysAgo 5)));
     getAdminDatabaseDriver := fun _ _ _ => None;
     checkSlowQueryLogEnabled := fun _ _ => None;
     syncSlowQuery := fun _ _ date =>
       if decide (Some date = failing) then inl 7%nat
       else inr [("app", oneItem None)];
     listSlowQuery := fun _ _ => inr [];
     upsertSlowLog := fun _ _ => None |}.


Definition mysqlFailedEnd : World :=
  (syncMySQLSlowQuery (mysqlEnv (Some (daysAgo 2))) mysql start).1.

Definition app : DatabaseMessage.t :=
  {| DatabaseMessage.InstanceID := "pg-prod";
     DatabaseMessage.DatabaseName := "app";
     DatabaseMessage.SyncState := api.OK |}.

Definition billing : DatabaseMessage.t :=
  {| DatabaseMessage.InstanceID := "pg-prod";
     DatabaseMessage.DatabaseName := "billing";
     DatabaseMessage.SyncState := api.OK |}.

(** An environment in which every call succeeds: the store knows the
    databases [databases] and the driver returns [snapshot]. *)
Definition postgresEnv (databases : list DatabaseMessage.t)
    (snapshot : list (string * storepb.SlowQueryStatistics)) : Env :=
  {| Now := fun _ => noon;
     IsSystemDatabase := fun _ => false;
     getSlowQueryPolicy := fun _ _ => inr (Some {| SlowQueryPolicy.Active := true |});
     deleteOutdatedSlowLog := fun _ _ _ => None;
     listDatabases := fun _ _ => inr databases;
     getLatestSlowLogDate := fun _ _ => inr None;
     getAdminDatabaseDriver := fun _ _ _ => None;
     checkSlowQueryLogEnabled := fun _ _ => None;
     syncSlowQuery := fun _ _ _ => inr snapshot;
     listSlowQuery := fun _ _ => inr [];
     upsertSlowLog := fun _ _ => None |}.

(** A snapshot of two databases whose timestamps are on one day. *)
Definition sameDay : list (string * storepb.SlowQueryStatistics) :=
  [("app", oneItem (stamp 0 9)); ("billing", oneItem (stamp 0 11))].

(** A snapshot in which the first item of each database is stamped two
    days ago and one later item is stamped today; the store does not know
    database [reports]. *)
Definition mixedDays : list (string * storepb.SlowQueryStatistics) :=
  [("app", {| storepb.Items := [stamped "select" (stamp 2 10);
                                stamped "update" (stamp 0 10)] |});
   ("reports", oneItem (stamp 2 11))].

(** The world at the end of a PostgreSQL run on the snapshot
    [mixedDays], the store knowing database [app] only, and of the run in
    which the range meets the databases of the snapshot in the other
    order. *)
Definition mixedDaysEnd : World :=
  (syncPostgreSQLSlowQuery (postgresEnv [app] mixedDays) postgres start).1.

Definition mixedDaysReversedEnd : World :=
  (syncPostgreSQLSlowQuery (postgresEnv [app] (reverse mixedDays)) postgres
     start).1.

(** An environment whose slow-query policy is [policy] and in which every
    other call fails. *)
Definition policyEnv (policy : option SlowQueryPolicy.t) : Env :=
  {| Now := fun _ => noon;
     IsSystemDatabase := fun _ => false;
     getSlowQueryPolicy := fun _ _ => inr policy;
     deleteOutdatedSlowLog := fun _ _ _ => Some 1%nat;
     listDatabases := fun _ _ => inl 1%nat;
     getLatestSlowLogDate := fun _ _ => inl 1%nat;
     getAdminDatabaseDriver := fun _ _ _ => Some 1%nat;
     checkSlowQueryLogEnabled := fun _ _ => Some 1%nat;
     syncSlowQuery := fun _ _ _ => inl 1%nat;
     listSlowQuery := fun _ _ => inl 1%nat;
     upsertSlowLog := fun _ _ => Some 1%nat |}.

(** An environment like [postgresEnv] in which every read of the
    persisted records and every upsert fails. *)
Definition failingStoreEnv (databases : list DatabaseMessage.t)
    (snapshot : list (string * storepb.SlowQueryStatistics)) : Env :=
  {| Now := fun _ => noon;
     IsSystemDatabase := fun _ => false;
     getSlowQueryPolicy := fun _ _ => inr (Some {| SlowQueryPolicy.Active := true |});
     deleteOutdatedSlowLog := fun _ _ _ => None;
     listDatabases := fun _ _ => inr databases;
     getLatestSlowLogDate := fun _ _ => inr None;
     getAdminDatabaseDriver := fun _ _ _ => None;
     checkSlowQueryLogEnabled := fun _ _ => None;
     syncSlowQuery := fun _ _ _ => inr snapshot;
     listSlowQuery := fun _ _ => inl 3%nat;
     upsertSlowLog := fun _ _ => Some 4%nat |}.

End scenario.

(** ** Vocabulary and sample tables of the statements about the task DAG store *)

Module dag.
Import taskdag.

Definition edge (fromTaskID toTaskID : Z) : TaskDAGMessage :=
  {| FromTaskID := fromTaskID; ToTaskID := toTaskID |}.

(** The stored edges into a task, in the order of the table. *)
Definition edgesInto (toTaskID : Z) (db : Database) : list TaskDAGMessage :=
  filter (fun row => ToTaskID row = toTaskID) (task_dag db).

(** One edge into [toTaskID] from each of [fromTaskIDs]. *)
Definition edgesFrom (fromTaskIDs : list Z) (toTaskID : Z)
  : list TaskDAGMessage :=
  map (fun fromTaskID => edge fromTaskID toTaskID) fromTaskIDs.

(** A call of [RebuildTaskDAG]: the faults of the run, the predecessors
    and the target. *)
Definition Call : Type := Faults * list Z * Z.

Definition target (call : Call) : Z := call.2.

(** A sequence of calls: the database after them and what each call
    returned. *)
Fixpoint rebuildAll (calls : list Call) (db : Database)
  : Database * list (option error) :=
  match calls with
  | [] => (db, [])
  | (faults, fromTaskIDs, toTaskID) :: rest =>
      let '(db1, err) := RebuildTaskDAG faults fromTaskIDs toTaskID db in
      let '(db2, errs) := rebuildAll rest db1 in
      (db2, err :: errs)
  end.

(** A row of [task] passes the filter. *)
Definition passes (find : TaskDAGFind) (row : TaskRow) : Prop :=
  (forall v, StageID find = Some v -> stage_id row = v)
  /\ (forall v, PipelineID find = Some v -> pipeline_id row = v).

(** A task belongs to the stage or pipeline of the filter. *)
Definition belongs (find : TaskDAGFind) (db : Database) (taskID : Z) : Prop :=
  exists row, row ∈ task db /\ id row = taskID /\ passes find row.

(** Every edge stays within one stage of one pipeline: the task it leads
    to is stored, in the stage and the pipeline of the task it comes
    from. *)
Definition withinStage (db : Database) : Prop :=
  forall dag fromRow,
    dag ∈ task_dag db ->
    fromRow ∈ task db ->
    id fromRow = FromTaskID dag ->
    exists toRow,
      toRow ∈ task db
      /\ id toRow = ToTaskID dag
      /\ stage_id toRow = stage_id fromRow
      /\ pipeline_id toRow = pipeline_id fromRow.

Definition emptyDB : Database := {| task_dag := []; task := [] |}.

(** Two tasks of one pipeline in two stages, and an edge between them. *)
Definition twoStages : Database :=
  {| task_dag := [edge 1 2];
     task := [{| id := 1; pipeline_id := 100; stage_id := 10 |};
              {| id := 2; pipeline_id := 100; stage_id := 20 |}] |}.

(** Three tasks of one stage, the third after the first two. *)
Definition oneStage : Database :=
  {| task_dag := [edge 1 3; edge 2 3];
     task := [{| id := 1; pipeline_id := 100; stage_id := 10 |};
              {| id := 2; pipeline_id := 100; stage_id := 10 |};
              {| id := 3; pipeline_id := 100; stage_id := 10 |}] |}.

Definition stage (v : Z) : TaskDAGFind :=
  {| StageID := Some v; PipelineID := None |}.

End dag.

(** ** Kinds of calls *)

Module events.
Import world.

(** A call of the loop of the MySQL routine: a fetch with the
    instance-wide driver or an upsert. *)
Definition isDayEvent (ev : Event) : Prop :=
  match ev with
  | SyncSlowQuery None _ | UpsertSlowLog _ => True
  | _ => False
  end.

(** A call of the probe of one of the databases [databases]: the opening
    of its driver, the check or the close. *)
Definition isProbeOf (databases : list DatabaseMessage.t) (ev : Event) : Prop :=
  match ev with
  | GetAdminDatabaseDriver _ (Some name)
  | CheckSlowQueryLogEnabled (Some name)
  | Close (Some name) => name ∈ DatabaseMessage.DatabaseName <$> databases
  | _ => False
  end.

(** A call of the second loop of the PostgreSQL routine. *)
Definition isMergeEvent (ev : Event) : Prop :=
  match ev with
  | ListSlowQuery _ | UpsertSlowLog _ => True
  | _ => False
  end.

(** A database that the probe of the PostgreSQL routine looks at. *)
Definition eligible (env : Env) (database : DatabaseMessage.t) : Prop :=
  DatabaseMessage.SyncState database = api.OK
  /\ IsSystemDatabase env (DatabaseMessage.DatabaseName database) = false.

(** The three calls of a probe that passes. *)
Definition passedProbe (instance : InstanceMessage.t)
    (database : DatabaseMessage.t) : list Event :=
  [GetAdminDatabaseDriver (InstanceMessage.ResourceID instance)
     (Some (DatabaseMessage.DatabaseName database));
   CheckSlowQueryLogEnabled (Some (DatabaseMessage.DatabaseName database));
   Close (Some (DatabaseMessage.DatabaseName database))].

End events.

(** ** Further sample inputs *)

Module samples.
Import world slowquerysync.

(** An instance of an engine that the syncer does not know. *)
Definition tidb : InstanceMessage.t :=
  {| InstanceMessage.ResourceID := "tidb-prod";
     InstanceMessage.Engine := storepb.TIDB;
     InstanceMessage.Deleted := false |}.

(** A system database, and a database that the last sync did not find. *)
Definition template : DatabaseMessage.t :=
  {| DatabaseMessage.InstanceID := "pg-prod";
     DatabaseMessage.DatabaseName := "template1";
     DatabaseMessage.SyncState := api.OK |}.

Definition dropped : DatabaseMessage.t :=
  {| DatabaseMessage.InstanceID := "pg-prod";
     DatabaseMessage.DatabaseName := "dropped";
     DatabaseMessage.SyncState := api.NOT_FOUND |}.

(** An environment in which every call succeeds and [template1] is a
    system database; the store knows the databases [databases]. *)
Definition systemEnv (databases : list DatabaseMessage.t) : Env :=
  {| Now := fun _ => scenario.noon;
     IsSystemDatabase := fun name => bool_decide (name = "template1");
     getSlowQueryPolicy := fun _ _ => inr (Some {| SlowQueryPolicy.Active := true |});
     deleteOutdatedSlowLog := fun _ _ _ => None;
     listDatabases := fun _ _ => inr databases;
     getLatestSlowLogDate := fun _ _ => inr None;
     getAdminDatabaseDriver := fun _ _ _ => None;
     checkSlowQueryLogEnabled := fun _ _ => None;
     syncSlowQuery := fun _ _ _ => inr [];
     listSlowQuery := fun _ _ => inr [];
     upsertSlowLog := fun _ _ => None |}.

(** A snapshot of two databases without a slow query. *)
Definition quiet : list (string * storepb.SlowQueryStatistics) :=
  [("app", {| storepb.Items := [] |}); ("billing", {| storepb.Items := [] |})].

(** The zones of a Location whose offset changes once, at the Unix time
    [transition], from [before] to [after] seconds east of UTC. *)
Definition twoZones (transition before after unix : Z) : gotime.Zone :=
  if unix <? transition
  then {| gotime.offset := before;
          gotime.zoneStart := - 2 ^ 63;
          gotime.zoneEnd := transition |}
  else {| gotime.offset := after;
          gotime.zoneStart := transition;
          gotime.zoneEnd := 2 ^ 63 - 1 |}.

(** A Location that changes to summer time as Europe/Berlin does: one
    hour east of UTC until 01:00 UTC of the day two days ago, two hours
    from then on. *)
Definition summerTime : gotime.Location.
Proof.
  refine {| gotime.lookup :=
              twoZones
                (scenario.daysAgo 2 / gotime.Second - gotime.unixToInternal
                 + 3600) 3600 7200 |}.
  abstract (intros unix; unfold gotime.addDays, gotime.unixOfCivil, twoZones;
            repeat (match goal with
                    | |- context [if ?b then _ else _] => destruct b eqn:?
                    end;
                    cbn [gotime.offset gotime.zoneStart gotime.zoneEnd] in * );
            lia).
Defined.

(** An environment like [scenario.mysqlEnv] in which every call succeeds
    and the store hands back the day five days ago in [summerTime]. *)
Definition summerEnv : Env :=
  {| Now := fun _ => scenario.noon;
     IsSystemDatabase := fun _ => false;
     getSlowQueryPolicy := fun _ _ => inr (Some {| SlowQueryPolicy.Active := true |});
     deleteOutdatedSlowLog := fun _ _ _ => None;
     listDatabases := fun _ _ => inr [];
     getLatestSlowLogDate := fun _ _ =>
       inr (Some {| gotime.instant := scenario.daysAgo 5;
                    gotime.location := summerTime |});
     getAdminDatabaseDriver := fun _ _ _ => None;
     checkSlowQueryLogEnabled := fun _ _ => None;
     syncSlowQuery := fun _ _ _ => inr [("app", scenario.oneItem None)];
     listSlowQuery := fun _ _ => inr [];
     upsertSlowLog := fun _ _ => None |}.

End samples.
(** * Facts about the Go integers, durations and times *)

Module GoIntFacts.
Import GoInt.

Lemma wrapU64_range z : isUint64 (wrapU64 z).
Proof.
  unfold isUint64, wrapU64, MaxUint64.
  pose proof (Z.mod_pos_bound z (2 ^ 64) ltac:(lia)). lia.
Qed.

Lemma wrapS64_range z : isInt64 (wrapS64 z).
Proof.
  unfold isInt64, wrapS64, MinInt64, MaxInt64.
  pose proof (Z.mod_pos_bound (z + 2 ^ 63) (2 ^ 64) ltac:(lia)). lia.
Qed.

Lemma wrapU64_id z : isUint64 z -> wrapU64 z = z.
Proof. unfold isUint64, wrapU64, MaxUint64. intros. apply Z.mod_small. lia. Qed.

Lemma wrapS64_id z : isInt64 z -> wrapS64 z = z.
Proof.
  unfold isInt64, wrapS64, MinInt64, MaxInt64. intros.
  rewrite Z.mod_small by lia. lia.
Qed.

Lemma wrapS32_id z : - 2 ^ 31 <= z < 2 ^ 31 -> wrapS32 z = z.
Proof. unfold wrapS32. intros. rewrite Z.mod_small by lia. lia. Qed.

(** Wrapping is compatible with the ring operations: a sum or a product
    may be wrapped at every step or once at the end. *)
Lemma wrapU64_add_l a b : wrapU64 (wrapU64 a + b) = wrapU64 (a + b).
Proof. unfold wrapU64. apply Zplus_mod_idemp_l. Qed.

Lemma wrapU64_add_r a b : wrapU64 (a + wrapU64 b) = wrapU64 (a + b).
Proof. unfold wrapU64. apply Zplus_mod_idemp_r. Qed.

Lemma wrapS64_eqm a b : a mod 2 ^ 64 = b mod 2 ^ 64 -> wrapS64 a = wrapS64 b.
Proof.
  unfold wrapS64. intros H.
  rewrite (Zplus_mod a), (Zplus_mod b), H. reflexivity.
Qed.

Lemma wrapS64_mod a : wrapS64 a mod 2 ^ 64 = a mod 2 ^ 64.
Proof.
  unfold wrapS64.
  rewrite Zminus_mod, Z.mod_mod by lia.
  rewrite <- Zminus_mod. f_equal. lia.
Qed.

Lemma wrapS64_add_l a b : wrapS64 (wrapS64 a + b) = wrapS64 (a + b).
Proof.
  apply wrapS64_eqm.
  rewrite Zplus_mod, wrapS64_mod, <- Zplus_mod. reflexivity.
Qed.

Lemma wrapS64_add_r a b : wrapS64 (a + wrapS64 b) = wrapS64 (a + b).
Proof. rewrite Z.add_comm, wrapS64_add_l. f_equal. lia. Qed.

Lemma wrapS64_mul_r a b : wrapS64 (a * wrapS64 b) = wrapS64 (a * b).
Proof.
  apply wrapS64_eqm.
  rewrite Zmult_mod, wrapS64_mod, <- Zmult_mod. reflexivity.
Qed.

End GoIntFacts.

Module DurationFacts.
Import GoInt GoIntFacts durationpb.

Lemma AsDuration_range x : isInt64 (AsDuration x).
Proof.
  unfold AsDuration.
  repeat match goal with
         | |- context [if ?b then _ else _] => destruct b
         end;
    try apply wrapS64_range; unfold isInt64, MinInt64, MaxInt64; lia.
Qed.

(** A duration survives the round trip through the message. *)
Lemma AsDuration_New d : isInt64 d -> AsDuration (Some (New d)) = d.
Proof.
  unfold isInt64, MinInt64, MaxInt64. intros Hd.
  unfold AsDuration, New. cbn [from_option Seconds Nanos].
  set (q := Z.quot d 1000000000).
  pose proof (Z.quot_rem' d 1000000000) as Hqr. fold q in Hqr.
  assert (Hr : Z.abs (Z.rem d 1000000000) < 1000000000).
  { pose proof (Z.rem_bound_abs d 1000000000 ltac:(lia)). lia. }
  assert (Hsgn : 0 <= d -> 0 <= Z.rem d 1000000000)
    by (intros; apply Z.rem_nonneg; lia).
  assert (Hsgn' : d <= 0 -> Z.rem d 1000000000 <= 0)
    by (intros; apply Z.rem_nonpos; lia).
  assert (Hq : isInt64 (q * 1000000000))
    by (unfold isInt64, MinInt64, MaxInt64; lia).
  rewrite (wrapS64_id (q * 1000000000)) by exact Hq.
  replace (d - q * 1000000000) with (Z.rem d 1000000000) by lia.
  rewrite (wrapS64_id (Z.rem d 1000000000))
    by (unfold isInt64, MinInt64, MaxInt64; lia).
  rewrite wrapS32_id by lia.
  rewrite Z.quot_mul by lia. rewrite Z.eqb_refl. cbn [negb orb].
  replace (q * 1000000000 + Z.rem d 1000000000) with d by lia.
  rewrite (wrapS64_id d) by (unfold isInt64, MinInt64, MaxInt64; lia).
  assert (Hq0 : q < 0 -> d < 0).
  { intros. destruct (Z_lt_le_dec d 0); [assumption|].
    pose proof (Z.quot_pos d 1000000000 ltac:(lia) ltac:(lia)). lia. }
  assert (Hq1 : 0 < q -> 0 < d).
  { intros. destruct (Z_lt_le_dec 0 d); [assumption|].
    pose proof (Z.quot_opp_l d 1000000000 ltac:(lia)).
    pose proof (Z.quot_pos (- d) 1000000000 ltac:(lia) ltac:(lia)). lia. }
  destruct (Z.ltb_spec q 0), (Z.ltb_spec (Z.rem d 1000000000) 0),
    (Z.ltb_spec 0 d), (Z.ltb_spec 0 q), (Z.ltb_spec 0 (Z.rem d 1000000000)),
    (Z.ltb_spec d 0); cbn; try reflexivity; lia.
Qed.

Example New_negative :
  New (-1500000000) = {| Seconds := -1; Nanos := -500000000 |}.
Proof. reflexivity. Qed.

Example AsDuration_saturates :
  AsDuration (Some {| Seconds := 2 ^ 62; Nanos := 0 |}) = MaxInt64.
Proof. reflexivity. Qed.

Example AsDuration_nil : AsDuration None = 0.
Proof. reflexivity. Qed.

Lemma AsDuration_New_wrap z : AsDuration (Some (New (wrapS64 z))) = wrapS64 z.
Proof. apply AsDuration_New, wrapS64_range. Qed.

End DurationFacts.

Module TimeFacts.
Import gotime.

Lemma day_nanoseconds : 24 * Hour = 86400000000000.
Proof. reflexivity. Qed.

Lemma Truncate_day t : Truncate t (24 * Hour) = t - t mod (24 * Hour).
Proof. reflexivity. Qed.

Lemma Truncate_day_le t : Truncate t (24 * Hour) <= t.
Proof.
  rewrite Truncate_day, day_nanoseconds.
  pose proof (Z.mod_pos_bound t 86400000000000 ltac:(lia)). lia.
Qed.

Lemma Truncate_day_aligned t : Truncate t (24 * Hour) mod (24 * Hour) = 0.
Proof.
  rewrite Truncate_day, day_nanoseconds.
  rewrite Zminus_mod, Z.mod_mod, Z.sub_diag by lia. reflexivity.
Qed.


Lemma second_nanoseconds : Second = 1000000000.
Proof. reflexivity. Qed.

Lemma fixedOffset_UTC : fixedOffset UTC.
Proof. exists 0. reflexivity. Qed.

(** In a zone of a fixed offset a calendar day is 86400 seconds. *)
Lemma addDays_fixed loc unix days :
  fixedOffset loc -> addDays (lookup loc) unix days = unix + days * 86400.
Proof.
  intros [seconds Hfixed]. unfold addDays, unixOfCivil. rewrite !Hfixed.
  destruct (Z.eqb_spec seconds 0); [lia|]. destruct (_ || _); lia.
Qed.

Lemma AddDateIn_fixed loc t days :
  fixedOffset loc -> AddDateIn loc t days = AddDate t days.
Proof.
  intros Hfixed. unfold AddDateIn, AddDate. rewrite (addDays_fixed loc _ _ Hfixed).
  rewrite day_nanoseconds, second_nanoseconds.
  pose proof (Z.div_mod t 1000000000 ltac:(lia)). lia.
Qed.

(** In every Location the next calendar day is at least a second later. *)
Lemma AddDateIn_later loc t : t + Second <= AddDateIn loc t 1.
Proof.
  unfold AddDateIn. pose proof (next_day_later loc (t / Second - unixToInternal)).
  rewrite second_nanoseconds in *.
  pose proof (Z.div_mod t 1000000000 ltac:(lia)). nia.
Qed.

End TimeFacts.
(** * The merge of fetched statistics with persisted records *)

Module MergeTheory.
Import GoInt GoIntFacts DurationFacts slowquerysync aggregate.

Lemma keyed_empty : keyed ∅.
Proof. intros k v H. rewrite lookup_empty in H. discriminate. Qed.

Lemma keyed_seedItem status item : keyed status -> keyed (seedItem status item).
Proof.
  intros Hk k v. unfold seedItem. rewrite lookup_insert.
  case_decide; [intros [= <-]; congruence | apply Hk].
Qed.

Lemma keyed_mergeLog status log : keyed status -> keyed (mergeLog status log).
Proof.
  intros Hk k v. unfold mergeLog.
  destruct (status !! fingerprintOf log) as [value|] eqn:E;
    rewrite lookup_insert; case_decide; try apply Hk; intros [= <-]; subst.
  - cbn. apply (Hk _ _ E).
  - reflexivity.
Qed.

Lemma keyed_foldl {A} (f : gmap string Item -> A -> gmap string Item) l :
  (forall s a, keyed s -> keyed (f s a)) ->
  forall s, keyed s -> keyed (foldl f s l).
Proof. intros Hf. induction l; cbn; auto. Qed.

Lemma keyed_mergeStatus statistics logs : keyed (mergeStatus statistics logs).
Proof.
  unfold mergeStatus.
  apply keyed_foldl; [apply keyed_mergeLog|].
  apply keyed_foldl; [apply keyed_seedItem | apply keyed_empty].
Qed.

Lemma mergeLog_lookup status log fp :
  mergeLog status log !! fp =
  if decide (fingerprintOf log = fp) then stepLog (status !! fp) log
  else status !! fp.
Proof.
  unfold mergeLog, stepLog.
  destruct (decide (fingerprintOf log = fp)) as [->|Hne].
  - destruct (status !! fp); apply lookup_insert_eq.
  - destruct (status !! fingerprintOf log); by rewrite lookup_insert_ne.
Qed.

Lemma foldl_mergeLog_lookup logs : forall status fp,
  foldl mergeLog status logs !! fp
  = foldl stepLog (status !! fp) (recordsOf fp logs).
Proof.
  induction logs as [|log logs IH]; intros status fp; [reflexivity|].
  cbn [foldl]. rewrite IH, mergeLog_lookup. unfold recordsOf.
  rewrite filter_cons. case_decide; reflexivity.
Qed.

Lemma foldl_seedItem_lookup items : forall status fp,
  foldl seedItem status items !! fp
  = match last (filter (fun item => storepb.SqlFingerprint item = fp) items) with
    | Some item => Some item
    | None => status !! fp
    end.
Proof.
  induction items as [|item items IH]; intros status fp; [reflexivity|].
  cbn [foldl]. rewrite IH. rewrite filter_cons. unfold seedItem.
  case_decide as Hfp.
  - rewrite last_cons. subst fp. rewrite lookup_insert_eq.
    destruct (last _); reflexivity.
  - rewrite lookup_insert_ne by assumption. reflexivity.
Qed.

Lemma mergeStatus_lookup statistics logs fp :
  mergeStatus statistics logs !! fp
  = foldl stepLog (existingItem fp statistics) (recordsOf fp logs).
Proof.
  unfold mergeStatus. rewrite foldl_mergeLog_lookup, foldl_seedItem_lookup.
  rewrite lookup_empty. unfold existingItem, itemsOf.
  destruct (last _); reflexivity.
Qed.

(** The values of a map keyed by fingerprint, filtered by a fingerprint. *)
Lemma filter_values_keyed (l : list (string * Item)) fp :
  NoDup l.*1 ->
  (forall k v, (k, v) ∈ l -> storepb.SqlFingerprint v = k) ->
  filter (fun item => storepb.SqlFingerprint item = fp) l.*2
  = match list_to_map (M := gmap string Item) l !! fp with Some v => [v] | None => [] end.
Proof.
  induction l as [|[k v] l IH]; intros Hnd Hk; [reflexivity|].
  cbn in Hnd. apply NoDup_cons in Hnd as [Hnotin Hnd].
  cbn [fmap list_fmap snd]. rewrite filter_cons. cbn [list_to_map foldr curry].
  assert (Hv : storepb.SqlFingerprint v = k) by (apply Hk; left).
  specialize (IH Hnd (fun k' v' H => Hk k' v' (list_elem_of_further _ _ _ H))).
  change (list_fmap _ _ snd l) with (l.*2). cbn [snd].
  rewrite IH. case_decide as Hfp.
  - rewrite Hv in Hfp. subst fp. rewrite lookup_insert_eq.
    rewrite (not_elem_of_list_to_map_1 _ _ Hnotin). reflexivity.
  - rewrite Hv in Hfp. rewrite lookup_insert_ne by assumption. reflexivity.
Qed.

Lemma itemsOf_pgMerge statistics logs fp :
  itemsOf fp (pgMergeSlowQueryLog statistics logs)
  = match mergeStatus statistics logs !! fp with Some v => [v] | None => [] end.
Proof.
  unfold itemsOf, pgMergeSlowQueryLog. cbn [storepb.Items].
  rewrite filter_values_keyed.
  - rewrite list_to_map_to_list. reflexivity.
  - apply NoDup_fst_map_to_list.
  - intros k v H. apply elem_of_map_to_list in H.
    exact (keyed_mergeStatus statistics logs k v H).
Qed.

Lemma foldl_stepLog_Some logs : forall value,
  foldl stepLog (Some value) logs = Some (foldl accumulate value logs).
Proof. induction logs as [|log logs IH]; intros value; [reflexivity|]. cbn. apply IH. Qed.

Lemma foldl_stepLog_None first rest :
  foldl stepLog None (first :: rest) = Some (foldl accumulate (newItem first) rest).
Proof. cbn [foldl]. unfold stepLog at 2. apply foldl_stepLog_Some. Qed.

Lemma wellFormed_accumulate value log : wellFormedItem (accumulate value log).
Proof. split; cbn; apply wrapU64_range. Qed.

Lemma wellFormed_newItem log : wellFormedLog log -> wellFormedItem (newItem log).
Proof. intros [Hc _]. split; cbn; [exact Hc | apply wrapU64_range]. Qed.

Lemma AsDuration_total_accumulate value log :
  durationpb.AsDuration (storepb.TotalQueryTime (accumulate value log))
  = wrapS64 (durationpb.AsDuration (storepb.TotalQueryTime value)
             + durationpb.AsDuration (v1pb.AverageQueryTime (v1pb.Statistics log))
               * v1pb.Count (v1pb.Statistics log)).
Proof.
  cbn [accumulate storepb.TotalQueryTime]. rewrite AsDuration_New_wrap.
  unfold logTotalQueryTime. rewrite wrapS64_mul_r, wrapS64_add_r. reflexivity.
Qed.

Lemma AsDuration_max_accumulate value log :
  durationpb.AsDuration (storepb.MaximumQueryTime (accumulate value log))
  = Z.max (durationpb.AsDuration (storepb.MaximumQueryTime value))
          (durationpb.AsDuration (v1pb.MaximumQueryTime (v1pb.Statistics log))).
Proof.
  cbn [accumulate storepb.MaximumQueryTime].
  destruct (Z.ltb_spec (durationpb.AsDuration (storepb.MaximumQueryTime value))
              (durationpb.AsDuration (v1pb.MaximumQueryTime (v1pb.Statistics log))));
    lia.
Qed.

Lemma sumCount_cons log logs :
  sumCount (log :: logs) = v1pb.Count (v1pb.Statistics log) + sumCount logs.
Proof. reflexivity. Qed.

Lemma sumQueryTime_cons log logs :
  sumQueryTime (log :: logs)
  = durationpb.AsDuration (v1pb.AverageQueryTime (v1pb.Statistics log))
    * v1pb.Count (v1pb.Statistics log) + sumQueryTime logs.
Proof. reflexivity. Qed.

Lemma sumRowsSent_cons log logs :
  sumRowsSent (log :: logs)
  = v1pb.AverageRowsSent (v1pb.Statistics log)
    * v1pb.Count (v1pb.Statistics log) + sumRowsSent logs.
Proof. reflexivity. Qed.

Lemma maxQueryTime_cons start log logs :
  maxQueryTime start (log :: logs)
  = maxQueryTime
      (Z.max start
         (durationpb.AsDuration (v1pb.MaximumQueryTime (v1pb.Statistics log))))
      logs.
Proof. reflexivity. Qed.

Lemma rows_accumulate value log rest :
  wrapU64 (storepb.TotalRowsSent (accumulate value log) + rest)
  = wrapU64 (storepb.TotalRowsSent value
             + (v1pb.AverageRowsSent (v1pb.Statistics log)
                * v1pb.Count (v1pb.Statistics log) + rest)).
Proof.
  cbn [accumulate storepb.TotalRowsSent]. unfold logTotalRowsSent.
  rewrite wrapU64_add_l.
  rewrite <- Z.add_assoc, (Z.add_comm (wrapU64 _)), Z.add_assoc.
  rewrite wrapU64_add_r. f_equal. lia.
Qed.

(** The fields of an item after the records of its fingerprint have been
    accumulated into it. *)
Lemma foldl_accumulate_fields logs : forall value,
  wellFormedItem value ->
  let item := foldl accumulate value logs in
  storepb.SqlFingerprint item = storepb.SqlFingerprint value
  /\ storepb.Count item = wrapU64 (storepb.Count value + sumCount logs)
  /\ durationpb.AsDuration (storepb.TotalQueryTime item)
     = wrapS64 (durationpb.AsDuration (storepb.TotalQueryTime value)
                + sumQueryTime logs)
  /\ durationpb.AsDuration (storepb.MaximumQueryTime item)
     = maxQueryTime (durationpb.AsDuration (storepb.MaximumQueryTime value)) logs
  /\ storepb.TotalRowsSent item
     = wrapU64 (storepb.TotalRowsSent value + sumRowsSent logs)
  /\ storepb.LatestLogTime item = storepb.LatestLogTime value.
Proof.
  induction logs as [|log logs IH]; intros value [Hc Hr]; cbn zeta.
  - cbn. rewrite !Z.add_0_r, !wrapU64_id by assumption.
    rewrite wrapS64_id by apply AsDuration_range. repeat split.
  - cbn [foldl].
    destruct (IH (accumulate value log) (wellFormed_accumulate value log))
      as (Hfp & Hcount & Htotal & Hmax & Hrows & Hlatest).
    rewrite Hfp, Hcount, Htotal, Hmax, Hrows, Hlatest.
    rewrite AsDuration_total_accumulate, AsDuration_max_accumulate.
    rewrite rows_accumulate, wrapS64_add_l.
    rewrite sumCount_cons, sumQueryTime_cons, sumRowsSent_cons,
      maxQueryTime_cons.
    cbn [accumulate storepb.SqlFingerprint storepb.Count storepb.LatestLogTime].
    rewrite wrapU64_add_l.
    repeat split; f_equal; lia.
Qed.

(** The same for a fingerprint that only the records carry. *)
Lemma foldl_accumulate_newItem first rest :
  Forall wellFormedLog (first :: rest) ->
  let item := foldl accumulate (newItem first) rest in
  storepb.SqlFingerprint item = fingerprintOf first
  /\ storepb.Count item = wrapU64 (sumCount (first :: rest))
  /\ durationpb.AsDuration (storepb.TotalQueryTime item)
     = wrapS64 (sumQueryTime (first :: rest))
  /\ durationpb.AsDuration (storepb.MaximumQueryTime item)
     = maxQueryTime
         (durationpb.AsDuration (v1pb.MaximumQueryTime (v1pb.Statistics first)))
         (first :: rest)
  /\ storepb.TotalRowsSent item = wrapU64 (sumRowsSent (first :: rest))
  /\ storepb.LatestLogTime item = v1pb.LatestLogTime (v1pb.Statistics first).
Proof.
  intros Hwf. apply Forall_cons in Hwf as [Hfirst _]. cbn zeta.
  destruct (foldl_accumulate_fields rest (newItem first)
              (wellFormed_newItem first Hfirst))
    as (Hfp & Hcount & Htotal & Hmax & Hrows & Hlatest).
  rewrite Hfp, Hcount, Htotal, Hmax, Hrows, Hlatest.
  rewrite sumCount_cons, sumQueryTime_cons, sumRowsSent_cons, maxQueryTime_cons.
  rewrite Z.max_id.
  cbn [newItem storepb.SqlFingerprint storepb.Count storepb.LatestLogTime
         storepb.TotalQueryTime storepb.MaximumQueryTime storepb.TotalRowsSent].
  unfold logTotalQueryTime, logTotalRowsSent.
  rewrite AsDuration_New_wrap, wrapS64_mul_r, wrapS64_add_l, wrapU64_add_l.
  repeat split.
Qed.

Lemma existingItem_elem fp statistics value :
  existingItem fp statistics = Some value ->
  value ∈ storepb.Items statistics.
Proof.
  unfold existingItem, itemsOf. intros H.
  apply last_Some_elem_of in H. apply list_elem_of_filter in H. tauto.
Qed.

Lemma recordsOf_wellFormed fp logs :
  Forall wellFormedLog logs -> Forall wellFormedLog (recordsOf fp logs).
Proof.
  intros H. apply Forall_forall. intros log Hin.
  apply list_elem_of_filter in Hin as [_ Hin].
  exact (proj1 (Forall_forall _ _) H log Hin).
Qed.

(** C1.  For every existing statistics value and every list of persisted
    records whose integer fields are within their Go types, and for every
    fingerprint, the result of [pgMergeSlowQueryLog] has at most one item
    of that fingerprint, and:
    - if no existing item carries the fingerprint, the result has an item
      of it exactly when some persisted record carries it; the item's
      count, total query time and total rows sent are the sums of
      [count], [averageQueryTime * count] and [averageRowsSent * count]
      over these records, so that for a single record the item is the
      new item with [totalQueryTime = averageQueryTime * count] and
      [totalRowsSent = averageRowsSent * count] taken from the record;
    - if an existing item carries it, the result has one item whose count
      and total query time are the sums of the two sides' contributions,
      whose maximum query time is the maximum of the two sides, and whose
      total rows sent is accumulated by addition.
    The sums and products are Go's: [wrapU64] and [wrapS64] reduce them
    to the 64 bits of [uint64] and of [time.Duration], and are the
    identity on a value that fits. *)
Theorem pgMerge_per_fingerprint statistics logs fp :
  Forall wellFormedItem (storepb.Items statistics) ->
  Forall wellFormedLog logs ->
  let merged := itemsOf fp (pgMergeSlowQueryLog statistics logs) in
  let records := recordsOf fp logs in
  match existingItem fp statistics with
  | None =>
      match records with
      | [] => merged = []
      | first :: _ =>
          exists item,
            merged = [item]
            /\ storepb.Count item = wrapU64 (sumCount records)
            /\ durationpb.AsDuration (storepb.TotalQueryTime item)
               = wrapS64 (sumQueryTime records)
            /\ durationpb.AsDuration (storepb.MaximumQueryTime item)
               = maxQueryTime
                   (durationpb.AsDuration
                      (v1pb.MaximumQueryTime (v1pb.Statistics first)))
                   records
            /\ storepb.TotalRowsSent item = wrapU64 (sumRowsSent records)
            /\ storepb.LatestLogTime item
               = v1pb.LatestLogTime (v1pb.Statistics first)
            /\ (records = [first] ->
                storepb.Count item = v1pb.Count (v1pb.Statistics first)
                /\ storepb.TotalQueryTime item
                   = Some (durationpb.New
                             (wrapS64
                                (durationpb.AsDuration
                                   (v1pb.AverageQueryTime (v1pb.Statistics first))
                                 * v1pb.Count (v1pb.Statistics first))))
                /\ storepb.MaximumQueryTime item
                   = v1pb.MaximumQueryTime (v1pb.Statistics first)
                /\ storepb.TotalRowsSent item
                   = wrapU64 (v1pb.AverageRowsSent (v1pb.Statistics first)
                              * v1pb.Count (v1pb.Statistics first)))
      end
  | Some value =>
      exists item,
        merged = [item]
        /\ storepb.Count item = wrapU64 (storepb.Count value + sumCount records)
        /\ durationpb.AsDuration (storepb.TotalQueryTime item)
           = wrapS64 (durationpb.AsDuration (storepb.TotalQueryTime value)
                      + sumQueryTime records)
        /\ durationpb.AsDuration (storepb.MaximumQueryTime item)
           = maxQueryTime
               (durationpb.AsDuration (storepb.MaximumQueryTime value)) records
        /\ storepb.TotalRowsSent item
           = wrapU64 (storepb.TotalRowsSent value + sumRowsSent records)
        /\ storepb.LatestLogTime item = storepb.LatestLogTime value
  end.
Proof.
  intros Hitems Hlogs merged records. subst merged records.
  rewrite itemsOf_pgMerge, mergeStatus_lookup.
  pose proof (recordsOf_wellFormed fp logs Hlogs) as Hrec.
  destruct (existingItem fp statistics) as [value|] eqn:Hex.
  - rewrite foldl_stepLog_Some. eexists. split; [reflexivity|].
    assert (Hwf : wellFormedItem value).
    { eapply Forall_forall; [exact Hitems|].
      exact (existingItem_elem _ _ _ Hex). }
    destruct (foldl_accumulate_fields (recordsOf fp logs) value Hwf)
      as (_ & Hcount & Htotal & Hmax & Hrows & Hlatest).
    repeat split; assumption.
  - destruct (recordsOf fp logs) as [|first rest] eqn:Hrecs; [reflexivity|].
    rewrite foldl_stepLog_None. eexists. split; [reflexivity|].
    destruct (foldl_accumulate_newItem first rest Hrec)
      as (_ & Hcount & Htotal & Hmax & Hrows & Hlatest).
    split; [assumption|]. split; [assumption|]. split; [assumption|].
    split; [assumption|]. split; [assumption|].
    intros [= ->].
    cbn [foldl newItem storepb.Count storepb.TotalQueryTime
           storepb.MaximumQueryTime storepb.TotalRowsSent].
    unfold logTotalQueryTime, logTotalRowsSent. rewrite wrapS64_mul_r.
    repeat split.
Qed.

Lemma combine_comm a b : combine a b = combine b a.
Proof.
  destruct a as [[c t]|], b as [[c' t']|]; cbn; try reflexivity.
  do 2 f_equal; f_equal; lia.
Qed.

Lemma mergedAggregate_combine statistics logs fp :
  Forall wellFormedItem (storepb.Items statistics) ->
  Forall wellFormedLog logs ->
  mergedAggregate fp statistics logs
  = combine (heldAggregate fp statistics) (persistedAggregate fp logs).
Proof.
  intros Hitems Hlogs.
  unfold mergedAggregate, heldAggregate, persistedAggregate.
  rewrite itemsOf_pgMerge, mergeStatus_lookup.
  pose proof (recordsOf_wellFormed fp logs Hlogs) as Hrec.
  destruct (existingItem fp statistics) as [value|] eqn:Hex.
  - rewrite foldl_stepLog_Some. cbn [head fmap option_fmap option_map].
    destruct (recordsOf fp logs) as [|first rest] eqn:Hrecs.
    + cbn [foldl combine]. destruct (aggregateOf value). reflexivity.
    + assert (Hwf : wellFormedItem value).
      { eapply Forall_forall; [exact Hitems|].
        exact (existingItem_elem _ _ _ Hex). }
      destruct (foldl_accumulate_fields (first :: rest) value Hwf)
        as (_ & Hcount & Htotal & _).
      unfold aggregateOf, combine. rewrite Hcount, Htotal.
      rewrite wrapU64_add_r, wrapS64_add_r. reflexivity.
  - destruct (recordsOf fp logs) as [|first rest] eqn:Hrecs; [reflexivity|].
    rewrite foldl_stepLog_None. cbn [head fmap option_fmap option_map combine].
    destruct (foldl_accumulate_newItem first rest Hrec)
      as (_ & Hcount & Htotal & _).
    unfold aggregateOf. rewrite Hcount, Htotal. reflexivity.
Qed.

Lemma combine_counts a b a' b' :
  fst <$> a = fst <$> a' -> fst <$> b = fst <$> b' ->
  fst <$> combine a b' = fst <$> combine b a'.
Proof.
  destruct a as [[c t]|], a' as [[c1 t1]|], b as [[d u]|], b' as [[d1 u1]|];
    cbn; intros Hleft Hright; simplify_eq; try reflexivity.
  do 2 f_equal. lia.
Qed.

(** C9, amended.  Take two inputs, each given once as a statistics value
    ([a], [b]) and once as a list of persisted records ([a'], [b']) that
    holds the same count for every fingerprint.  Merging the first into
    the second and the second into the first gives, for every
    fingerprint, the same count; and it gives the same total query time
    for a fingerprint for which the records of each input hold the total
    of that input, that is, when no average has lost a remainder. *)
Theorem pgMerge_commutative_aggregate
    (a b : storepb.SlowQueryStatistics) (a' b' : list Log) :
  Forall wellFormedItem (storepb.Items a) ->
  Forall wellFormedItem (storepb.Items b) ->
  Forall wellFormedLog a' ->
  Forall wellFormedLog b' ->
  (forall fp, fst <$> heldAggregate fp a = fst <$> persistedAggregate fp a') ->
  (forall fp, fst <$> heldAggregate fp b = fst <$> persistedAggregate fp b') ->
  forall fp,
    fst <$> mergedAggregate fp a b' = fst <$> mergedAggregate fp b a'
    /\ (heldAggregate fp a = persistedAggregate fp a' ->
        heldAggregate fp b = persistedAggregate fp b' ->
        mergedAggregate fp a b' = mergedAggregate fp b a').
Proof.
  intros Ha Hb Ha' Hb' Hcount_a Hcount_b fp.
  rewrite !mergedAggregate_combine by assumption. split.
  - apply combine_counts; [apply Hcount_a | apply Hcount_b].
  - intros Hsame_a Hsame_b. rewrite Hsame_a, <- Hsame_b. apply combine_comm.
Qed.

(** The order of the persisted records does not matter either. *)
Lemma sums_Permutation (logs logs' : list Log) :
  logs ≡ₚ logs' ->
  sumCount logs = sumCount logs' /\ sumQueryTime logs = sumQueryTime logs'.
Proof.
  induction 1 as [|log l l' _ [IHc IHt]|log1 log2 l|l1 l2 l3 _ [IHc1 IHt1] _ [IHc2 IHt2]].
  - split; reflexivity.
  - rewrite !sumCount_cons, !sumQueryTime_cons, IHc, IHt. split; reflexivity.
  - rewrite !sumCount_cons, !sumQueryTime_cons. split; lia.
  - split; congruence.
Qed.

Lemma persistedAggregate_Permutation fp (logs logs' : list Log) :
  logs ≡ₚ logs' -> persistedAggregate fp logs = persistedAggregate fp logs'.
Proof.
  intros Hperm. unfold persistedAggregate.
  assert (Hrec : recordsOf fp logs ≡ₚ recordsOf fp logs')
    by (unfold recordsOf; rewrite Hperm; reflexivity).
  destruct (sums_Permutation _ _ Hrec) as [Hc Ht].
  destruct (recordsOf fp logs) as [|first rest] eqn:E1,
           (recordsOf fp logs') as [|first' rest'] eqn:E2.
  - reflexivity.
  - apply Permutation_nil_l in Hrec. discriminate.
  - apply Permutation_nil_r in Hrec. discriminate.
  - rewrite Hc, Ht. reflexivity.
Qed.

Lemma pgMerge_order_of_records statistics (logs logs' : list Log) fp :
  Forall wellFormedItem (storepb.Items statistics) ->
  Forall wellFormedLog logs ->
  logs ≡ₚ logs' ->
  mergedAggregate fp statistics logs = mergedAggregate fp statistics logs'.
Proof.
  intros Hitems Hlogs Hperm.
  assert (Hlogs' : Forall wellFormedLog logs') by (rewrite <- Hperm; exact Hlogs).
  rewrite !mergedAggregate_combine by assumption.
  rewrite (persistedAggregate_Permutation fp logs logs' Hperm). reflexivity.
Qed.

Ltac wellFormed :=
  repeat constructor; vm_compute; intros; discriminate.

(** The fetched statistics hold 2 queries of fingerprint [select] for 10ns
    in all; the persisted record holds 3 of 4ns on average. *)
Lemma pgMerge_per_fingerprint_witness :
  Forall wellFormedItem (storepb.Items examples.fetched)
  /\ Forall wellFormedLog examples.persisted
  /\ exists item,
       itemsOf "select" (pgMergeSlowQueryLog examples.fetched examples.persisted)
       = [item]
       /\ storepb.Count item = 5
       /\ durationpb.AsDuration (storepb.TotalQueryTime item) = 22
       /\ durationpb.AsDuration (storepb.MaximumQueryTime item) = 9
       /\ storepb.TotalRowsSent item = 10
       /\ storepb.LatestLogTime item = None.
Proof.
  assert (H1 : Forall wellFormedItem (storepb.Items examples.fetched))
    by wellFormed.
  assert (H2 : Forall wellFormedLog examples.persisted) by wellFormed.
  split; [exact H1|]. split; [exact H2|].
  exact (pgMerge_per_fingerprint examples.fetched examples.persisted "select"
           H1 H2).
Defined.

Ltac sameAggregate :=
  intros fp;
  unfold heldAggregate, persistedAggregate, existingItem, itemsOf, recordsOf,
    persistedForm, examples.first, examples.second, examples.firstPersisted,
    examples.secondPersisted, examples.oddTotal, examples.evenTotal;
  cbn [storepb.Items fmap list_fmap];
  rewrite ?filter_cons, ?filter_nil;
  cbn [fingerprintOf v1pb.SqlFingerprint v1pb.Statistics storepb.SqlFingerprint
         examples.item examples.record recordOf];
  repeat case_decide; subst; try discriminate; try reflexivity.

(** C9 as stated fails.  The first input holds 2 queries of fingerprint
    [select] for 11ns in all, the second 3 queries for 12ns; as persisted
    records they are 2 queries of 5ns on average and 3 queries of 4ns.
    Merging the records of the second into the first gives 5 queries and
    23ns, merging the records of the first into the second gives 5
    queries and 22ns. *)
Lemma pgMerge_either_order_counterexample :
  mergedAggregate "select" examples.oddTotal
    (persistedForm examples.evenTotal) = Some (5, 23)
  /\ mergedAggregate "select" examples.evenTotal
       (persistedForm examples.oddTotal) = Some (5, 22)
  /\ ~ (forall fp,
          mergedAggregate fp examples.oddTotal (persistedForm examples.evenTotal)
          = mergedAggregate fp examples.evenTotal
              (persistedForm examples.oddTotal)).
Proof.
  split; [vm_compute; reflexivity|]. split; [vm_compute; reflexivity|].
  intros Hsame. specialize (Hsame "select"). vm_compute in Hsame. discriminate.
Qed.

(** Two inputs in both forms whose averages are exact: 5 queries of
    fingerprint [select] for 22ns in all, whichever is merged into the
    other.  Two inputs whose averages have lost a remainder: 5 queries,
    whichever is merged into the other. *)
Lemma pgMerge_commutative_aggregate_witness :
  (mergedAggregate "select" examples.first examples.secondPersisted
   = Some (5, 22)
   /\ mergedAggregate "select" examples.second examples.firstPersisted
      = Some (5, 22))
  /\ fst <$> mergedAggregate "select" examples.oddTotal
               (persistedForm examples.evenTotal)
     = fst <$> mergedAggregate "select" examples.evenTotal
                 (persistedForm examples.oddTotal).
Proof.
  split.
  - assert (Ha : Forall wellFormedItem (storepb.Items examples.first))
      by wellFormed.
    assert (Hb : Forall wellFormedItem (storepb.Items examples.second))
      by wellFormed.
    assert (Ha' : Forall wellFormedLog examples.firstPersisted) by wellFormed.
    assert (Hb' : Forall wellFormedLog examples.secondPersisted) by wellFormed.
    assert (Hsa : forall fp, heldAggregate fp examples.first
                             = persistedAggregate fp examples.firstPersisted)
      by sameAggregate.
    assert (Hsb : forall fp, heldAggregate fp examples.second
                             = persistedAggregate fp examples.secondPersisted)
      by sameAggregate.
    destruct (pgMerge_commutative_aggregate examples.first examples.second
                examples.firstPersisted examples.secondPersisted Ha Hb Ha' Hb'
                (fun fp => f_equal (fmap fst) (Hsa fp))
                (fun fp => f_equal (fmap fst) (Hsb fp)) "select") as [_ Hsame].
    rewrite <- (Hsame (Hsa "select") (Hsb "select")).
    split; vm_compute; reflexivity.
  - apply (pgMerge_commutative_aggregate examples.oddTotal examples.evenTotal
             (persistedForm examples.oddTotal)
             (persistedForm examples.evenTotal));
      [wellFormed | wellFormed | wellFormed | wellFormed
      | sameAggregate | sameAggregate].
Defined.

End MergeTheory.
(** * The runs of the syncer *)

Module SyncTheory.
Import world slowquerysync run TimeFacts.
Local Open Scope syncer_scope.

Lemma record_trace ev w : trace (record ev w) = trace w ++ [ev].
Proof. reflexivity. Qed.

Lemma AddDate_0 t : gotime.AddDate t 0 = t.
Proof. unfold gotime.AddDate. lia. Qed.

Lemma AddDate_AddDate t a b :
  gotime.AddDate (gotime.AddDate t a) b = gotime.AddDate t (a + b).
Proof. unfold gotime.AddDate. lia. Qed.

Lemma AddDate_lt t a b : a < b -> gotime.AddDate t a < gotime.AddDate t b.
Proof. unfold gotime.AddDate. rewrite day_nanoseconds. lia. Qed.

Lemma day_pos : 0 < day.
Proof. reflexivity. Qed.


Lemma daysThrough_cons start today :
  start <= today ->
  daysThrough start today = start :: daysThrough (gotime.AddDate start 1) today.
Proof.
  intros H. unfold daysThrough.
  assert (Hq : (today - gotime.AddDate start 1) / day = (today - start) / day - 1).
  { unfold gotime.AddDate. fold day.
    replace (today - (start + 1 * day)) with (today - start + (-1) * day) by lia.
    rewrite Z.div_add by (pose proof day_pos; lia). lia. }
  rewrite Hq.
  assert (0 <= (today - start) / day) by (apply Z.div_pos; [lia | apply day_pos]).
  replace (Z.to_nat ((today - start) / day + 1))
    with (S (Z.to_nat ((today - start) / day - 1 + 1))) by lia.
  cbn [seq map]. rewrite AddDate_0. f_equal.
  rewrite <- seq_shift, map_map. apply map_ext. intros k.
  rewrite AddDate_AddDate. f_equal. lia.
Qed.

Lemma elem_of_daysThrough start today d :
  d ∈ daysThrough start today
  <-> exists k : nat, d = gotime.AddDate start (Z.of_nat k) /\ d <= today.
Proof.
  unfold daysThrough. rewrite list_elem_of_fmap. split.
  - intros (k & -> & Hk). exists k. split; [reflexivity|].
    apply elem_of_seq in Hk. unfold gotime.AddDate. fold day.
    pose proof day_pos.
    assert (Z.of_nat k <= (today - start) / day) by lia.
    assert (Z.of_nat k * day <= today - start).
    { etransitivity; [apply Z.mul_le_mono_nonneg_r with (m := (today - start) / day); lia|].
      rewrite Z.mul_comm. apply Z.mul_div_le. lia. }
    lia.
  - intros (k & -> & Hle). exists k. split; [reflexivity|].
    apply elem_of_seq. unfold gotime.AddDate in Hle. fold day in Hle.
    pose proof day_pos.
    assert (Z.of_nat k <= (today - start) / day)
      by (apply Z.div_le_lower_bound; lia).
    lia.
Qed.

Lemma daysThrough_before start (k : nat) :
  daysThrough start (gotime.AddDate (gotime.AddDate start (Z.of_nat k)) (-1))
  = map (fun i : nat => gotime.AddDate start (Z.of_nat i)) (seq 0 k).
Proof.
  unfold daysThrough. do 2 f_equal.
  unfold gotime.AddDate. fold day. pose proof day_pos.
  replace (start + Z.of_nat k * day + -1 * day - start)
    with ((Z.of_nat k - 1) * day) by lia.
  rewrite Z.div_mul by lia. lia.
Qed.

Section Runs.
Variable env : Env.
Variable instance : InstanceMessage.t.
Variable loc : gotime.Location.

Lemma upsert_run upsert w :
  store.UpsertSlowLog env upsert w
  = match upsertSlowLog env w upsert with
    | Some code => (record (UpsertSlowLog upsert) w, inl (External code))
    | None =>
        ({| slowLog := applyUpsert (slowLog w) upsert;
            trace := trace w ++ [UpsertSlowLog upsert] |}, inr tt)
    end.
Proof. reflexivity. Qed.

Lemma fetch_run database date w :
  driver.SyncSlowQuery env database date w
  = (record (SyncSlowQuery database date) w,
     match syncSlowQuery env w database date with
     | inl code => inl (External code)
     | inr logs => inr logs
     end).
Proof. reflexivity. Qed.

(** A day whose upserts all succeed. *)
Lemma upsertDay_ok date logs : forall w w',
  upsertDay env instance date logs w = (w', inr tt) ->
  trace w' = trace w ++ map UpsertSlowLog (upsertMessages instance date logs)
  /\ slowLog w' = foldl applyUpsert (slowLog w) (upsertMessages instance date logs).
Proof.
  induction logs as [|[dbName stats] logs IH]; intros w w' Hrun.
  - injection Hrun as <-. cbn. rewrite app_nil_r. tauto.
  - cbn [upsertDay] in Hrun. unfold bind in Hrun. rewrite upsert_run in Hrun.
    destruct (upsertSlowLog env w _); [discriminate|].
    apply IH in Hrun as [Htrace Htable]. cbn [trace slowLog] in *.
    rewrite Htrace, Htable. cbn [upsertMessages map foldl fst snd].
    rewrite <- app_assoc. split; reflexivity.
Qed.

Lemma upsertDay_succeeds date logs :
  (forall w upsert,
      UpsertSlowLogMessage.LogDate upsert = date ->
      upsertSlowLog env w upsert = None) ->
  forall w, exists w', upsertDay env instance date logs w = (w', inr tt).
Proof.
  intros Hok. induction logs as [|[dbName stats] logs IH]; intros w.
  - eexists. reflexivity.
  - cbn [upsertDay]. unfold bind. rewrite upsert_run, Hok by reflexivity.
    apply IH.
Qed.


Lemma syncDays_step fuel date today w :
  syncDays env (S fuel) instance loc date today w
  = if gotime.After date today then (w, inr tt)
    else
      match syncSlowQuery env w None date with
      | inl code => (record (SyncSlowQuery None date) w, inl (External code))
      | inr logs =>
          match upsertDay env instance date logs
                  (record (SyncSlowQuery None date) w) with
          | (w', inl e) => (w', inl e)
          | (w', inr _) =>
              syncDays env fuel instance loc (gotime.AddDateIn loc date 1)
                today w'
          end
      end.
Proof.
  cbn [syncDays]. destruct (gotime.After date today); [reflexivity|].
  unfold bind at 1. rewrite fetch_run.
  destruct (syncSlowQuery env w None date); [reflexivity|].
  unfold bind. reflexivity.
Qed.



(** A loop whose fetch fails on day [d], every call for an earlier day
    succeeding. *)
Lemma syncDays_fetch_fails (d : gotime.Time) (code : nat) today :
  gotime.fixedOffset loc ->
  (forall w, syncSlowQuery env w None d = inl code) ->
  (forall w d', d' < d -> exists logs, syncSlowQuery env w None d' = inr logs) ->
  (forall w upsert,
      UpsertSlowLogMessage.LogDate upsert < d ->
      upsertSlowLog env w upsert = None) ->
  d <= today ->
  forall (k : nat) fuel date w,
    d = gotime.AddDate date (Z.of_nat k) ->
    (k < fuel)%nat ->
    exists w' fetched,
      syncDays env fuel instance loc date today w = (w', inl (External code))
      /\ length fetched = k
      /\ answered env
           (map (fun i : nat => gotime.AddDate date (Z.of_nat i)) (seq 0 k))
           fetched
      /\ trace w'
         = trace w
           ++ concat (zip_with (dayEvents instance)
                        (map (fun i : nat => gotime.AddDate date (Z.of_nat i))
                           (seq 0 k)) fetched)
           ++ [SyncSlowQuery None d]
      /\ slowLog w'
         = foldl applyUpsert (slowLog w)
             (concat (zip_with (upsertMessages instance)
                        (map (fun i : nat => gotime.AddDate date (Z.of_nat i))
                           (seq 0 k)) fetched)).
Proof.
  intros Hfixed Hfail Hfetch Hupsert Htoday.
  induction k as [|k IH]; intros fuel date w Hd Hfuel;
    (destruct fuel as [|fuel]; [lia|]); rewrite syncDays_step;
    rewrite ?(AddDateIn_fixed loc date 1 Hfixed);
    unfold gotime.After.
  - cbn in Hd. rewrite AddDate_0 in Hd. subst date.
    destruct (Z.ltb_spec today d); [lia|]. rewrite Hfail.
    exists (record (SyncSlowQuery None d) w), []. cbn. repeat split. constructor.
  - assert (Hlt : date < d).
    { subst d. rewrite <- (AddDate_0 date) at 1. apply AddDate_lt. lia. }
    destruct (Z.ltb_spec today date); [lia|].
    destruct (Hfetch w date Hlt) as [logs Hlogs]. rewrite Hlogs.
    destruct (upsertDay_succeeds date logs) with (w := record (SyncSlowQuery None date) w)
      as [w2 Hday].
    { intros w0 upsert <-. apply Hupsert. assumption. }
    rewrite Hday. apply upsertDay_ok in Hday as [Htr2 Htab2].
    destruct (IH fuel (gotime.AddDate date 1) w2)
      as (w' & fetched & Hrun & Hlen & Hans & Htr & Htab).
    { rewrite AddDate_AddDate. subst d. f_equal. lia. }
    { lia. }
    exists w', (logs :: fetched). split; [exact Hrun|]. split; [cbn; lia|].
    assert (Hdays : map (fun i : nat => gotime.AddDate date (Z.of_nat i)) (seq 0 (S k))
                    = date :: map (fun i : nat => gotime.AddDate (gotime.AddDate date 1) (Z.of_nat i)) (seq 0 k)).
    { cbn [seq map]. rewrite AddDate_0. f_equal.
      rewrite <- seq_shift, map_map. apply map_ext. intros i.
      rewrite AddDate_AddDate. f_equal. lia. }
    rewrite Hdays. cbn [zip_with concat].
    split; [constructor; [exists w; exact Hlogs | exact Hans]|].
    rewrite Htr, Htr2, Htab, Htab2, record_trace. cbn [slowLog].
    unfold dayEvents at 2. rewrite foldl_app.
    split; [|reflexivity].
    rewrite <- !app_assoc. reflexivity.
Qed.

End Runs.


Lemma fetchesOf_app a b : fetchesOf (a ++ b) = fetchesOf a ++ fetchesOf b.
Proof. apply omap_app. Qed.

Lemma fetchesOf_upserts upserts : fetchesOf (map UpsertSlowLog upserts) = [].
Proof. induction upserts; [reflexivity | assumption]. Qed.


Lemma resumeDate_max latest today :
  (forall lastKnown,
      latest = Some lastKnown ->
      gotime.fixedOffset (gotime.location lastKnown)) ->
  gotime.instant (resumeDate latest today (gotime.AddDate today (- retentionCycle)))
  = match latest with
    | None => gotime.AddDate today (-30)
    | Some lastKnown =>
        Z.max (gotime.instant lastKnown) (gotime.AddDate today (-30))
    end
  /\ gotime.fixedOffset
       (gotime.location
          (resumeDate latest today (gotime.AddDate today (- retentionCycle)))).
Proof.
  intros Hfixed. destruct latest as [l|];
    [|split; [reflexivity | apply fixedOffset_UTC]].
  specialize (Hfixed l eq_refl). unfold resumeDate, gotime.Before.
  rewrite (AddDateIn_fixed _ _ _ Hfixed).
  unfold gotime.AddDate, retentionCycle. rewrite day_nanoseconds.
  destruct (Z.ltb_spec (gotime.instant l + 30 * 86400000000000) today);
    cbn [gotime.instant gotime.location gotime.inUTC];
    (split; [lia | first [apply fixedOffset_UTC | exact Hfixed]]).
Qed.

Section MySQL.
Variable env : Env.
Variable instance : InstanceMessage.t.

Let id := InstanceMessage.ResourceID instance.

Lemma syncMySQL_run w0 :
  let today := gotime.Truncate (Now env w0) (24 * gotime.Hour) in
  let earliest := gotime.AddDate today (- retentionCycle) in
  syncMySQLSlowQuery env instance w0
  = match deleteOutdatedSlowLog env w0 id earliest with
    | Some code =>
        (record (DeleteOutdatedSlowLog id earliest) w0, inl (External code))
    | None =>
        let w1 := swept id earliest w0 in
        match getLatestSlowLogDate env w1 id with
        | inl code => (record (GetLatestSlowLogDate id) w1, inl (External code))
        | inr latest =>
            let w2 := record (GetLatestSlowLogDate id) w1 in
            match getAdminDatabaseDriver env w2 id None with
            | Some code =>
                (record (GetAdminDatabaseDriver id None) w2, inl (External code))
            | None =>
                let w3 := record (GetAdminDatabaseDriver id None) w2 in
                match checkSlowQueryLogEnabled env w3 None with
                | Some code =>
                    (record (Close None) (record (CheckSlowQueryLogEnabled None) w3),
                     inl (External code))
                | None =>
                    let w4 := record (CheckSlowQueryLogEnabled None) w3 in
                    let resume := resumeDate latest today earliest in
                    let date :=
                      gotime.Truncate (gotime.instant resume)
                        (24 * gotime.Hour) in
                    let '(w5, r) :=
                      syncDays env (daysFuel date today) instance
                        (gotime.location resume) date today w4 in
                    (record (Close None) w5, r)
                end
            end
        end
    end.
Proof.
  cbn zeta. unfold syncMySQLSlowQuery.
  unfold bind at 1. unfold store.DeleteOutdatedSlowLog, command. fold id.
  destruct (deleteOutdatedSlowLog env w0 id _); [reflexivity|].
  fold (sweep id (gotime.AddDate (gotime.Truncate (Now env w0) (24 * gotime.Hour))
                    (- retentionCycle)) (slowLog w0)).
  fold (swept id (gotime.AddDate (gotime.Truncate (Now env w0) (24 * gotime.Hour))
                    (- retentionCycle)) w0).
  unfold bind at 1. unfold store.GetLatestSlowLogDate, query. fold id.
  destruct (getLatestSlowLogDate env _ id) as [code|latest]; [reflexivity|].
  unfold bind at 1. unfold driver.GetAdminDatabaseDriver, query.
  cbn [fmap option_fmap option_map]. fold id.
  destruct (getAdminDatabaseDriver env _ id None); [reflexivity|].
  unfold deferClose, bind. unfold driver.CheckSlowQueryLogEnabled, query.
  destruct (checkSlowQueryLogEnabled env _ None); reflexivity.
Qed.


End MySQL.

Section MySQLFailure.
Variable env : Env.
Variable instance : InstanceMessage.t.

Let id := InstanceMessage.ResourceID instance.

(** C3.  In the MySQL routine, let the store hand back the last known
    log date in UTC or in another zone of a fixed offset, let the calls
    before the loop succeed and let [d] be a day of the iterated range
    whose fetch fails, the fetches and the upserts of the days before [d]
    succeeding.  Then the routine
    returns the error of the fetch; its calls are those before the loop,
    then the fetch and the upserts of each day before [d] in ascending
    order, then the fetch of [d] and the close of the driver, so that no
    later day is fetched or upserted; and the table is the swept table
    with all the upserts of the days before [d] applied: they stay
    committed. *)
Theorem mysql_sync_fetch_failure w0 latest (d : gotime.Time) (code : nat) :
  let today := gotime.Truncate (Now env w0) (24 * gotime.Hour) in
  let earliest := gotime.AddDate today (-30) in
  let start :=
    gotime.Truncate (gotime.instant (resumeDate latest today earliest))
      (24 * gotime.Hour) in
  (forall lastKnown,
      latest = Some lastKnown ->
      gotime.fixedOffset (gotime.location lastKnown)) ->
  (forall w, deleteOutdatedSlowLog env w id earliest = None) ->
  (forall w, getLatestSlowLogDate env w id = inr latest) ->
  (forall w, getAdminDatabaseDriver env w id None = None) ->
  (forall w, checkSlowQueryLogEnabled env w None = None) ->
  d ∈ daysThrough start today ->
  (forall w, syncSlowQuery env w None d = inl code) ->
  (forall w d', d' < d -> exists logs, syncSlowQuery env w None d' = inr logs) ->
  (forall w upsert,
      UpsertSlowLogMessage.LogDate upsert < d ->
      upsertSlowLog env w upsert = None) ->
  exists w1 fetched,
    syncMySQLSlowQuery env instance w0 = (w1, inl (External code))
    /\ let before := daysThrough start (gotime.AddDate d (-1)) in
       length fetched = length before
       /\ answered env before fetched
       /\ trace w1
          = trace w0 ++ preludeEvents instance earliest
            ++ concat (zip_with (dayEvents instance) before fetched)
            ++ [SyncSlowQuery None d; Close None]
       /\ slowLog w1
          = foldl applyUpsert (sweep id earliest (slowLog w0))
              (concat (zip_with (upsertMessages instance) before fetched)).
Proof.
  intros today earliest start Hzone Hdelete Hlatest Hdriver Hcheck Hin Hfail
    Hfetch Hupsert.
  apply elem_of_daysThrough in Hin as (k & Hd & Htoday).
  destruct (resumeDate_max latest today Hzone) as [_ Hloc].
  change (- retentionCycle) with (-30) in Hloc. fold earliest in Hloc.
  rewrite syncMySQL_run. cbn zeta. change (- retentionCycle) with (-30).
  fold today. fold earliest. fold id.
  rewrite Hdelete, Hlatest, Hdriver, Hcheck. fold start.
  destruct (syncDays_fetch_fails env instance _ d code today Hloc Hfail Hfetch
              Hupsert Htoday k (daysFuel start today) start
              (record (CheckSlowQueryLogEnabled None)
                 (record (GetAdminDatabaseDriver id None)
                    (record (GetLatestSlowLogDate id) (swept id earliest w0)))) Hd)
    as (w' & fetched & Hrun & Hlen & Hans & Htr & Htab).
  { unfold daysFuel. pose proof day_pos.
    rewrite Hd in Htoday. unfold gotime.AddDate in Htoday. fold day in Htoday.
    assert (Z.of_nat k <= (today - start) / day)
      by (apply Z.div_le_lower_bound; lia).
    assert ((today - start) / day <= (today - start) / gotime.Second)
      by (apply Z.div_le_compat_l; [nia | split; [reflexivity | discriminate]]).
    lia. }
  rewrite Hrun. exists (record (Close None) w'), fetched.
  split; [reflexivity|]. cbn zeta.
  rewrite Hd, daysThrough_before.
  split; [rewrite length_map, length_seq; exact Hlen|].
  split; [exact Hans|]. split.
  - rewrite record_trace, Htr. cbn [trace record swept].
    unfold preludeEvents. fold id. rewrite <- Hd, <- !app_assoc. reflexivity.
  - cbn [slowLog record]. rewrite Htab. reflexivity.
Qed.


End MySQLFailure.


(** The store last saw the day five days ago, which it hands back in
    UTC, and the fetch of the day two days ago fails: the days five, four
    and three days ago are upserted, the failing day is fetched,
    yesterday and today are not. *)
Lemma mysql_sync_fetch_failure_witness :
  scenario.daysAgo 2
    ∈ daysThrough (scenario.daysAgo 5) scenario.today
  /\ (forall w,
        syncSlowQuery (scenario.mysqlEnv (Some (scenario.daysAgo 2))) w None
          (scenario.daysAgo 2) = inl 7%nat)
  /\ syncMySQLSlowQuery (scenario.mysqlEnv (Some (scenario.daysAgo 2)))
       scenario.mysql scenario.start
     = (scenario.mysqlFailedEnd, inl (External 7))
  /\ fetchesOf (trace scenario.mysqlFailedEnd)
     = [scenario.daysAgo 5; scenario.daysAgo 4; scenario.daysAgo 3;
        scenario.daysAgo 2]
  /\ UpsertSlowLogMessage.LogDate <$> upsertsOf (trace scenario.mysqlFailedEnd)
     = [scenario.daysAgo 5; scenario.daysAgo 4; scenario.daysAgo 3]
  /\ exists fetched,
       length fetched = 3%nat
       /\ slowLog scenario.mysqlFailedEnd
          = foldl applyUpsert ∅
              (concat (zip_with (upsertMessages scenario.mysql)
                         [scenario.daysAgo 5; scenario.daysAgo 4;
                          scenario.daysAgo 3]
                         fetched)).
Proof.
  assert (Hin : scenario.daysAgo 2
                  ∈ daysThrough (scenario.daysAgo 5) scenario.today).
  { apply elem_of_daysThrough. exists 3%nat.
    split; [reflexivity | vm_compute; discriminate]. }
  assert (Hfail : forall w,
             syncSlowQuery (scenario.mysqlEnv (Some (scenario.daysAgo 2))) w None
               (scenario.daysAgo 2) = inl 7%nat).
  { intros w. cbn. rewrite decide_True by reflexivity. reflexivity. }
  split; [exact Hin|]. split; [exact Hfail|].
  destruct (mysql_sync_fetch_failure
              (scenario.mysqlEnv (Some (scenario.daysAgo 2))) scenario.mysql
              scenario.start (Some (gotime.inUTC (scenario.daysAgo 5)))
              (scenario.daysAgo 2) 7)
    as (w1 & fetched & Hrun & Hlen & _ & _ & Htable).
  - intros lastKnown [= <-]. apply fixedOffset_UTC.
  - reflexivity.
  - reflexivity.
  - reflexivity.
  - reflexivity.
  - exact Hin.
  - exact Hfail.
  - intros w d' Hlt. eexists. cbn. rewrite decide_False; [reflexivity|].
    intros [= ->]. lia.
  - reflexivity.
  - assert (Hend : w1 = scenario.mysqlFailedEnd).
    { unfold scenario.mysqlFailedEnd. rewrite Hrun. reflexivity. }
    subst w1.
    split; [exact Hrun|].
    split; [vm_compute; reflexivity|]. split; [vm_compute; reflexivity|].
    exists fetched. split; [exact Hlen | exact Htable].
Defined.

Lemma get_update_ne {V} k k' (v : V) m :
  k <> k' -> gomap.get k' (gomap.update k v m) = gomap.get k' m.
Proof.
  intros Hne. induction m as [|[k0 v0] m IH]; [reflexivity|].
  cbn [gomap.update]. destruct (decide (k0 = k)) as [->|Hk0].
  - cbn [gomap.get]. rewrite !decide_False by assumption. reflexivity.
  - cbn [gomap.get]. destruct (decide (k0 = k')); [reflexivity | exact IH].
Qed.

Lemma get_update_is_Some {V} k k' (v : V) m :
  is_Some (gomap.get k' (gomap.update k v m)) <-> is_Some (gomap.get k' m).
Proof.
  induction m as [|[k0 v0] m IH]; [reflexivity|].
  cbn [gomap.update]. destruct (decide (k0 = k)) as [->|Hk0].
  - cbn [gomap.get]. destruct (decide (k = k')); [|reflexivity].
    split; intros _; eauto.
  - cbn [gomap.get]. destruct (decide (k0 = k')); [reflexivity | exact IH].
Qed.

Lemma getLatestLogTime_first logMap :
  getLatestLogTime logMap
  = match head (snapshotItems logMap) with
    | Some item => timeOf item
    | None => gotime.zeroTime
    end.
Proof.
  induction logMap as [|[name log] logMap IH]; [reflexivity|].
  cbn [getLatestLogTime]. unfold snapshotItems.
  cbn [fmap list_fmap snd flat_map].
  destruct (storepb.Items log) as [|item items]; [exact IH | reflexivity].
Qed.

Lemma upsertsOf_app a b : upsertsOf (a ++ b) = upsertsOf a ++ upsertsOf b.
Proof. apply omap_app. Qed.

Section Loop.
Variable env : Env.
Variable instance : InstanceMessage.t.
Variables latestLogDate nextLogDate : gotime.Time.

Lemma upsertDatabases_step database rest logMap w :
  upsertDatabases env instance latestLogDate nextLogDate (database :: rest)
    logMap w
  = match gomap.get (DatabaseMessage.DatabaseName database) logMap with
    | None =>
        upsertDatabases env instance latestLogDate nextLogDate rest logMap w
    | Some statistics =>
        let find := findOf database latestLogDate nextLogDate in
        let listed := listSlowQuery env w find in
        let w1 := record (ListSlowQuery find) w in
        let upsert := upsertOf instance latestLogDate database (upserted statistics listed) in
        let w2 :=
          match upsertSlowLog env w1 upsert with
          | Some _ => record (UpsertSlowLog upsert) w1
          | None =>
              {| slowLog := applyUpsert (slowLog w1) upsert;
                 trace := trace w1 ++ [UpsertSlowLog upsert] |}
          end in
        upsertDatabases env instance latestLogDate nextLogDate rest
          match listed with
          | inr (log :: logs) =>
              gomap.update (DatabaseMessage.DatabaseName database)
                (pgMergeSlowQueryLog_arg statistics (log :: logs)) logMap
          | _ => logMap
          end w2
    end.
Proof.
  cbn [upsertDatabases].
  destruct (gomap.get _ logMap) as [statistics|]; [|reflexivity].
  cbn zeta. unfold bind at 1. unfold attempt at 1.
  unfold store.ListSlowQuery, query. fold (findOf database latestLogDate nextLogDate).
  destruct (listSlowQuery env w _) as [code|[|log logs]];
    cbn [length Nat.eqb negb upserted];
    unfold bind, attempt, store.UpsertSlowLog, command, upsertOf;
    match goal with
    | |- context [upsertSlowLog env ?w ?u] => destruct (upsertSlowLog env w u)
    end; reflexivity.
Qed.

(** The loop never returns an error, and every database of the list
    that the snapshot has gets its upsert, in the order of the list. *)
Lemma upsertDatabases_run databases : forall logMap w,
  exists w' added,
    upsertDatabases env instance latestLogDate nextLogDate databases logMap w
    = (w', inr tt)
    /\ trace w' = trace w ++ added
    /\ UpsertSlowLogMessage.DatabaseName <$> upsertsOf added
       = filter (fun name => is_Some (gomap.get name logMap))
           (DatabaseMessage.DatabaseName <$> databases)
    /\ Forall (fun upsert =>
                 UpsertSlowLogMessage.InstanceID upsert
                 = InstanceMessage.ResourceID instance
                 /\ UpsertSlowLogMessage.LogDate upsert = latestLogDate)
         (upsertsOf added)
    /\ (NoDup (DatabaseMessage.DatabaseName <$> databases) ->
        forall database statistics code,
          database ∈ databases ->
          gomap.get (DatabaseMessage.DatabaseName database) logMap
          = Some statistics ->
          (forall w0, listSlowQuery env w0
                        (findOf database latestLogDate nextLogDate) = inl code) ->
          upsertOf instance latestLogDate database statistics ∈ upsertsOf added).
Proof.
  induction databases as [|database rest IH]; intros logMap w.
  - exists w, []. cbn. rewrite app_nil_r. repeat split; try constructor.
    intros _ database statistics code Hin. inversion Hin.
  - rewrite upsertDatabases_step. cbn [fmap list_fmap]. rewrite filter_cons.
    destruct (gomap.get (DatabaseMessage.DatabaseName database) logMap)
      as [statistics|] eqn:Hget.
    + cbn zeta.
      set (find := findOf database latestLogDate nextLogDate).
      set (listed := listSlowQuery env w find).
      set (upsert := upsertOf instance latestLogDate database (upserted statistics listed)).
      set (logMap' := match listed with
                      | inr (log :: logs) => gomap.update _ _ logMap
                      | _ => logMap
                      end).
      set (w2 := match upsertSlowLog env _ upsert with Some _ => _ | None => _ end).
      assert (Htr2 : trace w2 = trace w ++ [ListSlowQuery find; UpsertSlowLog upsert]).
      { subst w2. destruct (upsertSlowLog env _ upsert); cbn [trace record];
          rewrite <- app_assoc; reflexivity. }
      destruct (IH logMap' w2) as (w' & added & Hrun & Htr & Hnames & Hall & Hfail).
      exists w', ([ListSlowQuery find; UpsertSlowLog upsert] ++ added).
      split; [exact Hrun|]. split; [rewrite Htr, Htr2, <- app_assoc; reflexivity|].
      assert (Hsame : forall name,
                 is_Some (gomap.get name logMap') <-> is_Some (gomap.get name logMap)).
      { intros name. subst logMap'.
        destruct listed as [|[|log logs]]; try reflexivity.
        apply get_update_is_Some. }
      split; [|split].
      * rewrite decide_True by eauto. rewrite upsertsOf_app.
        change (upsertsOf [ListSlowQuery find; UpsertSlowLog upsert])
          with [upsert].
        rewrite fmap_app, Hnames. cbn [fmap list_fmap app]. f_equal.
        apply list_filter_iff. intros name. apply Hsame.
      * rewrite upsertsOf_app. apply Forall_app. split; [|exact Hall].
        repeat constructor.
      * intros Hnd database' statistics' code Hin Hget' Hread.
        apply NoDup_cons in Hnd as [Hnotin Hnd].
        rewrite upsertsOf_app. apply elem_of_app.
        apply elem_of_cons in Hin as [->|Hin].
        -- left.
           change (upsertsOf [ListSlowQuery find; UpsertSlowLog upsert])
             with [upsert].
           apply list_elem_of_singleton.
           subst upsert listed find. rewrite Hread.
           assert (statistics' = statistics) by congruence. subst. reflexivity.
        -- right. apply (Hfail Hnd database' statistics' code Hin); [|exact Hread].
           subst logMap'. destruct listed as [|[|log logs]]; try exact Hget'.
           rewrite get_update_ne; [exact Hget'|].
           intros Heq. apply Hnotin. rewrite Heq.
           apply list_elem_of_fmap. eauto.
    + destruct (IH logMap w) as (w' & added & Hrun & Htr & Hnames & Hall & Hfail).
      exists w', added. split; [exact Hrun|]. split; [exact Htr|].
      split; [|split; [exact Hall|]].
      * rewrite decide_False; [exact Hnames|]. intros [? ?]. congruence.
      * intros Hnd database' statistics' code Hin Hget' Hread.
        apply NoDup_cons in Hnd as [Hnotin Hnd].
        apply elem_of_cons in Hin as [->|Hin]; [congruence|].
        exact (Hfail Hnd database' statistics' code Hin Hget' Hread).
Qed.

End Loop.

Lemma foldl_max_elem (a : Z) (l : list Z) : foldl Z.max a l ∈ a :: l.
Proof.
  revert a. induction l as [|b l IH]; intros a; [left|].
  cbn [foldl]. specialize (IH (Z.max a b)).
  apply elem_of_cons in IH as [->|IH].
  - destruct (Z.max_spec a b) as [[_ ->]|[_ ->]]; [right; left | left].
  - do 2 right. exact IH.
Qed.

Lemma latestTimestamp_elem logMap :
  snapshotItems logMap <> [] ->
  exists item, item ∈ snapshotItems logMap /\ latestTimestamp logMap = timeOf item.
Proof.
  unfold latestTimestamp. destruct (snapshotItems logMap) as [|item rest];
    [congruence|]. intros _.
  rewrite <- (foldl_fmap Z.max (timeOf item) rest timeOf).
  pose proof (foldl_max_elem (timeOf item) (timeOf <$> rest)) as Hin.
  apply elem_of_cons in Hin as [Heq|Hin].
  - exists item. split; [left | exact Heq].
  - apply list_elem_of_fmap in Hin as (other & Heq & Hin).
    exists other. split; [right; exact Hin | exact Heq].
Qed.

Section PostgreSQL.
Variable env : Env.
Variable instance : InstanceMessage.t.

(** C10.  Whatever the reads of the persisted records and the upserts
    answer, the per-database loop of the PostgreSQL routine returns no
    error, and neither does what follows the fetch of the snapshot; the
    loop attempts one upsert for every database of the list that the
    snapshot has, in the order of the list; and for a database (of a list
    without a repeated name) whose read fails, the upsert carries the
    statistics as they were fetched. *)
Theorem pg_loop_contains_failures latestLogDate nextLogDate databases logMap w :
  exists w' added,
    upsertDatabases env instance latestLogDate nextLogDate databases logMap w
    = (w', inr tt)
    /\ trace w' = trace w ++ added
    /\ UpsertSlowLogMessage.DatabaseName <$> upsertsOf added
       = presentIn logMap databases
    /\ (NoDup (DatabaseMessage.DatabaseName <$> databases) ->
        forall database statistics code,
          database ∈ databases ->
          gomap.get (DatabaseMessage.DatabaseName database) logMap
          = Some statistics ->
          (forall w0, listSlowQuery env w0
                        (findOf database latestLogDate nextLogDate) = inl code) ->
          upsertOf instance latestLogDate database statistics ∈ upsertsOf added)
    /\ (syncSnapshot env instance databases logMap w).2 = inr tt.
Proof.
  destruct (upsertDatabases_run env instance latestLogDate nextLogDate databases
              logMap w) as (w' & added & Hrun & Htr & Hnames & _ & Hfail).
  exists w', added. repeat split; try assumption.
  unfold syncSnapshot. destruct (gotime.IsZero _); [reflexivity|].
  destruct (upsertDatabases_run env instance
              (gotime.Truncate (getLatestLogTime logMap) (24 * gotime.Hour))
              (gotime.AddDate
                 (gotime.Truncate (getLatestLogTime logMap) (24 * gotime.Hour)) 1)
              databases logMap w) as (w2 & added2 & -> & _).
  reflexivity.
Qed.

(** C7, amended.  In the PostgreSQL routine the log time taken from a
    snapshot is the timestamp of the first item met when ranging over the
    snapshot, and the zero time when the snapshot has no item.  When the
    timestamps of all the items are on one UTC day, its truncation to the
    day is that day, and so is the truncation of the latest timestamp.
    When the snapshot has no item, what follows the fetch makes no call
    and returns no error.  When the log time is not the zero time, what
    follows the fetch returns no error and attempts one upsert, keyed on
    the truncated log time, for every database of the instance's list
    that the snapshot has. *)
Theorem pg_snapshot_day databases logMap w :
  getLatestLogTime logMap
  = match head (snapshotItems logMap) with
    | Some item => timeOf item
    | None => gotime.zeroTime
    end
  /\ (forall dayStart,
        snapshotItems logMap <> [] ->
        Forall (fun item => gotime.Truncate (timeOf item) (24 * gotime.Hour)
                            = dayStart) (snapshotItems logMap) ->
        gotime.Truncate (getLatestLogTime logMap) (24 * gotime.Hour) = dayStart
        /\ gotime.Truncate (latestTimestamp logMap) (24 * gotime.Hour) = dayStart)
  /\ (snapshotItems logMap = [] ->
      syncSnapshot env instance databases logMap w = (w, inr tt))
  /\ (getLatestLogTime logMap <> gotime.zeroTime ->
      let latestLogDate :=
        gotime.Truncate (getLatestLogTime logMap) (24 * gotime.Hour) in
      exists w' added,
        syncSnapshot env instance databases logMap w = (w', inr tt)
        /\ trace w' = trace w ++ added
        /\ UpsertSlowLogMessage.DatabaseName <$> upsertsOf added
           = presentIn logMap databases
        /\ Forall (fun upsert =>
                     UpsertSlowLogMessage.InstanceID upsert
                     = InstanceMessage.ResourceID instance
                     /\ UpsertSlowLogMessage.LogDate upsert = latestLogDate)
             (upsertsOf added)).
Proof.
  split; [apply getLatestLogTime_first|]. split; [|split].
  - intros dayStart Hne Hall. split.
    + rewrite getLatestLogTime_first.
      destruct (snapshotItems logMap) as [|item rest]; [congruence|].
      apply Forall_cons in Hall as [Hitem _]. exact Hitem.
    + destruct (latestTimestamp_elem logMap Hne) as (item & Hin & ->).
      exact (proj1 (Forall_forall _ _) Hall item Hin).
  - intros Hempty. unfold syncSnapshot.
    rewrite getLatestLogTime_first, Hempty. reflexivity.
  - intros Hnz latestLogDate. unfold syncSnapshot, gotime.IsZero.
    destruct (Z.eqb_spec (getLatestLogTime logMap) 0) as [Hz|_];
      [contradiction|].
    fold latestLogDate.
    destruct (upsertDatabases_run env instance latestLogDate
                (gotime.AddDate latestLogDate 1) databases logMap w)
      as (w' & added & Hrun & Htr & Hnames & Hall & _).
    exists w', added. repeat split; assumption.
Qed.

(** C8.  For an instance whose slow-query policy is absent or inactive,
    [syncInstanceSlowQuery] returns no error, leaves the table as it was
    and makes one call only, the read of the policy: no delete and no
    upsert. *)
Theorem syncInstance_skips_without_policy w :
  (getSlowQueryPolicy env w (InstanceMessage.ResourceID instance) = inr None
   \/ exists policy,
        getSlowQueryPolicy env w (InstanceMessage.ResourceID instance)
        = inr (Some policy)
        /\ SlowQueryPolicy.Active policy = false) ->
  exists w',
    syncInstanceSlowQuery env instance w = (w', inr tt)
    /\ slowLog w' = slowLog w
    /\ trace w'
       = trace w ++ [GetSlowQueryPolicy (InstanceMessage.ResourceID instance)].
Proof.
  intros Hpolicy. unfold syncInstanceSlowQuery, bind.
  unfold store.GetSlowQueryPolicy, query.
  destruct Hpolicy as [->|(policy & -> & Hinactive)].
  - eexists. repeat split.
  - rewrite Hinactive. eexists. repeat split.
Qed.

End PostgreSQL.

(** C7 as stated fails.  The snapshot has, for database [app], a first
    item stamped two days ago and a second item stamped today, and a
    database [reports], which the store does not list, with an item
    stamped two days ago.  The latest timestamp is of today, but the only
    upsert of the run is for [app] and is keyed on the day two days ago;
    [reports] receives none.  The order in which the range meets the two
    databases makes no difference. *)
Lemma pg_latest_is_first_item_counterexample :
  syncPostgreSQLSlowQuery
    (scenario.postgresEnv [scenario.app] scenario.mixedDays)
    scenario.postgres scenario.start
  = (scenario.mixedDaysEnd, inr tt)
  /\ syncPostgreSQLSlowQuery
       (scenario.postgresEnv [scenario.app] (reverse scenario.mixedDays))
       scenario.postgres scenario.start
     = (scenario.mixedDaysReversedEnd, inr tt)
  /\ gotime.Truncate (latestTimestamp scenario.mixedDays) (24 * gotime.Hour)
     = scenario.today
  /\ gotime.Truncate (latestTimestamp (reverse scenario.mixedDays))
       (24 * gotime.Hour)
     = scenario.today
  /\ (fun upsert =>
        (UpsertSlowLogMessage.DatabaseName upsert,
         UpsertSlowLogMessage.LogDate upsert))
       <$> upsertsOf (trace scenario.mixedDaysEnd)
     = [("app", scenario.daysAgo 2)]
  /\ (fun upsert =>
        (UpsertSlowLogMessage.DatabaseName upsert,
         UpsertSlowLogMessage.LogDate upsert))
       <$> upsertsOf (trace scenario.mixedDaysReversedEnd)
     = [("app", scenario.daysAgo 2)]
  /\ scenario.daysAgo 2 <> scenario.today
  /\ is_Some (gomap.get "reports" scenario.mixedDays).
Proof.
  repeat (split; [vm_compute; reflexivity|]).
  split; [vm_compute; discriminate|].
  vm_compute. eauto.
Qed.

(** Two databases in the snapshot, stamped at 9 and at 11 of today: both
    receive one upsert keyed on today's midnight. *)
Lemma pg_snapshot_day_witness :
  snapshotItems scenario.sameDay <> []
  /\ Forall (fun item => gotime.Truncate (timeOf item) (24 * gotime.Hour)
                         = scenario.today) (snapshotItems scenario.sameDay)
  /\ getLatestLogTime scenario.sameDay <> gotime.zeroTime
  /\ gotime.Truncate (getLatestLogTime scenario.sameDay) (24 * gotime.Hour)
     = scenario.today
  /\ gotime.Truncate (latestTimestamp scenario.sameDay) (24 * gotime.Hour)
     = scenario.today
  /\ exists w' added,
       syncSnapshot
         (scenario.postgresEnv [scenario.app; scenario.billing] scenario.sameDay)
         scenario.postgres [scenario.app; scenario.billing] scenario.sameDay
         scenario.start
       = (w', inr tt)
       /\ trace w' = added
       /\ UpsertSlowLogMessage.DatabaseName <$> upsertsOf added
          = ["app"; "billing"]
       /\ Forall (fun upsert =>
                    UpsertSlowLogMessage.InstanceID upsert = "pg-prod"
                    /\ UpsertSlowLogMessage.LogDate upsert = scenario.today)
            (upsertsOf added).
Proof.
  assert (Hne : snapshotItems scenario.sameDay <> []) by discriminate.
  assert (Hall : Forall (fun item =>
                           gotime.Truncate (timeOf item) (24 * gotime.Hour)
                           = scenario.today) (snapshotItems scenario.sameDay))
    by (repeat constructor).
  assert (Hnz : getLatestLogTime scenario.sameDay <> gotime.zeroTime)
    by (vm_compute; discriminate).
  destruct (pg_snapshot_day
              (scenario.postgresEnv [scenario.app; scenario.billing]
                 scenario.sameDay)
              scenario.postgres [scenario.app; scenario.billing]
              scenario.sameDay scenario.start)
    as (_ & Hday & _ & Hupserts).
  destruct (Hday scenario.today Hne Hall) as [Hfirst Hlatest].
  destruct (Hupserts Hnz) as (w' & added & Hrun & Htr & Hnames & Hkeys).
  repeat (split; [assumption|]).
  exists w', added. split; [exact Hrun|]. split; [exact Htr|].
  split; [exact Hnames|].
  rewrite Hfirst in Hkeys. exact Hkeys.
Defined.

(** Every read of the persisted records and every upsert fails: the loop
    still returns no error after an upsert attempt for each of the two
    databases, with the statistics as fetched; the table stays empty. *)
Lemma pg_loop_contains_failures_witness :
  NoDup (DatabaseMessage.DatabaseName <$> [scenario.app; scenario.billing])
  /\ (forall w0,
        listSlowQuery
          (scenario.failingStoreEnv [scenario.app; scenario.billing]
             scenario.sameDay) w0
          (findOf scenario.app scenario.today (gotime.AddDate scenario.today 1))
        = inl 3%nat)
  /\ exists w' added,
       upsertDatabases
         (scenario.failingStoreEnv [scenario.app; scenario.billing]
            scenario.sameDay)
         scenario.postgres scenario.today (gotime.AddDate scenario.today 1)
         [scenario.app; scenario.billing] scenario.sameDay scenario.start
       = (w', inr tt)
       /\ trace w' = added
       /\ UpsertSlowLogMessage.DatabaseName <$> upsertsOf added
          = ["app"; "billing"]
       /\ upsertOf scenario.postgres scenario.today scenario.app
            (scenario.oneItem (scenario.stamp 0 9)) ∈ upsertsOf added
       /\ slowLog w' = ∅.
Proof.
  assert (Hnd : NoDup (DatabaseMessage.DatabaseName
                         <$> [scenario.app; scenario.billing])).
  { cbn. repeat constructor; rewrite ?elem_of_cons, ?elem_of_nil;
      intros H; intuition discriminate. }
  split; [exact Hnd|]. split; [reflexivity|].
  destruct (pg_loop_contains_failures
              (scenario.failingStoreEnv [scenario.app; scenario.billing]
                 scenario.sameDay)
              scenario.postgres scenario.today (gotime.AddDate scenario.today 1)
              [scenario.app; scenario.billing] scenario.sameDay scenario.start)
    as (w' & added & Hrun & Htr & Hnames & Hfail & _).
  exists w', added. split; [exact Hrun|]. split; [exact Htr|].
  split; [exact Hnames|]. split.
  - apply (Hfail Hnd scenario.app (scenario.oneItem (scenario.stamp 0 9)) 3%nat).
    + left.
    + reflexivity.
    + reflexivity.
  - assert (Hend : w' = (upsertDatabases
         (scenario.failingStoreEnv [scenario.app; scenario.billing]
            scenario.sameDay)
         scenario.postgres scenario.today (gotime.AddDate scenario.today 1)
         [scenario.app; scenario.billing] scenario.sameDay scenario.start).1)
      by (rewrite Hrun; reflexivity).
    rewrite Hend. vm_compute. reflexivity.
Defined.

(** No policy, and an inactive policy, in an environment in which any
    other call would fail. *)
Lemma syncInstance_skips_without_policy_witness :
  (getSlowQueryPolicy (scenario.policyEnv None) scenario.start "mysql-prod"
   = inr None
   /\ exists w',
        syncInstanceSlowQuery (scenario.policyEnv None) scenario.mysql
          scenario.start = (w', inr tt)
        /\ slowLog w' = ∅
        /\ trace w' = [GetSlowQueryPolicy "mysql-prod"])
  /\ (getSlowQueryPolicy
        (scenario.policyEnv (Some {| SlowQueryPolicy.Active := false |}))
        scenario.start "pg-prod"
      = inr (Some {| SlowQueryPolicy.Active := false |})
      /\ exists w',
           syncInstanceSlowQuery
             (scenario.policyEnv (Some {| SlowQueryPolicy.Active := false |}))
             scenario.postgres scenario.start = (w', inr tt)
           /\ slowLog w' = ∅
           /\ trace w' = [GetSlowQueryPolicy "pg-prod"]).
Proof.
  split; (split; [reflexivity|]).
  - apply (syncInstance_skips_without_policy (scenario.policyEnv None)
             scenario.mysql scenario.start).
    left. reflexivity.
  - apply (syncInstance_skips_without_policy
             (scenario.policyEnv (Some {| SlowQueryPolicy.Active := false |}))
             scenario.postgres scenario.start).
    right. eexists. split; reflexivity.
Defined.

End SyncTheory.

(** * The task DAG store *)

Module TaskDagTheory.
Import taskdag dag.

Lemma RebuildTaskDAG_cases faults fromTaskIDs toTaskID db :
  RebuildTaskDAG faults fromTaskIDs toTaskID db
  = if beginTxFails faults then (db, Some BeginTxError)
    else if deleteFails faults
    then (db, Some (Wrapf ExecError "failed to delete old task dags"))
    else if insertFails faults then (db, Some ExecError)
    else if commitFails faults then (db, Some CommitError)
    else
      ({| task_dag :=
            filter (fun row => ToTaskID row <> toTaskID) (task_dag db)
            ++ edgesFrom fromTaskIDs toTaskID;
          task := task db |}, None).
Proof.
  unfold RebuildTaskDAG, BeginTx, execDelete, execInsert, Commit, Rollback.
  destruct (beginTxFails faults), (deleteFails faults), (insertFails faults),
    (commitFails faults); reflexivity.
Qed.

(** C5.  [RebuildTaskDAG] is atomic, for every table, every call and
    every choice of the database calls that fail.  When none of its four
    steps fails (the begin, the delete, the insert, the commit), no error
    is returned, all the old edges into the target are removed and the
    edges from the new predecessors are inserted.  When any of them
    fails, an error is returned and the database is completely
    unchanged. *)
Theorem rebuild_is_atomic faults fromTaskIDs toTaskID db :
  let failing :=
    beginTxFails faults || deleteFails faults || insertFails faults
    || commitFails faults in
  let '(db', err) := RebuildTaskDAG faults fromTaskIDs toTaskID db in
  (failing = false ->
   err = None
   /\ task_dag db'
      = filter (fun row => ToTaskID row <> toTaskID) (task_dag db)
        ++ edgesFrom fromTaskIDs toTaskID
   /\ edgesInto toTaskID db' = edgesFrom fromTaskIDs toTaskID
   /\ task db' = task db)
  /\ (failing = true -> err <> None /\ db' = db).
Proof.
  rewrite RebuildTaskDAG_cases.
  destruct (beginTxFails faults);
    [split; [discriminate | intros _; split; [discriminate | reflexivity]]|].
  destruct (deleteFails faults);
    [split; [discriminate | intros _; split; [discriminate | reflexivity]]|].
  destruct (insertFails faults);
    [split; [discriminate | intros _; split; [discriminate | reflexivity]]|].
  destruct (commitFails faults);
    [split; [discriminate | intros _; split; [discriminate | reflexivity]]|].
  cbn [orb]. split; [intros _ | discriminate].
  split; [reflexivity|]. split; [reflexivity|]. split; [|reflexivity].
  unfold edgesInto. cbn [task_dag].
  rewrite filter_app, list_filter_filter.
  assert (Hnone : filter (fun row => ToTaskID row = toTaskID /\ ToTaskID row <> toTaskID)
                    (task_dag db) = []).
  { induction (task_dag db) as [|row rows IH]; [reflexivity|].
    rewrite filter_cons_False by tauto. exact IH. }
  rewrite Hnone. cbn [app].
  induction fromTaskIDs as [|fromTaskID rest IH]; [reflexivity|].
  cbn [edgesFrom map]. rewrite filter_cons_True by reflexivity.
  f_equal. exact IH.
Qed.

Lemma RebuildTaskDAG_ok faults fromTaskIDs toTaskID db db' :
  RebuildTaskDAG faults fromTaskIDs toTaskID db = (db', None) ->
  task_dag db'
  = filter (fun row => ToTaskID row <> toTaskID) (task_dag db)
    ++ edgesFrom fromTaskIDs toTaskID.
Proof.
  rewrite RebuildTaskDAG_cases.
  destruct (beginTxFails faults); [discriminate|].
  destruct (deleteFails faults); [discriminate|].
  destruct (insertFails faults); [discriminate|].
  destruct (commitFails faults); [discriminate|].
  intros [= <-]. reflexivity.
Qed.

Lemma filter_edgesFrom_same fromTaskIDs toTaskID :
  filter (fun row => ToTaskID row = toTaskID) (edgesFrom fromTaskIDs toTaskID)
  = edgesFrom fromTaskIDs toTaskID.
Proof.
  induction fromTaskIDs as [|f l IH]; [reflexivity|].
  cbn [edgesFrom map]. rewrite filter_cons_True by reflexivity.
  f_equal. exact IH.
Qed.

Lemma filter_edgesFrom_other fromTaskIDs toTaskID other :
  toTaskID <> other ->
  filter (fun row => ToTaskID row = other) (edgesFrom fromTaskIDs toTaskID) = [].
Proof.
  intros Hne. induction fromTaskIDs as [|f l IH]; [reflexivity|].
  cbn [edgesFrom map]. rewrite filter_cons_False by exact Hne. exact IH.
Qed.

Lemma filter_none {A} (P : A -> Prop) `{!forall x, Decision (P x)} (l : list A) :
  (forall x, ~ P x) -> filter P l = [].
Proof.
  intros Hnone. induction l as [|x l IH]; [reflexivity|].
  rewrite filter_cons_False by apply Hnone. exact IH.
Qed.

(** A rebuild for a target replaces the edges into it. *)
Lemma edgesInto_rebuild_same faults fromTaskIDs toTaskID db db' :
  RebuildTaskDAG faults fromTaskIDs toTaskID db = (db', None) ->
  edgesInto toTaskID db' = edgesFrom fromTaskIDs toTaskID.
Proof.
  intros Hrun. unfold edgesInto. rewrite (RebuildTaskDAG_ok _ _ _ _ _ Hrun).
  rewrite filter_app, filter_edgesFrom_same, list_filter_filter.
  rewrite filter_none; [reflexivity|]. intros row. tauto.
Qed.

(** A rebuild for another target leaves them alone. *)
Lemma edgesInto_rebuild_other faults fromTaskIDs toTaskID other db db' :
  toTaskID <> other ->
  RebuildTaskDAG faults fromTaskIDs toTaskID db = (db', None) ->
  edgesInto other db' = edgesInto other db.
Proof.
  intros Hne Hrun. unfold edgesInto. rewrite (RebuildTaskDAG_ok _ _ _ _ _ Hrun).
  rewrite filter_app, filter_edgesFrom_other, app_nil_r by exact Hne.
  rewrite list_filter_filter. apply list_filter_iff. intros row.
  split; [tauto|]. intros Heq. split; [exact Heq | congruence].
Qed.

Lemma rebuildAll_others calls : forall db toTaskID,
  Forall (fun err => err = None) (rebuildAll calls db).2 ->
  Forall (fun call => target call <> toTaskID) calls ->
  edgesInto toTaskID (rebuildAll calls db).1 = edgesInto toTaskID db.
Proof.
  induction calls as [|[[faults fromTaskIDs] other] rest IH];
    intros db toTaskID Hok Hother; [reflexivity|].
  cbn [rebuildAll] in *.
  destruct (RebuildTaskDAG faults fromTaskIDs other db) as [db1 err] eqn:Hrun.
  destruct (rebuildAll rest db1) as [db2 errs] eqn:Hrest.
  cbn [fst snd] in *.
  apply Forall_cons in Hok as [-> Hok]. apply Forall_cons in Hother as [Hne Hother].
  specialize (IH db1 toTaskID). rewrite Hrest in IH. cbn [fst snd] in IH.
  rewrite IH by assumption.
  exact (edgesInto_rebuild_other _ _ _ _ _ _ Hne Hrun).
Qed.

(** C4.  After a sequence of calls of [RebuildTaskDAG] that all return
    no error, the edges into a task are exactly the edges from the
    predecessors of the most recent call for that task (calls for other
    tasks may follow it): one edge for each predecessor listed, hence
    exactly one for each when the predecessors are a set, and no other
    edge into the task. *)
Theorem rebuild_last_call_wins (earlier later : list Call) faults fromTaskIDs
    toTaskID db :
  let calls := earlier ++ (faults, fromTaskIDs, toTaskID) :: later in
  Forall (fun err => err = None) (rebuildAll calls db).2 ->
  Forall (fun call => target call <> toTaskID) later ->
  edgesInto toTaskID (rebuildAll calls db).1 = edgesFrom fromTaskIDs toTaskID
  /\ (NoDup fromTaskIDs -> NoDup (edgesInto toTaskID (rebuildAll calls db).1)).
Proof.
  intros calls Hok Hlater.
  assert (Heq : edgesInto toTaskID (rebuildAll calls db).1
                = edgesFrom fromTaskIDs toTaskID).
  { subst calls. revert db Hok.
    induction earlier as [|[[faults0 froms0] to0] earlier IH]; intros db Hok.
    - cbn [app rebuildAll] in *.
      destruct (RebuildTaskDAG faults fromTaskIDs toTaskID db) as [db1 err] eqn:Hrun.
      destruct (rebuildAll later db1) as [db2 errs] eqn:Hrest.
      cbn [fst snd] in *. apply Forall_cons in Hok as [-> Hok].
      pose proof (rebuildAll_others later db1 toTaskID) as Hothers.
      rewrite Hrest in Hothers. cbn [fst snd] in Hothers.
      rewrite Hothers by assumption.
      exact (edgesInto_rebuild_same _ _ _ _ _ Hrun).
    - cbn [app rebuildAll] in *.
      destruct (RebuildTaskDAG faults0 froms0 to0 db) as [db1 err] eqn:Hrun.
      specialize (IH db1).
      destruct (rebuildAll (earlier ++ _) db1) as [db2 errs] eqn:Hrest.
      cbn [fst snd] in *. apply Forall_cons in Hok as [_ Hok]. exact (IH Hok). }
  split; [exact Heq|].
  intros Hnd. rewrite Heq. unfold edgesFrom.
  apply NoDup_fmap_2; [|exact Hnd]. intros a b [= ->]. reflexivity.
Qed.

(** [RebuildTaskDAG] for task 5 with predecessors 1 and 2, then with
    predecessor 3, leaves the edge from 3 to 5 only. *)
Lemma rebuild_last_call_wins_witness :
  Forall (fun err => err = None)
    (rebuildAll [(noFaults, [1; 2], 5); (noFaults, [3], 5)] emptyDB).2
  /\ edgesInto 5
       (rebuildAll [(noFaults, [1; 2], 5); (noFaults, [3], 5)] emptyDB).1
     = [edge 3 5]
  /\ task_dag
       (rebuildAll [(noFaults, [1; 2], 5); (noFaults, [3], 5)] emptyDB).1
     = [edge 3 5].
Proof.
  assert (Hok : Forall (fun err => err = None)
                  (rebuildAll [(noFaults, [1; 2], 5); (noFaults, [3], 5)]
                     emptyDB).2)
    by (repeat constructor).
  split; [exact Hok|]. split; [|reflexivity].
  exact (proj1 (rebuild_last_call_wins [(noFaults, [1; 2], 5)] [] noFaults [3] 5
                  emptyDB Hok (Forall_nil_2 _))).
Defined.

Lemma forallb_whereClauses find row :
  forallb (fun clause : TaskRow -> bool => clause row) (whereClauses find) = true
  <-> passes find row.
Proof.
  unfold whereClauses, passes.
  destruct (StageID find) as [s|], (PipelineID find) as [p|]; cbn;
    rewrite ?andb_true_r, ?andb_true_iff, ?Z.eqb_eq.
  - split.
    + intros [Hs Hp]. split; intros v [= <-]; assumption.
    + intros [Hs Hp]. split; [apply Hs | apply Hp]; reflexivity.
  - split.
    + intros Hs. split; [intros v [= <-]; assumption | discriminate].
    + intros [Hs _]. apply Hs. reflexivity.
  - split.
    + intros Hp. split; [discriminate | intros v [= <-]; assumption].
    + intros [_ Hp]. apply Hp. reflexivity.
  - split; [|reflexivity]. intros _. split; discriminate.
Qed.

Lemma elem_of_selectTaskDags find db dag :
  StageID find <> None \/ PipelineID find <> None ->
  dag ∈ selectTaskDags find db
  <-> dag ∈ task_dag db /\ belongs find db (FromTaskID dag).
Proof.
  intros Hfind. unfold selectTaskDags.
  assert (Hjoin : bool_decide (StageID find <> None)
                  || bool_decide (PipelineID find <> None) = true).
  { destruct Hfind as [H|H];
      [rewrite (bool_decide_eq_true_2 _ H) | rewrite (bool_decide_eq_true_2 _ H), orb_true_r];
      reflexivity. }
  rewrite Hjoin. rewrite list_elem_of_In, in_flat_map.
  setoid_rewrite <- list_elem_of_In. unfold belongs. split.
  - intros (dag' & Hdag & Hin).
    apply list_elem_of_fmap in Hin as (row & -> & Hrow).
    apply list_elem_of_filter in Hrow as [[Hid Hwhere] Hrow].
    split; [exact Hdag|]. exists row.
    split; [exact Hrow|]. split; [exact Hid|]. apply forallb_whereClauses, Hwhere.
  - intros (Hdag & row & Hrow & Hid & Hpass). exists dag. split; [exact Hdag|].
    apply list_elem_of_fmap. exists row. split; [reflexivity|].
    apply list_elem_of_filter. split; [|exact Hrow].
    split; [exact Hid | apply forallb_whereClauses, Hpass].
Qed.

(** C6, amended.  For a filter that carries a stage or a pipeline,
    [ListTaskDags] returns exactly the stored edges whose from-task
    belongs to the stage and pipeline of the filter; when every stored
    edge stays within one stage of one pipeline, as the comment in the
    code has it, these are exactly the edges both of whose endpoints
    belong to them. *)
Theorem listEdges_filters_on_from_task find db :
  StageID find <> None \/ PipelineID find <> None ->
  ListTaskDags noFaults find db = inr (selectTaskDags find db)
  /\ (forall dag,
        dag ∈ selectTaskDags find db
        <-> dag ∈ task_dag db /\ belongs find db (FromTaskID dag))
  /\ (withinStage db ->
      forall dag,
        dag ∈ selectTaskDags find db
        <-> dag ∈ task_dag db
            /\ belongs find db (FromTaskID dag)
            /\ belongs find db (ToTaskID dag)).
Proof.
  intros Hfind. split; [reflexivity|].
  split; [intros dag; apply elem_of_selectTaskDags, Hfind|].
  intros Hwithin dag. rewrite (elem_of_selectTaskDags find db dag Hfind).
  split; [|tauto]. intros [Hdag Hfrom]. split; [exact Hdag|].
  split; [exact Hfrom|].
  destruct Hfrom as (fromRow & Hrow & Hid & Hstage & Hpipeline).
  destruct (Hwithin dag fromRow Hdag Hrow Hid)
    as (toRow & HtoRow & HtoId & Hs & Hp).
  exists toRow. split; [exact HtoRow|]. split; [exact HtoId|].
  split; intros v Hv; [rewrite Hs; apply Hstage | rewrite Hp; apply Hpipeline];
    exact Hv.
Qed.

(** C6 as stated fails: with an edge from a task of stage 10 to a task
    of stage 20, the filter on stage 10 returns the edge although the
    task it leads to does not belong to stage 10. *)
Lemma listEdges_both_endpoints_counterexample :
  ListTaskDags noFaults (stage 10) twoStages = inr [edge 1 2]
  /\ ~ belongs (stage 10) twoStages (ToTaskID (edge 1 2)).
Proof.
  split; [reflexivity|].
  intros (row & Hrow & Hid & Hstage & _).
  specialize (Hstage 10 eq_refl).
  unfold twoStages in Hrow. cbn [task] in Hrow.
  rewrite !elem_of_cons, elem_of_nil in Hrow.
  destruct Hrow as [->|[->|[]]]; cbn in *; discriminate.
Qed.

(** Three tasks of stage 10: the filter on that stage returns both
    edges, and both endpoints of each belong to the stage. *)
Lemma listEdges_filters_on_from_task_witness :
  (StageID (stage 10) <> None \/ PipelineID (stage 10) <> None)
  /\ withinStage oneStage
  /\ ListTaskDags noFaults (stage 10) oneStage = inr [edge 1 3; edge 2 3]
  /\ (forall dag,
        dag ∈ selectTaskDags (stage 10) oneStage
        <-> dag ∈ task_dag oneStage
            /\ belongs (stage 10) oneStage (FromTaskID dag)
            /\ belongs (stage 10) oneStage (ToTaskID dag)).
Proof.
  assert (Hfind : StageID (stage 10) <> None \/ PipelineID (stage 10) <> None)
    by (left; discriminate).
  assert (Hwithin : withinStage oneStage).
  { intros dag fromRow Hdag Hrow Hid.
    exists {| id := 3; pipeline_id := 100; stage_id := 10 |}.
    unfold oneStage in *. cbn [task task_dag] in *.
    rewrite !elem_of_cons, elem_of_nil in Hdag.
    rewrite !elem_of_cons, elem_of_nil in Hrow.
    split; [do 2 right; left|].
    destruct Hdag as [->|[->|[]]]; destruct Hrow as [->|[->|[->|[]]]];
      cbn in *; repeat split; try reflexivity; discriminate. }
  split; [exact Hfind|]. split; [exact Hwithin|].
  destruct (listEdges_filters_on_from_task (stage 10) oneStage Hfind)
    as (Hrun & _ & Hboth).
  split; [exact Hrun | exact (Hboth Hwithin)].
Defined.

(** A rebuild of the predecessors of task 3 on the table of one stage:
    without a fault the edges into 3 are the new ones and the edge into
    another task would stay; with a commit that fails nothing changes. *)
Lemma rebuild_is_atomic_witness :
  (let '(db', err) := RebuildTaskDAG noFaults [2] 3 oneStage in
   err = None /\ task_dag db' = [edge 2 3] /\ task db' = task oneStage)
  /\ (let '(db', err) :=
        RebuildTaskDAG
          {| beginTxFails := false; deleteFails := false; insertFails := false;
             queryFails := false; scanFails := false; rowsErrFails := false;
             commitFails := true |} [2] 3 oneStage in
      err <> None /\ db' = oneStage).
Proof.
  split.
  - pose proof (rebuild_is_atomic noFaults [2] 3 oneStage) as Hatomic.
    cbn zeta in Hatomic.
    destruct (RebuildTaskDAG noFaults [2] 3 oneStage) as [db' err].
    destruct Hatomic as [Hdone _].
    destruct (Hdone eq_refl) as (Herr & Htable & _ & Htasks).
    split; [exact Herr|]. split; [exact Htable | exact Htasks].
  - pose proof (rebuild_is_atomic
                  {| beginTxFails := false; deleteFails := false;
                     insertFails := false; queryFails := false;
                     scanFails := false; rowsErrFails := false;
                     commitFails := true |} [2] 3 oneStage) as Hatomic.
    cbn zeta in Hatomic.
    destruct (RebuildTaskDAG _ [2] 3 oneStage) as [db' err].
    apply Hatomic. reflexivity.
Defined.

End TaskDagTheory.

(** * More on the merge *)

Module MergeMore.
Import GoInt GoIntFacts DurationFacts slowquerysync aggregate MergeTheory.

Lemma keyed_values_fingerprints (m : gmap string Item) :
  keyed m -> storepb.SqlFingerprint <$> (map_to_list m).*2 = (map_to_list m).*1.
Proof.
  intros Hk. rewrite <- !list_fmap_compose. apply list_fmap_ext.
  intros i [k v] Hin. cbn.
  apply list_elem_of_lookup_2 in Hin. apply elem_of_map_to_list in Hin.
  exact (Hk k v Hin).
Qed.

Lemma foldl_stepLog_is_Some held logs :
  is_Some (foldl stepLog held logs) <-> is_Some held \/ logs <> [].
Proof.
  destruct logs as [|log logs].
  - cbn. split; [tauto|]. intros [H|H]; [exact H | congruence].
  - cbn [foldl]. unfold stepLog at 2.
    destruct held as [value|]; rewrite foldl_stepLog_Some;
      (split; [intros _; right; discriminate | intros _; eauto]).
Qed.

Lemma existingItem_is_Some fp statistics :
  is_Some (existingItem fp statistics)
  <-> fp ∈ storepb.SqlFingerprint <$> storepb.Items statistics.
Proof.
  unfold existingItem, itemsOf. rewrite list_elem_of_fmap. split.
  - intros [item Hlast]. apply last_Some_elem_of in Hlast.
    apply list_elem_of_filter in Hlast as [Hfp Hin]. eauto.
  - intros (item & -> & Hin).
    assert (Hin' : item ∈ filter (fun other => storepb.SqlFingerprint other
                                               = storepb.SqlFingerprint item)
                           (storepb.Items statistics))
      by (apply list_elem_of_filter; split; [reflexivity | exact Hin]).
    destruct (last _) as [x|] eqn:Hlast; [eauto|].
    apply last_None in Hlast. rewrite Hlast in Hin'. inversion Hin'.
Qed.

Lemma recordsOf_nonempty fp logs :
  recordsOf fp logs <> [] <-> fp ∈ fingerprintOf <$> logs.
Proof.
  unfold recordsOf. rewrite list_elem_of_fmap. split.
  - intros Hne. destruct (filter _ logs) as [|log rest] eqn:Hf; [congruence|].
    assert (Hin : log ∈ filter (fun log => fingerprintOf log = fp) logs)
      by (rewrite Hf; left).
    apply list_elem_of_filter in Hin as [Hfp Hin]. eauto.
  - intros (log & -> & Hin) Hnil.
    assert (Hin' : log ∈ filter (fun other => fingerprintOf other = fingerprintOf log) logs)
      by (apply list_elem_of_filter; split; [reflexivity | exact Hin]).
    rewrite Hnil in Hin'. inversion Hin'.
Qed.

(** X1.  The result of [pgMergeSlowQueryLog] holds no fingerprint twice,
    also when the fetched statistics do, and its fingerprints are those of
    the fetched items together with those of the persisted records: none
    is lost and none is made up. *)
Theorem pgMerge_fingerprints statistics logs :
  NoDup (storepb.SqlFingerprint
           <$> storepb.Items (pgMergeSlowQueryLog statistics logs))
  /\ forall fp,
       fp ∈ storepb.SqlFingerprint
              <$> storepb.Items (pgMergeSlowQueryLog statistics logs)
       <-> fp ∈ storepb.SqlFingerprint <$> storepb.Items statistics
           \/ fp ∈ fingerprintOf <$> logs.
Proof.
  unfold pgMergeSlowQueryLog. cbn [storepb.Items].
  rewrite keyed_values_fingerprints by apply keyed_mergeStatus.
  split; [apply NoDup_fst_map_to_list|].
  intros fp. rewrite <- existingItem_is_Some, <- recordsOf_nonempty.
  rewrite <- foldl_stepLog_is_Some, <- mergeStatus_lookup.
  rewrite list_elem_of_fmap. split.
  - intros ([k v] & -> & Hin). apply elem_of_map_to_list in Hin. eauto.
  - intros [v Hv]. exists (fp, v). split; [reflexivity|].
    apply elem_of_map_to_list. exact Hv.
Qed.

(** Seeding the map from its own values gives the map back. *)
Lemma seed_values (m : gmap string Item) :
  keyed m -> foldl seedItem ∅ (map_to_list m).*2 = m.
Proof.
  intros Hk. apply map_eq. intros fp.
  rewrite foldl_seedItem_lookup, lookup_empty.
  rewrite filter_values_keyed.
  - rewrite list_to_map_to_list. destruct (m !! fp); reflexivity.
  - apply NoDup_fst_map_to_list.
  - intros k v Hin. apply elem_of_map_to_list in Hin. exact (Hk k v Hin).
Qed.

(** X2.  Merging the persisted records in two batches, the result of the
    first merge being the statistics of the second, gives what merging
    all of them at once gives. *)
Theorem pgMerge_in_batches statistics logs1 logs2 :
  pgMergeSlowQueryLog (pgMergeSlowQueryLog statistics logs1) logs2
  = pgMergeSlowQueryLog statistics (logs1 ++ logs2).
Proof.
  unfold pgMergeSlowQueryLog at 1 3. f_equal. f_equal. f_equal.
  unfold mergeStatus at 1. unfold pgMergeSlowQueryLog. cbn [storepb.Items].
  rewrite seed_values by apply keyed_mergeStatus.
  unfold mergeStatus. rewrite foldl_app. reflexivity.
Qed.

Lemma filter_absent {A B} `{EqDecision B} (f : A -> B) (l : list A) b :
  b ∉ f <$> l -> filter (fun y => f y = b) l = [].
Proof.
  induction l as [|a l IH]; intros Hnotin; [reflexivity|].
  cbn in Hnotin. apply not_elem_of_cons in Hnotin as [Hne Hnotin].
  rewrite filter_cons_False by congruence. exact (IH Hnotin).
Qed.

Lemma filter_unique {A B} `{EqDecision B} (f : A -> B) (l : list A) x :
  NoDup (f <$> l) -> x ∈ l -> filter (fun y => f y = f x) l = [x].
Proof.
  induction l as [|a l IH]; intros Hnd Hin; [inversion Hin|].
  cbn in Hnd. apply NoDup_cons in Hnd as [Hnotin Hnd].
  apply elem_of_cons in Hin as [->|Hin].
  - rewrite filter_cons_True by reflexivity. f_equal.
    exact (filter_absent f l (f a) Hnotin).
  - rewrite filter_cons_False; [apply IH; assumption|].
    intros Heq. apply Hnotin. rewrite Heq. apply list_elem_of_fmap. eauto.
Qed.

Lemma NoDup_values_keyed (m : gmap string Item) :
  keyed m -> NoDup (map_to_list m).*2.
Proof.
  intros Hk. apply (NoDup_fmap_1 storepb.SqlFingerprint).
  rewrite keyed_values_fingerprints by exact Hk. apply NoDup_fst_map_to_list.
Qed.

Lemma elem_of_values_keyed (m : gmap string Item) item :
  keyed m ->
  item ∈ (map_to_list m).*2 <-> m !! storepb.SqlFingerprint item = Some item.
Proof.
  intros Hk. rewrite list_elem_of_fmap. split.
  - intros ([k v] & -> & Hin). apply elem_of_map_to_list in Hin. cbn.
    rewrite (Hk k v Hin). exact Hin.
  - intros Hlook. exists (storepb.SqlFingerprint item, item).
    split; [reflexivity|]. apply elem_of_map_to_list. exact Hlook.
Qed.

(** X3.  [pgMergeSlowQueryLog] leaves alone what the records do not
    mention: the item of a fingerprint that no record carries comes out
    as it went in, and with no records at all the result is the fetched
    items in some order, when their fingerprints are distinct. *)
Theorem pgMerge_leaves_alone statistics logs :
  (forall fp value,
      existingItem fp statistics = Some value ->
      recordsOf fp logs = [] ->
      itemsOf fp (pgMergeSlowQueryLog statistics logs) = [value])
  /\ (NoDup (storepb.SqlFingerprint <$> storepb.Items statistics) ->
      storepb.Items (pgMergeSlowQueryLog statistics []) ≡ₚ storepb.Items statistics).
Proof.
  split.
  - intros fp value Hex Hrec.
    rewrite itemsOf_pgMerge, mergeStatus_lookup, Hex, Hrec. reflexivity.
  - intros Hnd. unfold pgMergeSlowQueryLog. cbn [storepb.Items].
    apply NoDup_Permutation.
    + apply NoDup_values_keyed, keyed_mergeStatus.
    + exact (NoDup_fmap_1 _ _ Hnd).
    + intros item. rewrite elem_of_values_keyed by apply keyed_mergeStatus.
      unfold mergeStatus. cbn [foldl].
      rewrite foldl_seedItem_lookup, lookup_empty. split.
      * intros Hlast. destruct (last _) as [x|] eqn:Hl; [|discriminate].
        injection Hlast as ->. apply last_Some_elem_of in Hl.
        apply list_elem_of_filter in Hl. tauto.
      * intros Hin. rewrite (filter_unique _ _ _ Hnd Hin). reflexivity.
Qed.

Lemma writeBack_lookup status items : forall i item,
  items !! i = Some item ->
  writeBack status items !! i
  = Some (if bool_decide (storepb.SqlFingerprint item
                            ∈ storepb.SqlFingerprint <$> drop (S i) items)
          then item
          else default item (status !! storepb.SqlFingerprint item)).
Proof.
  induction items as [|first rest IH]; intros i item Hi; [discriminate|].
  destruct i as [|i].
  - injection Hi as ->. reflexivity.
  - cbn [writeBack]. cbn in Hi. rewrite lookup_cons_ne_0 by lia. cbn.
    exact (IH i item Hi).
Qed.

Lemma writeBack_fingerprints status items :
  keyed status ->
  storepb.SqlFingerprint <$> writeBack status items
  = storepb.SqlFingerprint <$> items.
Proof.
  intros Hk. induction items as [|item rest IH]; [reflexivity|].
  cbn [writeBack fmap list_fmap]. f_equal; [|exact IH].
  case_bool_decide; [reflexivity|].
  destruct (status !! storepb.SqlFingerprint item) as [v|] eqn:Hv;
    [exact (Hk _ _ Hv) | reflexivity].
Qed.

Lemma last_occurrence (items : list Item) i item :
  items !! i = Some item ->
  storepb.SqlFingerprint item ∉ storepb.SqlFingerprint <$> drop (S i) items ->
  last (filter (fun other => storepb.SqlFingerprint other
                             = storepb.SqlFingerprint item) items)
  = Some item.
Proof.
  intros Hi Hlater. rewrite <- (take_drop_middle items i item Hi).
  rewrite filter_app, filter_cons_True by reflexivity.
  assert (Hnone : filter (fun other => storepb.SqlFingerprint other
                                       = storepb.SqlFingerprint item)
                    (drop (S i) items) = [])
    by exact (filter_absent _ _ _ Hlater).
  rewrite Hnone. apply last_snoc.
Qed.

(** X4.  [pgMergeSlowQueryLog] updates the items of its argument through
    the pointers it holds.  After the call the argument has the same
    fingerprints at the same positions; an item followed by another item
    of its fingerprint is unchanged, as is an item whose fingerprint no
    record carries; and the last item of each fingerprint is the item of
    the result for that fingerprint. *)
Theorem pgMerge_updates_argument statistics logs :
  let after := storepb.Items (pgMergeSlowQueryLog_arg statistics logs) in
  storepb.SqlFingerprint <$> after
  = storepb.SqlFingerprint <$> storepb.Items statistics
  /\ forall i item,
       storepb.Items statistics !! i = Some item ->
       let later :=
         storepb.SqlFingerprint <$> drop (S i) (storepb.Items statistics) in
       (storepb.SqlFingerprint item ∈ later -> after !! i = Some item)
       /\ (recordsOf (storepb.SqlFingerprint item) logs = [] ->
           after !! i = Some item)
       /\ (storepb.SqlFingerprint item ∉ later ->
           exists merged,
             itemsOf (storepb.SqlFingerprint item)
               (pgMergeSlowQueryLog statistics logs) = [merged]
             /\ after !! i = Some merged).
Proof.
  cbn zeta. unfold pgMergeSlowQueryLog_arg. cbn [storepb.Items].
  split; [apply writeBack_fingerprints, keyed_mergeStatus|].
  intros i item Hi. rewrite (writeBack_lookup _ _ i item Hi).
  split; [|split].
  - intros Hin. rewrite bool_decide_eq_true_2 by exact Hin. reflexivity.
  - intros Hrec. case_bool_decide as Hlater; [reflexivity|].
    rewrite mergeStatus_lookup, Hrec. unfold existingItem, itemsOf.
    rewrite (last_occurrence _ i item Hi Hlater). reflexivity.
  - intros Hlater. rewrite bool_decide_eq_false_2 by exact Hlater.
    rewrite itemsOf_pgMerge, mergeStatus_lookup. unfold existingItem, itemsOf.
    rewrite (last_occurrence _ i item Hi Hlater), foldl_stepLog_Some.
    eexists. split; reflexivity.
Qed.

Lemma pgMerge_leaves_alone_witness :
  itemsOf "update" (pgMergeSlowQueryLog examples.fetched examples.persisted)
  = [examples.item "update" 1 5 5 1]
  /\ storepb.Items (pgMergeSlowQueryLog examples.fetched [])
     ≡ₚ storepb.Items examples.fetched.
Proof.
  destruct (pgMerge_leaves_alone examples.fetched examples.persisted)
    as [Hkept _].
  destruct (pgMerge_leaves_alone examples.fetched []) as [_ Hsame].
  split.
  - apply Hkept; reflexivity.
  - apply Hsame. apply (bool_decide_unpack _). vm_compute. reflexivity.
Defined.

Lemma pgMerge_updates_argument_witness :
  storepb.Items (pgMergeSlowQueryLog_arg examples.fetched examples.persisted) !! 1%nat
  = Some (examples.item "update" 1 5 5 1)
  /\ exists merged,
       itemsOf "select"
         (pgMergeSlowQueryLog examples.fetched examples.persisted) = [merged]
       /\ storepb.Items
            (pgMergeSlowQueryLog_arg examples.fetched examples.persisted) !! 0%nat
          = Some merged.
Proof.
  destruct (pgMerge_updates_argument examples.fetched examples.persisted)
    as [_ Hitems].
  split.
  - destruct (Hitems 1%nat (examples.item "update" 1 5 5 1) eq_refl)
      as (_ & Hkept & _).
    apply Hkept. reflexivity.
  - destruct (Hitems 0%nat (examples.item "select" 2 10 7 4) eq_refl)
      as (_ & _ & Hlast).
    apply Hlast. apply (bool_decide_unpack _). vm_compute. reflexivity.
Defined.

End MergeMore.

(** * More on the runs of the syncer *)

Module SyncMore.
Import world slowquerysync run events TimeFacts SyncTheory.
Local Open Scope syncer_scope.

Lemma StronglySorted_prefix {A} (R : A -> A -> Prop) (l1 l2 : list A) :
  l1 `prefix_of` l2 -> StronglySorted R l2 -> StronglySorted R l1.
Proof.
  intros [k ->]. induction l1 as [|x l1 IH]; intros Hs; [constructor|].
  cbn in Hs. apply StronglySorted_inv in Hs as [Hs Hall].
  constructor; [exact (IH Hs)|].
  apply Forall_app in Hall. tauto.
Qed.

Lemma upsertsOf_upserts upserts : upsertsOf (map UpsertSlowLog upserts) = upserts.
Proof. induction upserts as [|u l IH]; [reflexivity|]. cbn. f_equal. exact IH. Qed.

Section AnyRun.
Variable env : Env.
Variable instance : InstanceMessage.t.
Variable loc : gotime.Location.

(** A day of upserts, whatever its outcome: the upserts attempted are the
    first ones of the day, all of them committed but, on an error, the
    last. *)
Lemma upsertDay_any date logs : forall w w' r,
  upsertDay env instance date logs w = (w', r) ->
  exists committed failed,
    committed ++ failed `prefix_of` upsertMessages instance date logs
    /\ trace w' = trace w ++ map UpsertSlowLog (committed ++ failed)
    /\ slowLog w' = foldl applyUpsert (slowLog w) committed
    /\ (length failed <= 1)%nat
    /\ (r = inr tt -> failed = []).
Proof.
  induction logs as [|[dbName stats] logs IH]; intros w w' r Hrun.
  - injection Hrun as <- <-. exists [], []. cbn. rewrite app_nil_r.
    split; [apply prefix_nil|]. split; [reflexivity|]. split; [reflexivity|].
    split; [lia | reflexivity].
  - cbn [upsertDay] in Hrun. unfold bind in Hrun. rewrite upsert_run in Hrun.
    cbn [upsertMessages map fst snd].
    set (upsert := {| UpsertSlowLogMessage.InstanceID := _ |}) in *.
    destruct (upsertSlowLog env w upsert) as [code|].
    + injection Hrun as <- <-. exists [], [upsert]. cbn.
      split; [apply prefix_cons, prefix_nil|]. split; [reflexivity|].
      split; [reflexivity|]. split; [lia | discriminate].
    + apply IH in Hrun as (committed & failed & Hpre & Htr & Htab & Hlen & Hok).
      exists (upsert :: committed), failed. cbn [trace slowLog] in *.
      split; [apply prefix_cons; exact Hpre|].
      split; [rewrite Htr, <- app_assoc; reflexivity|].
      split; [exact Htab|]. split; assumption.
Qed.

(** The loop over the days, whatever its outcome and whatever the
    Location of its date: the dates fetched ascend from the first date
    and do not pass today; in a zone of a fixed offset they are the first
    days of the days from the first date through today. *)
Lemma syncDays_any fuel : forall date today w w' r,
  syncDays env fuel instance loc date today w = (w', r) ->
  exists added committed failed,
    trace w' = trace w ++ added
    /\ Forall isDayEvent added
    /\ Forall (fun d => date <= d <= today) (fetchesOf added)
    /\ StronglySorted Z.lt (fetchesOf added)
    /\ (gotime.fixedOffset loc ->
        fetchesOf added `prefix_of` daysThrough date today)
    /\ upsertsOf added = committed ++ failed
    /\ (length failed <= 1)%nat
    /\ (r = inr tt -> failed = [])
    /\ slowLog w' = foldl applyUpsert (slowLog w) committed
    /\ Forall (fun upsert =>
                 UpsertSlowLogMessage.InstanceID upsert
                 = InstanceMessage.ResourceID instance
                 /\ UpsertSlowLogMessage.LogDate upsert ∈ fetchesOf added)
         (upsertsOf added).
Proof.
  induction fuel as [|fuel IH]; intros date today w w' r Hrun.
  { injection Hrun as <- <-. exists [], [], []. cbn. rewrite app_nil_r.
    split; [reflexivity|]. split; [constructor|]. split; [constructor|].
    split; [constructor|]. split; [intros _; apply prefix_nil|].
    split; [reflexivity|]. split; [lia|]. split; [intros; reflexivity|].
    split; [reflexivity | constructor]. }
  rewrite syncDays_step in Hrun. unfold gotime.After in Hrun.
  destruct (Z.ltb_spec today date) as [Hlt|Hle].
  { injection Hrun as <- <-. exists [], [], []. cbn. rewrite app_nil_r.
    split; [reflexivity|]. split; [constructor|]. split; [constructor|].
    split; [constructor|]. split; [intros _; apply prefix_nil|].
    split; [reflexivity|]. split; [lia|]. split; [intros; reflexivity|].
    split; [reflexivity | constructor]. }
  assert (Hone : Forall (fun d => date <= d <= today) [date]
                 /\ StronglySorted Z.lt [date]
                 /\ (gotime.fixedOffset loc ->
                     [date] `prefix_of` daysThrough date today)).
  { split; [constructor; [lia | constructor]|].
    split; [repeat constructor|]. intros _.
    rewrite (daysThrough_cons date today Hle). apply prefix_cons, prefix_nil. }
  destruct Hone as (Hrange1 & Hsorted1 & Hprefix1).
  destruct (syncSlowQuery env w None date) as [code|logs].
  { injection Hrun as <- <-. exists [SyncSlowQuery None date], [], [].
    split; [reflexivity|]. split; [repeat constructor|].
    split; [exact Hrange1|]. split; [exact Hsorted1|]. split; [exact Hprefix1|].
    split; [reflexivity|]. split; [cbn; lia|]. split; [intros; reflexivity|].
    split; [reflexivity | constructor]. }
  destruct (upsertDay env instance date logs _) as [w2 r2] eqn:Hday.
  apply upsertDay_any in Hday
    as (committed & failed & Hpre & Htr2 & Htab2 & Hlen2 & Hok2).
  assert (Hdates : Forall (fun upsert =>
                             UpsertSlowLogMessage.InstanceID upsert
                             = InstanceMessage.ResourceID instance
                             /\ UpsertSlowLogMessage.LogDate upsert = date)
                     (committed ++ failed)).
  { destruct Hpre as [k Hk]. apply Forall_forall. intros upsert Hin.
    assert (Hin' : upsert ∈ upsertMessages instance date logs)
      by (rewrite Hk; apply elem_of_app; left; exact Hin).
    unfold upsertMessages in Hin'. apply list_elem_of_fmap in Hin' as (entry & -> & _).
    split; reflexivity. }
  destruct r2 as [e|[]].
  - injection Hrun as <- <-.
    exists (SyncSlowQuery None date :: map UpsertSlowLog (committed ++ failed)),
      committed, failed.
    rewrite Htr2, record_trace, <- app_assoc. cbn [app].
    change (fetchesOf (SyncSlowQuery None date :: ?l)) with (date :: fetchesOf l).
    change (upsertsOf (SyncSlowQuery None date :: ?l)) with (upsertsOf l).
    rewrite fetchesOf_upserts, upsertsOf_upserts.
    split; [reflexivity|]. split.
    { constructor; [exact I|]. apply Forall_forall. intros ev Hin.
      apply list_elem_of_fmap in Hin as (u & -> & _). exact I. }
    split; [exact Hrange1|]. split; [exact Hsorted1|]. split; [exact Hprefix1|].
    split; [reflexivity|].
    split; [exact Hlen2|]. split; [discriminate|]. split; [exact Htab2|].
    eapply Forall_impl; [exact Hdates|]. intros u [Hid ->]. split; [exact Hid | left].
  - specialize (Hok2 eq_refl). subst failed. rewrite app_nil_r in *.
    pose proof (AddDateIn_later loc date) as Hlater.
    assert (Hsecond : 0 < gotime.Second) by reflexivity.
    apply IH in Hrun
      as (added & committed' & failed' & Htr & Hkinds & Hrange & Hsorted
          & Hprefix & Hups & Hlen & Hok & Htab & Hall).
    exists (SyncSlowQuery None date :: map UpsertSlowLog committed ++ added),
      (committed ++ committed'), failed'.
    rewrite Htr, Htr2, record_trace, <- !app_assoc. cbn [app].
    change (fetchesOf (SyncSlowQuery None date :: ?l)) with (date :: fetchesOf l).
    change (upsertsOf (SyncSlowQuery None date :: ?l)) with (upsertsOf l).
    rewrite fetchesOf_app, upsertsOf_app, fetchesOf_upserts, upsertsOf_upserts.
    cbn [app].
    split; [reflexivity|]. split.
    { constructor; [exact I|]. apply Forall_app. split; [|exact Hkinds].
      apply Forall_forall. intros ev Hin.
      apply list_elem_of_fmap in Hin as (u & -> & _). exact I. }
    split.
    { constructor; [lia|]. eapply Forall_impl; [exact Hrange|].
      cbn beta. intros d Hd. lia. }
    split.
    { constructor; [exact Hsorted|]. eapply Forall_impl; [exact Hrange|].
      cbn beta. intros d Hd. lia. }
    split.
    { intros Hfixed. rewrite (daysThrough_cons date today Hle).
      rewrite <- (AddDateIn_fixed loc date 1 Hfixed).
      apply prefix_cons, Hprefix, Hfixed. }
    split; [rewrite Hups, app_assoc; reflexivity|].
    split; [exact Hlen|]. split; [exact Hok|].
    split; [rewrite Htab, Htab2, foldl_app; reflexivity|].
    apply Forall_app. split.
    + eapply Forall_impl; [exact Hdates|]. intros u [Hid ->]. split; [exact Hid | left].
    + eapply Forall_impl; [exact Hall|]. intros u [Hid Hin]. split; [exact Hid | right; exact Hin].
Qed.

End AnyRun.





Section MySQLAny.
Variable env : Env.
Variable instance : InstanceMessage.t.

Let id := InstanceMessage.ResourceID instance.

(** Every run of the MySQL routine: it stops before the driver is open,
    or it goes through the loop and closes the driver. *)
Lemma syncMySQL_any w0 :
  let today := gotime.Truncate (Now env w0) (24 * gotime.Hour) in
  let earliest := gotime.AddDate today (- retentionCycle) in
  let D := DeleteOutdatedSlowLog id earliest in
  let G := GetLatestSlowLogDate id in
  let A := GetAdminDatabaseDriver id None in
  let '(w1, r) := syncMySQLSlowQuery env instance w0 in
  (exists code,
      r = inl (External code)
      /\ ((deleteOutdatedSlowLog env w0 id earliest = Some code
           /\ trace w1 = trace w0 ++ [D] /\ slowLog w1 = slowLog w0)
          \/ (deleteOutdatedSlowLog env w0 id earliest = None
              /\ (trace w1 = trace w0 ++ [D; G] \/ trace w1 = trace w0 ++ [D; G; A])
              /\ slowLog w1 = sweep id earliest (slowLog w0))))
  \/ (exists latest added committed failed,
        deleteOutdatedSlowLog env w0 id earliest = None
        /\ getLatestSlowLogDate env (swept id earliest w0) id = inr latest
        /\ trace w1
           = trace w0 ++ preludeEvents instance earliest ++ added ++ [Close None]
        /\ Forall isDayEvent added
        /\ Forall (fun d => d <= today) (fetchesOf added)
        /\ StronglySorted Z.lt (fetchesOf added)
        /\ (gotime.fixedOffset
              (gotime.location (resumeDate latest today earliest)) ->
            fetchesOf added
              `prefix_of`
              daysThrough
                (gotime.Truncate
                   (gotime.instant (resumeDate latest today earliest))
                   (24 * gotime.Hour)) today)
        /\ upsertsOf added = committed ++ failed
        /\ (length failed <= 1)%nat
        /\ (r = inr tt -> failed = [])
        /\ slowLog w1 = foldl applyUpsert (sweep id earliest (slowLog w0)) committed
        /\ Forall (fun upsert =>
                     UpsertSlowLogMessage.InstanceID upsert = id
                     /\ UpsertSlowLogMessage.LogDate upsert ∈ fetchesOf added)
             (upsertsOf added)).
Proof.
  cbn zeta. rewrite syncMySQL_run. cbn zeta. fold id.
  set (today := gotime.Truncate (Now env w0) (24 * gotime.Hour)).
  set (earliest := gotime.AddDate today (- retentionCycle)).
  destruct (deleteOutdatedSlowLog env w0 id earliest) as [code|] eqn:Hdel.
  { left. exists code. split; [reflexivity|]. left. repeat split. }
  destruct (getLatestSlowLogDate env _ id) as [code|latest] eqn:Hlatest.
  { left. exists code. split; [reflexivity|]. right.
    split; [reflexivity|]. split; [|reflexivity]. left.
    rewrite record_trace. cbn [trace swept]. rewrite <- app_assoc. reflexivity. }
  destruct (getAdminDatabaseDriver env _ id None) as [code|].
  { left. exists code. split; [reflexivity|]. right.
    split; [reflexivity|]. split; [|reflexivity]. right.
    rewrite !record_trace. cbn [trace swept]. rewrite <- !app_assoc. reflexivity. }
  destruct (checkSlowQueryLogEnabled env _ None) as [code|].
  { right. exists latest, [], [], []. split; [reflexivity|].
    split; [reflexivity|].
    split; [rewrite !record_trace; cbn [trace swept]; unfold preludeEvents;
            fold id; rewrite <- !app_assoc; reflexivity|].
    split; [constructor|]. split; [constructor|]. split; [constructor|].
    split; [intros _; apply prefix_nil|]. split; [reflexivity|].
    split; [cbn; lia|]. split; [reflexivity|]. split; [reflexivity | constructor]. }
  destruct (syncDays env _ instance _ _ today _) as [w5 r] eqn:Hloop.
  apply syncDays_any in Hloop
    as (added & committed & failed & Htr & Hkinds & Hrange & Hsorted & Hprefix
        & Hups & Hlen & Hok & Htab & Hall).
  right. exists latest, added, committed, failed. split; [reflexivity|].
  split; [reflexivity|].
  split; [rewrite record_trace, Htr, !record_trace; cbn [trace swept];
          unfold preludeEvents; fold id; rewrite <- !app_assoc; reflexivity|].
  split; [exact Hkinds|].
  split; [eapply Forall_impl; [exact Hrange|]; cbn beta; intros d Hd; lia|].
  split; [exact Hsorted|]. split; [exact Hprefix|]. split; [exact Hups|].
  split; [exact Hlen|]. split; [exact Hok|]. split; [exact Htab | exact Hall].
Qed.

End MySQLAny.


Lemma upsertsOf_prelude instance earliest added :
  upsertsOf (preludeEvents instance earliest ++ added ++ [Close None])
  = upsertsOf added.
Proof.
  rewrite !upsertsOf_app. cbn. apply app_nil_r.
Qed.

Lemma isDayEvent_not ev added :
  Forall isDayEvent added -> ~ isDayEvent ev -> ev ∉ added.
Proof.
  intros Hall Hnot Hin. exact (Hnot (proj1 (Forall_forall _ _) Hall ev Hin)).
Qed.

Section MySQLMore.
Variable env : Env.
Variable instance : InstanceMessage.t.

Let id := InstanceMessage.ResourceID instance.


(** X6.  [syncMySQLSlowQuery] undoes nothing: the table at the end of a
    run is the table after the sweep (the table of the start when the
    sweep failed) with the upserts of the run applied in order, all of
    them when the run returns no error and all but at most the last one
    otherwise. *)
Theorem mysql_sync_keeps_committed_upserts w0 :
  let today := gotime.Truncate (Now env w0) (24 * gotime.Hour) in
  let earliest := gotime.AddDate today (-30) in
  let base :=
    match deleteOutdatedSlowLog env w0 id earliest with
    | Some _ => slowLog w0
    | None => sweep id earliest (slowLog w0)
    end in
  exists added committed failed,
    trace (syncMySQLSlowQuery env instance w0).1 = trace w0 ++ added
    /\ upsertsOf added = committed ++ failed
    /\ (length failed <= 1)%nat
    /\ ((syncMySQLSlowQuery env instance w0).2 = inr tt -> failed = [])
    /\ slowLog (syncMySQLSlowQuery env instance w0).1
       = foldl applyUpsert base committed.
Proof.
  intros today earliest base. pose proof (syncMySQL_any env instance w0) as Hany.
  cbn zeta in Hany. fold id in Hany. change (- retentionCycle) with (-30) in Hany.
  fold today in Hany. fold earliest in Hany. subst base.
  destruct (syncMySQLSlowQuery env instance w0) as [w1 r]. cbn [fst snd].
  destruct Hany as [(code & _ & [(Hdel & Htr & Htab)|(Hdel & [Htr|Htr] & Htab)])
                   |(latest & added & committed & failed & Hdel & _ & Htr & _
                     & _ & _ & _ & Hups & Hlen & Hok & Htab & _)];
    rewrite Hdel.
  1-3: eexists; exists [], []; split; [exact Htr|]; cbn;
    split; [reflexivity|]; split; [lia|]; split; [reflexivity | exact Htab].
  eexists. exists committed, failed. split; [exact Htr|].
  rewrite upsertsOf_prelude. repeat split; assumption.
Qed.

(** X7.  [syncMySQLSlowQuery] closes the driver it opens: either the run
    stops before the driver is open, and then it checks, fetches and
    upserts nothing, or the check is made and the close of the driver is
    the last call of the run, made once, whatever the run returns. *)
Theorem mysql_sync_closes_driver w0 :
  exists added,
    trace (syncMySQLSlowQuery env instance w0).1 = trace w0 ++ added
    /\ (((CheckSlowQueryLogEnabled None ∉ added)
         /\ (Close None ∉ added)
         /\ fetchesOf added = []
         /\ upsertsOf added = [])
        \/ (exists body,
              added = body ++ [Close None]
              /\ CheckSlowQueryLogEnabled None ∈ body
              /\ (Close None ∉ body))).
Proof.
  pose proof (syncMySQL_any env instance w0) as Hany.
  cbn zeta in Hany. fold id in Hany.
  destruct (syncMySQLSlowQuery env instance w0) as [w1 r]. cbn [fst].
  destruct Hany as [(code & _ & [(_ & Htr & _)|(_ & [Htr|Htr] & _)])
                   |(latest & added & committed & failed & _ & _ & Htr
                     & Hkinds & _)].
  1-3: eexists; split; [exact Htr|]; left;
    rewrite ?elem_of_cons, ?elem_of_nil;
    repeat split; try reflexivity; intros H; intuition discriminate.
  eexists. split; [exact Htr|]. right.
  exists (preludeEvents instance
            (gotime.AddDate (gotime.Truncate (Now env w0) (24 * gotime.Hour))
               (- retentionCycle)) ++ added).
  split; [rewrite <- app_assoc; reflexivity|]. split.
  - apply elem_of_app. left. unfold preludeEvents. do 3 right. left.
  - intros Hin. apply elem_of_app in Hin as [Hin|Hin].
    + unfold preludeEvents in Hin. rewrite !elem_of_cons, elem_of_nil in Hin.
      intuition discriminate.
    + exact (isDayEvent_not (Close None) added Hkinds (fun H => H) Hin).
Qed.

End MySQLMore.

Lemma isProbeOf_mono (l1 l2 : list DatabaseMessage.t) ev :
  (forall database, database ∈ l1 -> database ∈ l2) ->
  isProbeOf l1 ev -> isProbeOf l2 ev.
Proof.
  intros Hsub. unfold isProbeOf.
  destruct ev as [| | | |? [name|]|[name|]|[name|]| | |]; try tauto;
    rewrite !list_elem_of_fmap; intros (database & -> & Hin); eauto.
Qed.

Lemma fetchesOf_none added :
  (forall database date, SyncSlowQuery database date ∉ added) ->
  fetchesOf added = [].
Proof.
  induction added as [|ev added IH]; intros Hnone; [reflexivity|].
  assert (Hrest : fetchesOf added = []).
  { apply IH. intros database date Hin. apply (Hnone database date). right. exact Hin. }
  destruct ev; try exact Hrest. exfalso. eapply Hnone. left.
Qed.

Lemma upsertsOf_none added :
  (forall upsert, UpsertSlowLog upsert ∉ added) -> upsertsOf added = [].
Proof.
  induction added as [|ev added IH]; intros Hnone; [reflexivity|].
  assert (Hrest : upsertsOf added = []).
  { apply IH. intros upsert Hin. apply (Hnone upsert). right. exact Hin. }
  destruct ev; try exact Hrest. exfalso. eapply Hnone. left.
Qed.

Lemma probe_no_fetch databases added :
  Forall (isProbeOf databases) added ->
  fetchesOf added = [] /\ upsertsOf added = [].
Proof.
  intros Hall. split; [apply fetchesOf_none | apply upsertsOf_none]; intros;
    intros Hin; exact (proj1 (Forall_forall _ _) Hall _ Hin).
Qed.

Lemma merge_no_fetch added : Forall isMergeEvent added -> fetchesOf added = [].
Proof.
  intros Hall. apply fetchesOf_none. intros database date Hin.
  exact (proj1 (Forall_forall _ _) Hall _ Hin).
Qed.

Section Probe.
Variable env : Env.
Variable instance : InstanceMessage.t.

Let id := InstanceMessage.ResourceID instance.

Lemma findEnabledDatabase_step database rest w :
  let name := DatabaseMessage.DatabaseName database in
  let opened := record (GetAdminDatabaseDriver id (Some name)) w in
  let closed :=
    record (Close (Some name)) (record (CheckSlowQueryLogEnabled (Some name)) opened) in
  findEnabledDatabase env instance (database :: rest) w
  = if negb (bool_decide (DatabaseMessage.SyncState database = api.OK))
    then findEnabledDatabase env instance rest w
    else if IsSystemDatabase env name
    then findEnabledDatabase env instance rest w
    else
      match getAdminDatabaseDriver env w id (Some name) with
      | Some _ => findEnabledDatabase env instance rest opened
      | None =>
          match checkSlowQueryLogEnabled env opened (Some name) with
          | Some _ => findEnabledDatabase env instance rest closed
          | None => (closed, inr (Some database))
          end
      end.
Proof.
  cbn zeta. cbn [findEnabledDatabase].
  destruct (negb _); [reflexivity|].
  destruct (IsSystemDatabase env _); [reflexivity|].
  unfold bind at 1. unfold attempt. unfold bind at 1.
  unfold driver.GetAdminDatabaseDriver, query. cbn [fmap option_fmap option_map].
  fold id.
  destruct (getAdminDatabaseDriver env w id _); [reflexivity|].
  unfold deferClose, driver.CheckSlowQueryLogEnabled, query.
  destruct (checkSlowQueryLogEnabled env _ _); reflexivity.
Qed.

Lemma findEnabledDatabase_run databases : forall w,
  exists w' result added,
    findEnabledDatabase env instance databases w = (w', inr result)
    /\ slowLog w' = slowLog w
    /\ trace w' = trace w ++ added
    /\ match result with
       | Some database =>
           exists before after skipped,
             databases = before ++ database :: after
             /\ eligible env database
             /\ added = skipped ++ passedProbe instance database
             /\ Forall (isProbeOf before) skipped
       | None => Forall (isProbeOf databases) added
       end.
Proof.
  induction databases as [|database rest IH]; intros w.
  { exists w, None, []. cbn. rewrite app_nil_r. repeat split. constructor. }
  rewrite findEnabledDatabase_step. cbn zeta.
  set (name := DatabaseMessage.DatabaseName database).
  assert (Hlift : forall (w1 : World) (probe : list Event),
             slowLog w1 = slowLog w ->
             trace w1 = trace w ++ probe ->
             Forall (isProbeOf [database]) probe ->
             exists w' result added,
               findEnabledDatabase env instance rest w1 = (w', inr result)
               /\ slowLog w' = slowLog w
               /\ trace w' = trace w ++ added
               /\ match result with
                  | Some found =>
                      exists before after skipped,
                        database :: rest = before ++ found :: after
                        /\ eligible env found
                        /\ added = skipped ++ passedProbe instance found
                        /\ Forall (isProbeOf before) skipped
                  | None => Forall (isProbeOf (database :: rest)) added
                  end).
  { intros w1 probe Htab1 Htr1 Hprobe.
    destruct (IH w1) as (w' & result & added & Hrun & Htab & Htr & Hres).
    exists w', result, (probe ++ added).
    split; [exact Hrun|]. split; [congruence|].
    split; [rewrite Htr, Htr1, <- app_assoc; reflexivity|].
    assert (Hprobe' : forall l, Forall (isProbeOf (database :: l)) probe).
    { intros l. eapply Forall_impl; [exact Hprobe|]. intros ev.
      apply isProbeOf_mono. intros d Hd. apply list_elem_of_singleton in Hd as ->. left. }
    destruct result as [found|].
    - destruct Hres as (before & after & skipped & -> & Helig & -> & Hskipped).
      exists (database :: before), after, (probe ++ skipped).
      split; [reflexivity|]. split; [exact Helig|].
      split; [rewrite <- app_assoc; reflexivity|].
      apply Forall_app. split; [apply Hprobe'|].
      eapply Forall_impl; [exact Hskipped|]. intros ev.
      apply isProbeOf_mono. intros d Hd. right. exact Hd.
    - apply Forall_app. split; [apply Hprobe'|].
      eapply Forall_impl; [exact Hres|]. intros ev.
      apply isProbeOf_mono. intros d Hd. right. exact Hd. }
  assert (Hname : name ∈ DatabaseMessage.DatabaseName <$> [database])
    by (cbn; left).
  destruct (negb _) eqn:Hsync.
  { apply (Hlift w []); [reflexivity | rewrite app_nil_r; reflexivity | constructor]. }
  destruct (IsSystemDatabase env name) eqn:Hsystem.
  { apply (Hlift w []); [reflexivity | rewrite app_nil_r; reflexivity | constructor]. }
  destruct (getAdminDatabaseDriver env w id (Some name)).
  { apply (Hlift _ [GetAdminDatabaseDriver id (Some name)]);
      [reflexivity | reflexivity | repeat constructor; exact Hname]. }
  destruct (checkSlowQueryLogEnabled env _ (Some name)).
  { apply (Hlift _ (passedProbe instance database)).
    - reflexivity.
    - rewrite !record_trace, <- !app_assoc. reflexivity.
    - repeat constructor; exact Hname. }
  eexists _, (Some database), (passedProbe instance database).
  split; [reflexivity|]. split; [reflexivity|].
  split; [rewrite !record_trace, <- !app_assoc; reflexivity|].
  exists [], rest, []. split; [reflexivity|]. split.
  - split; [|exact Hsystem].
    apply negb_false_iff in Hsync. apply bool_decide_eq_true in Hsync. exact Hsync.
  - split; [reflexivity | constructor].
Qed.

Lemma findEnabledDatabase_none databases : forall w,
  (forall database, database ∈ databases -> ~ eligible env database) ->
  findEnabledDatabase env instance databases w = (w, inr None).
Proof.
  induction databases as [|database rest IH]; intros w Hnone; [reflexivity|].
  rewrite findEnabledDatabase_step. cbn zeta.
  assert (Hrest : forall d, d ∈ rest -> ~ eligible env d)
    by (intros d Hd; apply Hnone; right; exact Hd).
  destruct (negb _) eqn:Hsync; [exact (IH w Hrest)|].
  destruct (IsSystemDatabase env _) eqn:Hsystem; [exact (IH w Hrest)|].
  exfalso. apply (Hnone database); [left|]. split; [|exact Hsystem].
  apply negb_false_iff in Hsync. apply bool_decide_eq_true in Hsync. exact Hsync.
Qed.

End Probe.

Section Merge.
Variable env : Env.
Variable instance : InstanceMessage.t.

(** The calls of the second loop are reads of persisted records and
    upserts. *)
Lemma upsertDatabases_kinds latestLogDate nextLogDate databases :
  forall logMap w w' r added,
    upsertDatabases env instance latestLogDate nextLogDate databases logMap w
    = (w', r) ->
    trace w' = trace w ++ added ->
    Forall isMergeEvent added.
Proof.
  induction databases as [|database rest IH]; intros logMap w w' r added Hrun Htr.
  - injection Hrun as <- <-.
    rewrite <- (app_nil_r (trace w)) in Htr at 1.
    apply app_inv_head in Htr as <-. constructor.
  - rewrite upsertDatabases_step in Hrun.
    destruct (gomap.get _ logMap) as [statistics|]; [|exact (IH _ _ _ _ _ Hrun Htr)].
    cbn zeta in Hrun.
    set (find := findOf database latestLogDate nextLogDate) in *.
    set (upsert := upsertOf instance latestLogDate database _) in *.
    set (w2 := match upsertSlowLog env _ upsert with Some _ => _ | None => _ end) in *.
    assert (Htr2 : trace w2 = trace w ++ [ListSlowQuery find; UpsertSlowLog upsert]).
    { subst w2. destruct (upsertSlowLog env _ upsert); cbn [trace record];
        rewrite <- app_assoc; reflexivity. }
    destruct (upsertDatabases_run env instance latestLogDate nextLogDate rest
                match listSlowQuery env w find with
                | inr (log :: logs) =>
                    gomap.update (DatabaseMessage.DatabaseName database)
                      (pgMergeSlowQueryLog_arg statistics (log :: logs)) logMap
                | _ => logMap
                end w2) as (w3 & added3 & Hrun3 & Htr3 & _).
    rewrite Hrun3 in Hrun. injection Hrun as <- <-.
    pose proof (IH _ _ _ _ added3 Hrun3 Htr3) as Hkinds.
    rewrite Htr3, Htr2, <- app_assoc in Htr. apply app_inv_head in Htr as <-.
    repeat constructor. exact Hkinds.
Qed.

(** What follows the fetch of a snapshot never returns an error, calls
    only the reads of persisted records and the upserts, and keys every
    upsert on the day of the log time of the snapshot. *)
Lemma syncSnapshot_run databases logMap w :
  exists w' added,
    syncSnapshot env instance databases logMap w = (w', inr tt)
    /\ trace w' = trace w ++ added
    /\ Forall isMergeEvent added
    /\ Forall (fun upsert =>
                 UpsertSlowLogMessage.InstanceID upsert
                 = InstanceMessage.ResourceID instance
                 /\ UpsertSlowLogMessage.LogDate upsert
                    = gotime.Truncate (getLatestLogTime logMap) (24 * gotime.Hour))
         (upsertsOf added).
Proof.
  unfold syncSnapshot. destruct (gotime.IsZero _).
  { exists w, []. cbn. rewrite app_nil_r. repeat split; constructor. }
  destruct (upsertDatabases_run env instance
              (gotime.Truncate (getLatestLogTime logMap) (24 * gotime.Hour))
              (gotime.AddDate
                 (gotime.Truncate (getLatestLogTime logMap) (24 * gotime.Hour)) 1)
              databases logMap w) as (w' & added & Hrun & Htr & _ & Hall & _).
  exists w', added. split; [exact Hrun|]. split; [exact Htr|].
  split; [exact (upsertDatabases_kinds _ _ _ _ _ _ _ _ Hrun Htr) | exact Hall].
Qed.

End Merge.

Section PostgreSQLRun.
Variable env : Env.
Variable instance : InstanceMessage.t.

Let id := InstanceMessage.ResourceID instance.

Lemma syncPostgreSQL_run w0 :
  let today := gotime.Truncate (Now env w0) (24 * gotime.Hour) in
  let earliest := gotime.AddDate today (- retentionCycle) in
  syncPostgreSQLSlowQuery env instance w0
  = match deleteOutdatedSlowLog env w0 id earliest with
    | Some code =>
        (record (DeleteOutdatedSlowLog id earliest) w0, inl (External code))
    | None =>
        let w1 := swept id earliest w0 in
        match listDatabases env w1 id with
        | inl code => (record (ListDatabases id) w1, inl (External code))
        | inr databases =>
            match findEnabledDatabase env instance databases
                    (record (ListDatabases id) w1) with
            | (w3, inl e) => (w3, inl e)
            | (w3, inr None) => (w3, inl (NoDatabaseAvailable id))
            | (w3, inr (Some enabled)) =>
                let name := Some (DatabaseMessage.DatabaseName enabled) in
                match getAdminDatabaseDriver env w3 id name with
                | Some code =>
                    (record (GetAdminDatabaseDriver id name) w3,
                     inl (External code))
                | None =>
                    let w4 := record (GetAdminDatabaseDriver id name) w3 in
                    let w5 := record (SyncSlowQuery name (Now env w4)) w4 in
                    match syncSlowQuery env w4 name (Now env w4) with
                    | inl code => (record (Close name) w5, inl (External code))
                    | inr logMap =>
                        let '(w6, r) :=
                          syncSnapshot env instance databases logMap w5 in
                        (record (Close name) w6, r)
                    end
                end
            end
        end
    end.
Proof.
  cbn zeta. unfold syncPostgreSQLSlowQuery.
  unfold bind at 1. unfold store.DeleteOutdatedSlowLog, command. fold id.
  destruct (deleteOutdatedSlowLog env w0 id _); [reflexivity|].
  fold (sweep id (gotime.AddDate (gotime.Truncate (Now env w0) (24 * gotime.Hour))
                    (- retentionCycle)) (slowLog w0)).
  fold (swept id (gotime.AddDate (gotime.Truncate (Now env w0) (24 * gotime.Hour))
                    (- retentionCycle)) w0).
  unfold bind at 1. unfold store.ListDatabases, query. fold id.
  destruct (listDatabases env _ id) as [code|databases]; [reflexivity|].
  unfold bind at 1.
  destruct (findEnabledDatabase env instance databases _) as [w3 [e|[enabled|]]];
    [reflexivity| |reflexivity].
  unfold bind at 1. unfold driver.GetAdminDatabaseDriver, query.
  cbn [fmap option_fmap option_map]. fold id.
  destruct (getAdminDatabaseDriver env w3 id _); [reflexivity|].
  unfold deferClose, bind, driver.SyncSlowQuery, query.
  destruct (syncSlowQuery env _ _ _); reflexivity.
Qed.

End PostgreSQLRun.

Section PostgreSQLMore.
Variable env : Env.
Variable instance : InstanceMessage.t.

Let id := InstanceMessage.ResourceID instance.

(** X8.  The probe of [syncPostgreSQLSlowQuery] returns no error and
    leaves the table alone.  The database it settles on is in sync state
    OK and no system database; its own probe, the opening of its driver,
    the check and the close, ends the calls, and the calls before it are
    openings, checks and closes for databases that the store lists before
    it.  When it settles on none, all its calls are of these three kinds,
    and when no database is both in state OK and no system database it
    makes no call at all. *)
Theorem pg_probe_takes_first_passing databases w :
  exists w' result added,
    findEnabledDatabase env instance databases w = (w', inr result)
    /\ slowLog w' = slowLog w
    /\ trace w' = trace w ++ added
    /\ match result with
       | Some database =>
           exists before after skipped,
             databases = before ++ database :: after
             /\ eligible env database
             /\ added = skipped ++ passedProbe instance database
             /\ Forall (isProbeOf before) skipped
       | None => Forall (isProbeOf databases) added
       end
    /\ ((forall database, database ∈ databases -> ~ eligible env database) ->
        result = None /\ added = []).
Proof.
  destruct (findEnabledDatabase_run env instance databases w)
    as (w' & result & added & Hrun & Htab & Htr & Hres).
  exists w', result, added. repeat (split; [assumption|]).
  intros Hnone. rewrite (findEnabledDatabase_none env instance databases w Hnone) in Hrun.
  injection Hrun as <- <-. split; [reflexivity|].
  rewrite <- (app_nil_r (trace w)) in Htr at 1.
  apply app_inv_head in Htr. symmetry. exact Htr.
Qed.

Lemma findEnabledDatabase_quiet databases w :
  exists w' result added,
    findEnabledDatabase env instance databases w = (w', inr result)
    /\ slowLog w' = slowLog w
    /\ trace w' = trace w ++ added
    /\ fetchesOf added = []
    /\ upsertsOf added = [].
Proof.
  destruct (findEnabledDatabase_run env instance databases w)
    as (w' & result & added & Hrun & Htab & Htr & Hres).
  exists w', result, added. repeat (split; [assumption|]).
  apply (probe_no_fetch databases). destruct result as [database|]; [|exact Hres].
  destruct Hres as (before & after & skipped & -> & _ & -> & Hskipped).
  apply Forall_app. split.
  - eapply Forall_impl; [exact Hskipped|]. intros ev. apply isProbeOf_mono.
    intros d Hd. apply elem_of_app. left. exact Hd.
  - assert (Hin : DatabaseMessage.DatabaseName database
                    ∈ DatabaseMessage.DatabaseName <$> before ++ database :: after).
    { apply list_elem_of_fmap. exists database. split; [reflexivity|].
      apply elem_of_app. right. left. }
    repeat constructor; exact Hin.
Qed.

(** X9.  When the sweep and the listing succeed and no database of the
    instance is both in sync state OK and no system database,
    [syncPostgreSQLSlowQuery] returns the error that no database is
    available, after these two calls only: no driver is opened. *)
Theorem pg_sync_without_eligible_database w0 databases :
  let today := gotime.Truncate (Now env w0) (24 * gotime.Hour) in
  let earliest := gotime.AddDate today (-30) in
  deleteOutdatedSlowLog env w0 id earliest = None ->
  listDatabases env (swept id earliest w0) id = inr databases ->
  (forall database, database ∈ databases -> ~ eligible env database) ->
  syncPostgreSQLSlowQuery env instance w0
  = ({| slowLog := sweep id earliest (slowLog w0);
        trace := trace w0 ++ [DeleteOutdatedSlowLog id earliest; ListDatabases id] |},
     inl (NoDatabaseAvailable id)).
Proof.
  intros today earliest Hdel Hlist Hnone.
  rewrite syncPostgreSQL_run. cbn zeta. change (- retentionCycle) with (-30).
  fold id. fold today. fold earliest. rewrite Hdel, Hlist.
  rewrite (findEnabledDatabase_none env instance databases _ Hnone).
  unfold record, swept. cbn [slowLog trace]. rewrite <- app_assoc. reflexivity.
Qed.

(** X10.  Whatever the store and the driver answer, a run of
    [syncPostgreSQLSlowQuery] fetches at most once, all its upserts
    carry the id of the instance and one and the same midnight, and a run
    that returns an error has made no upsert. *)
Theorem pg_sync_upserts_one_day w0 :
  exists added,
    trace (syncPostgreSQLSlowQuery env instance w0).1 = trace w0 ++ added
    /\ (length (fetchesOf added) <= 1)%nat
    /\ (exists logDate,
          logDate mod (24 * gotime.Hour) = 0
          /\ Forall (fun upsert =>
                       UpsertSlowLogMessage.InstanceID upsert = id
                       /\ UpsertSlowLogMessage.LogDate upsert = logDate)
               (upsertsOf added))
    /\ ((syncPostgreSQLSlowQuery env instance w0).2 <> inr tt ->
        upsertsOf added = []).
Proof.
  rewrite syncPostgreSQL_run. cbn zeta. fold id.
  set (earliest := gotime.AddDate _ (- retentionCycle)).
  assert (Hquiet : forall added,
             fetchesOf added = [] -> upsertsOf added = [] ->
             (length (fetchesOf added) <= 1)%nat
             /\ (exists logDate,
                   logDate mod (24 * gotime.Hour) = 0
                   /\ Forall (fun upsert =>
                                UpsertSlowLogMessage.InstanceID upsert = id
                                /\ UpsertSlowLogMessage.LogDate upsert = logDate)
                        (upsertsOf added))
             /\ upsertsOf added = []).
  { intros added -> ->. split; [cbn; lia|]. split; [|reflexivity].
    exists 0. split; [reflexivity | constructor]. }
  destruct (deleteOutdatedSlowLog env w0 id earliest).
  { exists [DeleteOutdatedSlowLog id earliest]. split; [reflexivity|].
    destruct (Hquiet [DeleteOutdatedSlowLog id earliest] eq_refl eq_refl)
      as (? & ? & ?). split; [assumption | split; [assumption | intros _; assumption]]. }
  destruct (listDatabases env _ id) as [code|databases].
  { exists [DeleteOutdatedSlowLog id earliest; ListDatabases id].
    split; [cbn; rewrite <- app_assoc; reflexivity|].
    destruct (Hquiet [DeleteOutdatedSlowLog id earliest; ListDatabases id]
                eq_refl eq_refl) as (? & ? & ?). split; [assumption | split; [assumption | intros _; assumption]]. }
  destruct (findEnabledDatabase_quiet databases
              (record (ListDatabases id) (swept id earliest w0)))
    as (w3 & result & probes & -> & _ & Htr3 & Hf3 & Hu3).
  assert (Htr3' : trace w3
                  = trace w0
                    ++ [DeleteOutdatedSlowLog id earliest; ListDatabases id]
                    ++ probes).
  { rewrite Htr3. cbn [trace record swept]. rewrite <- !app_assoc. reflexivity. }
  destruct result as [enabled|].
  2:{ eexists. split; [exact Htr3'|].
      destruct (Hquiet ([DeleteOutdatedSlowLog id earliest; ListDatabases id] ++ probes))
        as (? & ? & ?);
        [rewrite fetchesOf_app; exact Hf3 | rewrite upsertsOf_app; exact Hu3|].
      split; [assumption | split; [assumption | intros _; assumption]]. }
  cbn zeta. set (name := Some (DatabaseMessage.DatabaseName enabled)).
  destruct (getAdminDatabaseDriver env w3 id name).
  { exists ([DeleteOutdatedSlowLog id earliest; ListDatabases id] ++ probes
            ++ [GetAdminDatabaseDriver id name]).
    split; [cbn [fst]; rewrite record_trace, Htr3', <- !app_assoc; reflexivity|].
    destruct (Hquiet ([DeleteOutdatedSlowLog id earliest; ListDatabases id]
                        ++ probes ++ [GetAdminDatabaseDriver id name]))
      as (? & ? & ?);
      [rewrite !fetchesOf_app, Hf3; reflexivity
      |rewrite !upsertsOf_app, Hu3; reflexivity|].
    split; [assumption | split; [assumption | intros _; assumption]]. }
  set (w4 := record (GetAdminDatabaseDriver id name) w3).
  destruct (syncSlowQuery env w4 name (Now env w4)) as [code|logMap].
  { exists ([DeleteOutdatedSlowLog id earliest; ListDatabases id] ++ probes
            ++ [GetAdminDatabaseDriver id name; SyncSlowQuery name (Now env w4);
                Close name]).
    split; [cbn [fst]; rewrite !record_trace; subst w4; rewrite record_trace, Htr3',
              <- !app_assoc; reflexivity|].
    rewrite !fetchesOf_app, !upsertsOf_app, Hf3, Hu3. cbn.
    split; [lia|]. split; [|reflexivity].
    exists 0. split; [reflexivity | constructor]. }
  destruct (syncSnapshot_run env instance databases logMap
              (record (SyncSlowQuery name (Now env w4)) w4))
    as (w6 & merges & -> & Htr6 & Hkinds & Hall).
  exists ([DeleteOutdatedSlowLog id earliest; ListDatabases id] ++ probes
          ++ [GetAdminDatabaseDriver id name; SyncSlowQuery name (Now env w4)]
          ++ merges ++ [Close name]).
  split; [cbn [fst]; rewrite record_trace, Htr6, record_trace; subst w4;
          rewrite record_trace, Htr3', <- !app_assoc; reflexivity|].
  split.
  { rewrite !fetchesOf_app, Hf3, (merge_no_fetch merges Hkinds). cbn. lia. }
  split; [|intros H; cbn [snd] in H; congruence].
  replace (upsertsOf _) with (upsertsOf merges)
    by (rewrite !upsertsOf_app, Hu3; cbn; rewrite app_nil_r; reflexivity).
  eexists. split; [apply Truncate_day_aligned | exact Hall].
Qed.

(** X11.  For an instance with an active policy and an engine other than
    MySQL and PostgreSQL, [syncInstanceSlowQuery] returns the error that
    the engine is unsupported, naming the engine, after reading the
    policy and nothing else. *)
Theorem syncInstance_unsupported_engine w policy :
  getSlowQueryPolicy env w id = inr (Some policy) ->
  SlowQueryPolicy.Active policy = true ->
  InstanceMessage.Engine instance <> storepb.MYSQL ->
  InstanceMessage.Engine instance <> storepb.POSTGRES ->
  syncInstanceSlowQuery env instance w
  = (record (GetSlowQueryPolicy id) w,
     inl (UnsupportedEngine (InstanceMessage.Engine instance))).
Proof.
  intros Hpolicy Hactive Hmysql Hpostgres.
  unfold syncInstanceSlowQuery, bind, store.GetSlowQueryPolicy, query. fold id.
  rewrite Hpolicy, Hactive. cbn [negb].
  destruct (InstanceMessage.Engine instance); try reflexivity; congruence.
Qed.



End PostgreSQLMore.

Section EmptySnapshot.
Variable env : Env.
Variable instance : InstanceMessage.t.

Lemma getLatestLogTime_empty logMap :
  Forall (fun entry : string * storepb.SlowQueryStatistics =>
            storepb.Items entry.2 = []) logMap ->
  getLatestLogTime logMap = gotime.zeroTime.
Proof.
  induction 1 as [|[name log] rest Hempty _ IH]; [reflexivity|].
  cbn [getLatestLogTime]. cbn [snd] in Hempty. rewrite Hempty. exact IH.
Qed.

(** X13.  Empty log, no need to sync: when no database of the snapshot
    has an item, [getLatestLogTime] is the zero time and the PostgreSQL
    routine makes no further call of the store after the fetch. *)
Theorem pg_snapshot_without_items databases logMap w :
  Forall (fun entry : string * storepb.SlowQueryStatistics =>
            storepb.Items entry.2 = []) logMap ->
  syncSnapshot env instance databases logMap w = (w, inr tt).
Proof.
  intros Hempty. unfold syncSnapshot.
  rewrite (getLatestLogTime_empty logMap Hempty). reflexivity.
Qed.

End EmptySnapshot.


(** Where the offset of the zone changes, a calendar day is not 24
    hours: with the last known date handed back in a Location that
    changes to summer time two days ago, the fetches after the change are
    an hour before midnight UTC, and the midnight of today is not
    fetched. *)
Example mysql_sync_across_summer_time :
  fetchesOf
    (trace (syncMySQLSlowQuery samples.summerEnv scenario.mysql scenario.start).1)
  = [scenario.daysAgo 5; scenario.daysAgo 4; scenario.daysAgo 3;
     scenario.daysAgo 2; scenario.daysAgo 1 - gotime.Hour;
     scenario.today - gotime.Hour].
Proof. vm_compute. reflexivity. Qed.

Lemma pg_probe_takes_first_passing_witness :
  exists w' added,
    findEnabledDatabase (samples.systemEnv [samples.template; samples.dropped])
      scenario.postgres [samples.template; samples.dropped] scenario.start
    = (w', inr None)
    /\ trace w' = trace scenario.start ++ added
    /\ added = [].
Proof.
  destruct (pg_probe_takes_first_passing
              (samples.systemEnv [samples.template; samples.dropped])
              scenario.postgres [samples.template; samples.dropped]
              scenario.start)
    as (w' & result & added & Hrun & _ & Htrace & _ & Hnone).
  destruct Hnone as [-> ->].
  - intros database Hin [Hok Hsystem].
    apply elem_of_cons in Hin as [->|Hin]; [discriminate Hsystem|].
    apply elem_of_cons in Hin as [->|Hin]; [discriminate Hok|].
    inversion Hin.
  - exists w', []. split; [exact Hrun|]. split; [exact Htrace | reflexivity].
Defined.

Lemma pg_sync_without_eligible_database_witness :
  exists w,
    syncPostgreSQLSlowQuery
      (samples.systemEnv [samples.template; samples.dropped])
      scenario.postgres scenario.start
    = (w, inl (NoDatabaseAvailable "pg-prod"))
    /\ length (trace w) = 2%nat.
Proof.
  eexists. split.
  - apply (pg_sync_without_eligible_database
             (samples.systemEnv [samples.template; samples.dropped])
             scenario.postgres scenario.start
             [samples.template; samples.dropped]); [reflexivity | reflexivity|].
    intros database Hin [Hok Hsystem].
    apply elem_of_cons in Hin as [->|Hin]; [discriminate Hsystem|].
    apply elem_of_cons in Hin as [->|Hin]; [discriminate Hok|].
    inversion Hin.
  - reflexivity.
Defined.

Lemma syncInstance_unsupported_engine_witness :
  syncInstanceSlowQuery (scenario.mysqlEnv None) samples.tidb scenario.start
  = (record (GetSlowQueryPolicy "tidb-prod") scenario.start,
     inl (UnsupportedEngine storepb.TIDB)).
Proof.
  apply (syncInstance_unsupported_engine (scenario.mysqlEnv None) samples.tidb
           scenario.start {| SlowQueryPolicy.Active := true |});
    [reflexivity | reflexivity | discriminate | discriminate].
Defined.


Lemma pg_snapshot_without_items_witness :
  syncSnapshot (scenario.postgresEnv [scenario.app; scenario.billing] samples.quiet)
    scenario.postgres [scenario.app; scenario.billing] samples.quiet
    scenario.start
  = (scenario.start, inr tt).
Proof.
  apply pg_snapshot_without_items. repeat constructor.
Defined.

End SyncMore.

(** * More on the task DAG store *)

Module TaskDagMore.
Import taskdag dag TaskDagTheory.

Lemma CreateTaskDAGV2_cases faults create db :
  CreateTaskDAGV2 faults create db
  = if beginTxFails faults
    then (db, Some (Wrapf BeginTxError "failed to begin tx"))
    else if scanFails faults
    then (db, Some (Wrapf (Wrapf ScanError "failed to scan")
                      "failed to create task dag"))
    else if commitFails faults
    then (db, Some (Wrapf CommitError "failed to commit tx"))
    else ({| task_dag := task_dag db ++ [create]; task := task db |}, None).
Proof.
  unfold CreateTaskDAGV2, BeginTx, createTaskDAG, Commit, Rollback.
  destruct create as [fromTaskID toTaskID].
  destruct (beginTxFails faults), (scanFails faults), (commitFails faults);
    reflexivity.
Qed.

(** X14.  [CreateTaskDAGV2] is atomic and adds one edge.  It returns no
    error exactly when the begin, the insert and the commit succeed; then
    a listing without filter returns the edges stored before and the new
    edge, each as often as it is stored, in some order.  When it returns
    an error, the error is wrapped with the step that failed and the
    database is unchanged.  The tasks are never touched. *)
Theorem create_edge_then_list faults create db :
  exists db' err,
    CreateTaskDAGV2 faults create db = (db', err)
    /\ task db' = task db
    /\ (err = None
        <-> beginTxFails faults || scanFails faults || commitFails faults = false)
    /\ (err = None ->
        exists taskDAGs,
          ListTaskDags noFaults {| StageID := None; PipelineID := None |} db'
          = inr taskDAGs
          /\ taskDAGs ≡ₚ create :: task_dag db)
    /\ (err <> None ->
        db' = db /\ exists cause message, err = Some (Wrapf cause message)).
Proof.
  rewrite CreateTaskDAGV2_cases.
  destruct (beginTxFails faults);
    [eexists _, _; split; [reflexivity|]; cbn;
     repeat split; try discriminate; eauto|].
  destruct (scanFails faults);
    [eexists _, _; split; [reflexivity|]; cbn;
     repeat split; try discriminate; eauto|].
  destruct (commitFails faults);
    [eexists _, _; split; [reflexivity|]; cbn;
     repeat split; try discriminate; eauto|].
  eexists _, _. split; [reflexivity|]. cbn.
  split; [reflexivity|]. split; [split; reflexivity|]. split; [|congruence].
  intros _. eexists. split; [reflexivity|].
  symmetry. apply Permutation_cons_append.
Qed.

Lemma filter_filter_comm {A} (P Q : A -> Prop)
    `{!forall x, Decision (P x)} `{!forall x, Decision (Q x)} (l : list A) :
  filter P (filter Q l) = filter Q (filter P l).
Proof.
  rewrite !list_filter_filter. apply list_filter_iff. intros x. tauto.
Qed.

Lemma filter_idemp {A} (P : A -> Prop) `{!forall x, Decision (P x)} (l : list A) :
  filter P (filter P l) = filter P l.
Proof.
  rewrite list_filter_filter. apply list_filter_iff. intros x. tauto.
Qed.

Lemma filter_others_edgesFrom fromTaskIDs toTaskID :
  filter (fun row => ToTaskID row <> toTaskID) (edgesFrom fromTaskIDs toTaskID)
  = [].
Proof.
  induction fromTaskIDs as [|fromTaskID rest IH]; [reflexivity|].
  cbn [edgesFrom map]. rewrite filter_cons_False; [exact IH|]. cbn. tauto.
Qed.

Lemma filter_others_edgesFrom_other fromTaskIDs toTaskID other :
  toTaskID <> other ->
  filter (fun row => ToTaskID row <> other) (edgesFrom fromTaskIDs toTaskID)
  = edgesFrom fromTaskIDs toTaskID.
Proof.
  intros Hne. induction fromTaskIDs as [|fromTaskID rest IH]; [reflexivity|].
  cbn [edgesFrom map]. rewrite filter_cons_True by exact Hne.
  f_equal. exact IH.
Qed.

(** X15.  Rebuilding twice is rebuilding once: after a call of
    [RebuildTaskDAG] that returned no error, a second call with the same
    predecessors and target leaves the database as it is, whether it
    succeeds or fails. *)
Theorem rebuild_twice_is_rebuild_once first faults fromTaskIDs toTaskID db db1 :
  RebuildTaskDAG first fromTaskIDs toTaskID db = (db1, None) ->
  (RebuildTaskDAG faults fromTaskIDs toTaskID db1).1 = db1.
Proof.
  intros Hfirst. pose proof (RebuildTaskDAG_ok _ _ _ _ _ Hfirst) as Htable.
  rewrite RebuildTaskDAG_cases.
  destruct (beginTxFails faults); [reflexivity|].
  destruct (deleteFails faults); [reflexivity|].
  destruct (insertFails faults); [reflexivity|].
  destruct (commitFails faults); [reflexivity|].
  cbn [fst]. destruct db1 as [table tasks]. cbn [task_dag task] in *.
  f_equal. rewrite Htable at 1.
  rewrite filter_app, filter_idemp, filter_others_edgesFrom, app_nil_r.
  symmetry. exact Htable.
Qed.

(** X16.  [RebuildTaskDAG] touches the edges into its target only: whether
    it succeeds or fails, the tasks are unchanged and the edges into
    other tasks are the same, in the same order. *)
Theorem rebuild_keeps_other_rows faults fromTaskIDs toTaskID db :
  task (RebuildTaskDAG faults fromTaskIDs toTaskID db).1 = task db
  /\ filter (fun row => ToTaskID row <> toTaskID)
       (task_dag (RebuildTaskDAG faults fromTaskIDs toTaskID db).1)
     = filter (fun row => ToTaskID row <> toTaskID) (task_dag db).
Proof.
  rewrite RebuildTaskDAG_cases.
  destruct (beginTxFails faults); [split; reflexivity|].
  destruct (deleteFails faults); [split; reflexivity|].
  destruct (insertFails faults); [split; reflexivity|].
  destruct (commitFails faults); [split; reflexivity|].
  cbn [fst task task_dag]. split; [reflexivity|].
  rewrite filter_app, filter_idemp, filter_others_edgesFrom, app_nil_r.
  reflexivity.
Qed.

Lemma RebuildTaskDAG_noFaults fromTaskIDs toTaskID db :
  RebuildTaskDAG noFaults fromTaskIDs toTaskID db
  = ({| task_dag :=
          filter (fun row => ToTaskID row <> toTaskID) (task_dag db)
          ++ edgesFrom fromTaskIDs toTaskID;
        task := task db |}, None).
Proof. rewrite RebuildTaskDAG_cases. reflexivity. Qed.

(** X17.  Rebuilds for two different targets commute: in either order the
    table holds the same rows, up to their order, and the edges into
    each task are the same lists. *)
Theorem rebuilds_of_two_targets_commute from1 to1 from2 to2 db :
  to1 <> to2 ->
  let db12 :=
    (RebuildTaskDAG noFaults from2 to2
       (RebuildTaskDAG noFaults from1 to1 db).1).1 in
  let db21 :=
    (RebuildTaskDAG noFaults from1 to1
       (RebuildTaskDAG noFaults from2 to2 db).1).1 in
  task_dag db12 ≡ₚ task_dag db21
  /\ task db12 = task db21
  /\ forall toTaskID, edgesInto toTaskID db12 = edgesInto toTaskID db21.
Proof.
  intros Hne db12 db21. subst db12 db21.
  rewrite !RebuildTaskDAG_noFaults. cbn [fst task task_dag].
  assert (Hperm :
    filter (fun row => ToTaskID row <> to2)
      (filter (fun row => ToTaskID row <> to1) (task_dag db)
       ++ edgesFrom from1 to1) ++ edgesFrom from2 to2
    ≡ₚ filter (fun row => ToTaskID row <> to1)
         (filter (fun row => ToTaskID row <> to2) (task_dag db)
          ++ edgesFrom from2 to2) ++ edgesFrom from1 to1).
  { rewrite !filter_app.
    rewrite (filter_others_edgesFrom_other from1 to1 to2) by exact Hne.
    rewrite (filter_others_edgesFrom_other from2 to2 to1) by congruence.
    rewrite (filter_filter_comm (fun row => ToTaskID row <> to2)).
    rewrite <- !app_assoc. apply Permutation_app_head, Permutation_app_comm. }
  split; [exact Hperm|]. split; [reflexivity|].
  intros toTaskID. unfold edgesInto. cbn [task_dag].
  rewrite !filter_app.
  rewrite !(filter_others_edgesFrom_other from1 to1 to2) by exact Hne.
  rewrite !(filter_others_edgesFrom_other from2 to2 to1) by congruence.
  rewrite (filter_filter_comm (fun row => ToTaskID row <> to2)
             (fun row => ToTaskID row <> to1)).
  destruct (decide (to1 = toTaskID)) as [<-|H1].
  - rewrite (filter_edgesFrom_other from2 to2 to1) by congruence.
    rewrite !app_nil_r. reflexivity.
  - rewrite (filter_edgesFrom_other from1 to1 toTaskID) by exact H1.
    rewrite !app_nil_r. reflexivity.
Qed.

Lemma filter_unique_key {A} (key : A -> Z) (Q : A -> Prop)
    `{!forall x, Decision (Q x)} (k : Z) (l : list A) :
  NoDup (key <$> l) ->
  (length (filter (fun x => key x = k /\ Q x) l) <= 1)%nat.
Proof.
  induction l as [|x l IH]; intros Hnodup; [cbn; lia|].
  cbn [fmap list_fmap] in Hnodup. apply NoDup_cons in Hnodup as [Hx Hnodup].
  destruct (decide (key x = k /\ Q x)) as [[Hk HQ]|Hno].
  - rewrite filter_cons_True by (split; assumption).
    replace (filter _ l) with (@nil A); [cbn; lia|].
    symmetry. clear IH Hnodup. induction l as [|y l IH]; [reflexivity|].
    rewrite filter_cons_False.
    + apply IH. intros Hin. apply Hx. right. exact Hin.
    + intros [Hy _]. apply Hx. rewrite Hk, <- Hy. left.
  - rewrite filter_cons_False by exact Hno. apply IH, Hnodup.
Qed.

Lemma selectTaskDags_unique find db :
  NoDup (id <$> task db) ->
  StageID find <> None \/ PipelineID find <> None ->
  selectTaskDags find db
  = filter (fun dag =>
              bool_decide
                (filter (fun row =>
                           id row = FromTaskID dag
                           /\ forallb (fun clause : TaskRow -> bool => clause row)
                                (whereClauses find) = true)
                   (task db) <> []) = true)
      (task_dag db).
Proof.
  intros Hnodup Hfind. unfold selectTaskDags.
  assert (Hjoin : bool_decide (StageID find <> None)
                  || bool_decide (PipelineID find <> None) = true).
  { destruct Hfind as [H|H];
      [rewrite (bool_decide_eq_true_2 _ H)
      | rewrite (bool_decide_eq_true_2 _ H), orb_true_r];
      reflexivity. }
  rewrite Hjoin. induction (task_dag db) as [|dag rest IH]; [reflexivity|].
  cbn [flat_map]. rewrite IH.
  pose proof (filter_unique_key id
                (fun row => forallb (fun clause : TaskRow -> bool => clause row)
                              (whereClauses find) = true)
                (FromTaskID dag) (task db) Hnodup) as Hlen.
  destruct (filter _ (task db)) as [|row [|row' rows]] eqn:Hrows.
  - rewrite filter_cons_False; [reflexivity|].
    rewrite Hrows. rewrite bool_decide_eq_false_2; [discriminate | tauto].
  - rewrite filter_cons_True; [reflexivity|].
    rewrite Hrows. apply bool_decide_eq_true_2. discriminate.
  - cbn in Hlen. lia.
Qed.

(** X18.  When the ids of the stored tasks are distinct, the join
    repeats no edge: a listing by stage or pipeline that returns holds
    each stored edge whose from-task is within the filter as often as the
    table holds it, and no other edge. *)
Theorem listEdges_unique_task_ids faults find db taskDAGs :
  NoDup (id <$> task db) ->
  StageID find <> None \/ PipelineID find <> None ->
  ListTaskDags faults find db = inr taskDAGs ->
  exists keep : TaskDAGMessage -> bool,
    taskDAGs ≡ₚ filter (fun dag => keep dag = true) (task_dag db)
    /\ forall dag, keep dag = true <-> belongs find db (FromTaskID dag).
Proof.
  intros Hnodup Hfind Hrun.
  assert (Hlist : taskDAGs = selectTaskDags find db).
  { unfold ListTaskDags in Hrun.
    destruct (beginTxFails faults); [discriminate|].
    destruct (queryFails faults); [discriminate|].
    destruct (scanFails faults && _); [discriminate|].
    destruct (rowsErrFails faults); [discriminate|].
    destruct (commitFails faults); [discriminate|].
    congruence. }
  rewrite (selectTaskDags_unique find db Hnodup Hfind) in Hlist.
  rewrite Hlist. eexists. split; [apply Permutation_refl|]. intros dag. cbn beta.
  rewrite bool_decide_eq_true. unfold belongs. split.
  - intros Hrows.
    destruct (filter _ (task db)) as [|row rows] eqn:Heq; [congruence|].
    assert (Hin : row ∈ filter (fun row =>
                     id row = FromTaskID dag
                     /\ forallb (fun clause : TaskRow -> bool => clause row)
                          (whereClauses find) = true) (task db))
      by (rewrite Heq; left).
    apply list_elem_of_filter in Hin as [[Hid Hwhere] Hin].
    exists row. split; [exact Hin|]. split; [exact Hid|].
    apply forallb_whereClauses, Hwhere.
  - intros (row & Hin & Hid & Hpass) Hnil.
    assert (Hrow : row ∈ filter (fun row =>
                     id row = FromTaskID dag
                     /\ forallb (fun clause : TaskRow -> bool => clause row)
                          (whereClauses find) = true) (task db)).
    { apply list_elem_of_filter. split; [|exact Hin].
      split; [exact Hid | apply forallb_whereClauses, Hpass]. }
    rewrite Hnil in Hrow. inversion Hrow.
Qed.

Lemma create_edge_then_list_witness :
  exists taskDAGs,
    ListTaskDags noFaults {| StageID := None; PipelineID := None |}
      (CreateTaskDAGV2 noFaults (edge 1 3) oneStage).1
    = inr taskDAGs
    /\ taskDAGs ≡ₚ [edge 1 3; edge 1 3; edge 2 3].
Proof.
  destruct (create_edge_then_list noFaults (edge 1 3) oneStage)
    as (db' & err & Hrun & _ & Hok & Hlist & _).
  rewrite Hrun. cbn [fst]. apply Hlist, Hok. reflexivity.
Defined.

Lemma rebuild_twice_is_rebuild_once_witness :
  (RebuildTaskDAG noFaults [1; 2] 3
     (RebuildTaskDAG noFaults [1; 2] 3 twoStages).1).1
  = (RebuildTaskDAG noFaults [1; 2] 3 twoStages).1.
Proof.
  apply (rebuild_twice_is_rebuild_once noFaults noFaults [1; 2] 3 twoStages).
  reflexivity.
Defined.

Lemma rebuilds_of_two_targets_commute_witness :
  task_dag
    (RebuildTaskDAG noFaults [2] 3 (RebuildTaskDAG noFaults [1] 2 oneStage).1).1
  ≡ₚ task_dag
       (RebuildTaskDAG noFaults [1] 2 (RebuildTaskDAG noFaults [2] 3 oneStage).1).1.
Proof.
  apply (rebuilds_of_two_targets_commute [1] 2 [2] 3 oneStage). discriminate.
Defined.

Lemma listEdges_unique_task_ids_witness :
  exists keep : TaskDAGMessage -> bool,
    [edge 1 2] ≡ₚ filter (fun dag => keep dag = true) (task_dag twoStages)
    /\ forall dag, keep dag = true <-> belongs (stage 10) twoStages (FromTaskID dag).
Proof.
  apply (listEdges_unique_task_ids noFaults (stage 10) twoStages [edge 1 2]).
  - apply (bool_decide_unpack _). vm_compute. reflexivity.
  - left. discriminate.
  - reflexivity.
Defined.

End TaskDagMore.
